(** * Plugin pipeline assembly, validation, trace-log parsing and
      dependency checks of powerplatform-mcp

    A shallow embedding of [src/services/PluginService.ts] and
    [src/services/DependencyService.ts].

    - JavaScript strings are sequences of UTF-16 code units ([list N]).
    - The remote platform is an oracle [PowerPlatformClient] answering
      each request with a normal completion or a thrown exception; the
      services run in a small monad [M] that threads the log of the
      requests issued so far and propagates exceptions.
    - Remote records are modelled with the fields the services read,
      typed as the [as ...] assertions of the source type them; a field
      the source guards with [?.], with a truthiness test or with
      [!= null] is an [option]. *)

From Stdlib Require Import String Ascii Decimal DecimalString.
From Stdlib Require Import ZArith NArith Bool Lia Sorted List.
Import ListNotations.

Set Implicit Arguments.

(* ===================================================================== *)
(** ** JavaScript strings *)
(* ===================================================================== *)

Module JS.

(** A string is its sequence of UTF-16 code units. *)
Definition jsstring : Type := list N.

(** Literals of the source, written as Rocq strings. *)
Definition js (s : string) : jsstring :=
  map N_of_ascii (list_ascii_of_string s).

(** [a === b] on strings. *)
Fixpoint eqb (a b : jsstring) : bool :=
  match a, b with
  | [], [] => true
  | x :: a', y :: b' => N.eqb x y && eqb a' b'
  | _, _ => false
  end.

(** [a === b] on [string | undefined]. *)
Definition opt_eqb (a b : option jsstring) : bool :=
  match a, b with
  | None, None => true
  | Some x, Some y => eqb x y
  | _, _ => false
  end.

(** Truthiness of a string: every string but the empty one. *)
Definition truthy (s : jsstring) : bool :=
  match s with [] => false | _ :: _ => true end.

(** Truthiness of [string | undefined | null]. *)
Definition opt_truthy (s : option jsstring) : bool :=
  match s with None => false | Some x => truthy x end.

Definition colon : N := 58.
Definition comma : N := 44.
Definition newline : N := 10.

(** [s.indexOf(c)] for a one-unit pattern: index of the first
    occurrence, [-1] when there is none. *)
Fixpoint indexOf (c : N) (s : jsstring) : Z :=
  match s with
  | [] => (-1)%Z
  | x :: s' =>
      if N.eqb x c then 0%Z
      else let i := indexOf c s' in
           if (i <? 0)%Z then (-1)%Z else (i + 1)%Z
  end.

(** [s.split(sep)] for a one-unit separator; the result is never the
    empty array (["".split(",")] is [[""]]). *)
Fixpoint split (sep : N) (s : jsstring) : list jsstring :=
  match s with
  | [] => [[]]
  | x :: s' =>
      if N.eqb x sep then [] :: split sep s'
      else match split sep s' with
           | [] => [[x]]
           | l :: ls => (x :: l) :: ls
           end
  end.

(** [s.substring(start)]: a negative start is clamped to 0, a start past
    the end yields the empty string. *)
Definition substring (start : Z) (s : jsstring) : jsstring :=
  skipn (Z.to_nat (Z.max 0 start)) s.

(** WhiteSpace and LineTerminator code units of ECMAScript, the ones
    [trim] strips. *)
Definition isWhiteSpace (c : N) : bool :=
  match c with
  | 9 | 10 | 11 | 12 | 13 | 32 | 160 => true
  | 5760 | 8232 | 8233 | 8239 | 8287 | 12288 | 65279 => true
  | _ => (8192 <=? c)%N && (c <=? 8202)%N
  end%N.

Fixpoint trimStart (s : jsstring) : jsstring :=
  match s with
  | [] => []
  | x :: s' => if isWhiteSpace x then trimStart s' else s
  end.

Definition trimEnd (s : jsstring) : jsstring :=
  List.rev (trimStart (List.rev s)).

(** [s.trim()]. *)
Definition trim (s : jsstring) : jsstring := trimEnd (trimStart s).

(** [String(n)] for an array length. *)
Definition ofLength (n : nat) : jsstring :=
  js (NilEmpty.string_of_uint (Nat.to_uint n)).

End JS.

Import JS.

(** A value the services pass through without looking inside
    ([unknown] in the source): a JSON value. *)
#[local] Unset Elimination Schemes.
Inductive unknown : Type :=
| JNull
| JBool (b : bool)
| JNumber (z : Z)
| JString (s : jsstring)
| JArray (items : list unknown)
| JObject (fields : list (jsstring * unknown)).
#[local] Set Elimination Schemes.

(* ===================================================================== *)
(** ** Exceptions and completions *)
(* ===================================================================== *)

(** What is thrown: [new Error(message)], and the [TypeError] and
    [RangeError] of the language. *)
Inductive Exn : Type :=
| Error (message : jsstring)
| TypeError (message : jsstring)
| RangeError (message : jsstring).

(** How an awaited call completes. *)
Inductive Completion (A : Type) : Type :=
| Normal (v : A)
| Throw (e : Exn).

Arguments Normal {A} v.
Arguments Throw {A} e.

(** [arr.join(sep)]. *)
Fixpoint join (sep : jsstring) (l : list jsstring) : jsstring :=
  match l with
  | [] => []
  | [x] => x
  | x :: l' => x ++ sep ++ join sep l'
  end.

(** [[...new Set(l)]]: first occurrences, in order. *)
Fixpoint dedup (seen l : list jsstring) : list jsstring :=
  match l with
  | [] => []
  | x :: l' =>
      if existsb (eqb x) seen then dedup seen l'
      else x :: dedup (x :: seen) l'
  end.

(* ===================================================================== *)
(** ** Remote records *)
(* ===================================================================== *)

(** [ApiCollectionResponse<T>]: [{ value: T[] }]. *)
Record ApiCollectionResponse (T : Type) : Type := { value : list T }.

(** An expanded single-valued navigation property with a [name]. *)
Record NameRef : Type := { ref_name : option jsstring }.
Record TypeNameRef : Type := { typename : option jsstring }.
Record FullNameRef : Type := { fullname : option jsstring }.

(** [pluginassemblyid($select=name,version)]. *)
Record AssemblyRef : Type :=
  { assembly_name : option jsstring; assembly_version : option jsstring }.

(** A row of [sdkmessageprocessingsteps] as the service reads it. *)
Module Step.
Record t : Type :=
    { sdkmessageprocessingstepid : jsstring;
      name : jsstring;
      stage : Z;
      mode : Z;
      rank : Z;
      statuscode : Z;
      filteringattributes : option jsstring;
      supporteddeployment : Z;
      sdkmessageid : option NameRef;
      plugintypeid : option TypeNameRef;
      impersonatinguserid : option FullNameRef;
      _plugintypeid_value : option jsstring;
      other : list (jsstring * unknown) }.
End Step.

(** A row of [sdkmessageprocessingstepimages]. *)
Module Image.
Record t : Type :=
    { sdkmessageprocessingstepimageid : jsstring;
      name : jsstring;
      imagetype : Z;
      _sdkmessageprocessingstepid_value : jsstring;
      other : list (jsstring * unknown) }.
End Image.

(** A row of [pluginassemblies]. *)
Module Assembly.
Record t : Type :=
    { pluginassemblyid : jsstring;
      other : list (jsstring * unknown) }.
End Assembly.

(** A row of [plugintypes]. *)
Module PluginType.
Record t : Type :=
    { plugintypeid : jsstring;
      other : list (jsstring * unknown) }.
End PluginType.

(** [plugintypes(id)?$expand=pluginassemblyid($select=name,version)]. *)
Record PluginTypeExpanded : Type :=
  { pluginassemblyid : option AssemblyRef }.

(** A row of [plugintracelogs]. *)
Module TraceLog.
Record t : Type :=
    { mode : Z;
      operationtype : Z;
      exceptiondetails : option jsstring;
      other : list (jsstring * unknown) }.
End TraceLog.

(** The answer of [RetrieveDependenciesForDelete], as the service casts
    it: [{ EntityCollection?: { Entities?: unknown[] } }]. *)
Record EntityCollectionT : Type := { Entities : option (list unknown) }.
Record DependenciesResponse : Type :=
  { EntityCollection : option EntityCollectionT }.

(* ===================================================================== *)
(** ** The client and the service monad *)
(* ===================================================================== *)

(** The requests the two services issue, by entity set, with the parts
    of the URL that vary. [get] is typed by the entity set queried. *)
Inductive Request : Type :=
| pluginassemblies (filter : jsstring)
| plugintypes (filter : jsstring)
| sdkmessageprocessingsteps (filter : jsstring)
| plugintype_by_id (typeId : jsstring)
| sdkmessageprocessingstepimages (filter : jsstring)
| plugintracelogs (filter : jsstring) (top : Z)
| RetrieveDependenciesForDelete (ObjectId : jsstring) (ComponentType : Z).

Definition ResponseOf (r : Request) : Type :=
  match r with
  | pluginassemblies _ => ApiCollectionResponse Assembly.t
  | plugintypes _ => ApiCollectionResponse PluginType.t
  | sdkmessageprocessingsteps _ => ApiCollectionResponse Step.t
  | plugintype_by_id _ => PluginTypeExpanded
  | sdkmessageprocessingstepimages _ => ApiCollectionResponse Image.t
  | plugintracelogs _ _ => ApiCollectionResponse TraceLog.t
  | RetrieveDependenciesForDelete _ _ => DependenciesResponse
  end.

(** [PowerPlatformClient]: every request either yields the response data
    or throws ["PowerPlatform API request failed: ..."]. The [post] of
    [DependencyService] is the request [RetrieveDependenciesForDelete];
    its body is not among the sources and is part of this oracle like
    [get]. *)
Definition PowerPlatformClient : Type :=
  forall r : Request, Completion (ResponseOf r).

(** A service computation: it extends the log of issued requests and
    completes normally or abruptly. *)
Definition M (A : Type) : Type :=
  list Request -> list Request * Completion A.

Definition ret {A} (a : A) : M A := fun log => (log, Normal a).

Definition throw {A} (e : Exn) : M A := fun log => (log, Throw e).

Definition bind {A B} (m : M A) (k : A -> M B) : M B :=
  fun log =>
    match m log with
    | (log', Normal a) => k a log'
    | (log', Throw e) => (log', Throw e)
    end.

(** [try { m } catch { h }]. *)
Definition try_catch {A} (m : M A) (h : M A) : M A :=
  fun log =>
    match m log with
    | (log', Normal a) => (log', Normal a)
    | (log', Throw _) => h log'
    end.

(** A synchronous step that may throw. *)
Definition lift {A} (c : Completion A) : M A := fun log => (log, c).

(** [await this.client.get(...)] / [await this.client.post(...)]. *)
Definition request (client : PowerPlatformClient) (r : Request)
  : M (ResponseOf r) :=
  fun log => (log ++ [r], client r).

(** A call of a service method from outside: the log starts empty. *)
Definition run {A} (m : M A) : list Request * Completion A := m [].

Declare Scope service_scope.
Delimit Scope service_scope with service.
Notation "x <- m ;; k" := (bind m (fun x => k))
  (at level 100, m at next level, right associativity) : service_scope.
Open Scope service_scope.

(* ===================================================================== *)
(** ** DependencyService *)
(* ===================================================================== *)

Module DependencyService.

Record DeleteEligibility : Type :=
  { canDelete : bool; dependencies : list unknown }.

(** [result.EntityCollection?.Entities || []]. *)
Definition dependenciesOf (result : DependenciesResponse) : list unknown :=
  match EntityCollection result with
  | Some ec => match Entities ec with Some l => l | None => [] end
  | None => []
  end.

Section Service.
Variable client : PowerPlatformClient.

Definition checkDependencies (componentId : jsstring) (componentType : Z)
    : M DependenciesResponse :=
    request client (RetrieveDependenciesForDelete componentId componentType).

Definition checkDeleteEligibility (componentId : jsstring)
      (componentType : Z) : M DeleteEligibility :=
    try_catch
      (result <- checkDependencies componentId componentType ;;
       let dependencies := dependenciesOf result in
       ret {| canDelete := Nat.eqb (length dependencies) 0;
              dependencies := dependencies |})
      (ret {| canDelete := false; dependencies := [] |}).

  (** Alias of [checkDependencies]. *)
Definition checkComponentDependencies (componentId : jsstring)
      (componentType : Z) : M DependenciesResponse :=
    checkDependencies componentId componentType.
End Service.

End DependencyService.

(* ===================================================================== *)
(** ** PluginService *)
(* ===================================================================== *)

Module PluginService.

(** *** Result shapes *)

(** [{ ...step, images }]. *)
Module StepWithImages.
Record t : Type := { step : Step.t; images : list Image.t }.
End StepWithImages.

Module Validation.
Record t : Type :=
    { hasDisabledSteps : bool;
      hasAsyncSteps : bool;
      hasSyncSteps : bool;
      stepsWithoutFilteringAttributes : list jsstring;
      stepsWithoutImages : list jsstring;
      potentialIssues : list jsstring }.
End Validation.

Module AssemblyComplete.
Record t : Type :=
    { assembly : Assembly.t;
      pluginTypes : list PluginType.t;
      steps : list StepWithImages.t;
      validation : Validation.t }.
End AssemblyComplete.

Module FormattedStep.
Record t : Type :=
    { sdkmessageprocessingstepid : jsstring;
      name : jsstring;
      stage : Z;
      stageName : jsstring;
      mode : Z;
      modeName : jsstring;
      rank : Z;
      message : option jsstring;
      pluginType : option jsstring;
      assemblyName : option jsstring;
      assemblyVersion : option jsstring;
      filteringAttributes : list jsstring;
      statuscode : Z;
      enabled : bool;
      deployment : jsstring;
      impersonatingUser : option jsstring;
      hasPreImage : bool;
      hasPostImage : bool;
      images : list Image.t }.
End FormattedStep.

Record Stages : Type :=
  { preValidation : list FormattedStep.t;
    preOperation : list FormattedStep.t;
    postOperation : list FormattedStep.t }.

Record MessageGroup : Type :=
  { messageName : option jsstring; stages : Stages }.

Module EntityPipeline.
Record t : Type :=
    { entity : jsstring;
      messages : list MessageGroup;
      steps : list FormattedStep.t;
      executionOrder : list jsstring }.
End EntityPipeline.

Record Parsed : Type :=
  { hasException : bool;
    exceptionType : option jsstring;
    exceptionMessage : option jsstring;
    stackTrace : option jsstring }.

(** [{ ...log, modeName, operationTypeName, parsed }]. *)
Record ParsedLog : Type :=
  { log : TraceLog.t;
    log_modeName : jsstring;
    operationTypeName : jsstring;
    parsed : Parsed }.

Record TraceLogs : Type := { totalCount : nat; logs : list ParsedLog }.

Record TraceLogOptions : Type :=
  { opt_entityName : option jsstring;
    opt_messageName : option jsstring;
    opt_correlationId : option jsstring;
    opt_pluginStepId : option jsstring;
    opt_exceptionOnly : option bool;
    opt_hoursBack : option Z;
    opt_maxRecords : option Z }.

(** *** Literals of the source *)

Definition Update : jsstring := Eval cbv in js "Update".
Definition Delete : jsstring := Eval cbv in js "Delete".
Definition Create : jsstring := Eval cbv in js "Create".
Definition PreValidation : jsstring := Eval cbv in js "PreValidation".
Definition PreOperation : jsstring := Eval cbv in js "PreOperation".
Definition PostOperation : jsstring := Eval cbv in js "PostOperation".

(** *** The [Map] of message groups

    A JavaScript [Map] keeps its keys in insertion order and compares
    them with SameValueZero, which on [string | undefined] is [===].
    [set] on a present key replaces the value where it stands. The
    groups are objects held by reference: pushing to a bucket of the
    group read back with [get] changes the group in the map, which is
    a [map_set] at its key. *)

Definition MessageGroups : Type := list (option jsstring * MessageGroup).

Fixpoint map_has (k : option jsstring) (m : MessageGroups) : bool :=
  match m with
  | [] => false
  | (k', _) :: m' => opt_eqb k' k || map_has k m'
  end.

Fixpoint map_get (k : option jsstring) (m : MessageGroups)
  : option MessageGroup :=
  match m with
  | [] => None
  | (k', v) :: m' => if opt_eqb k' k then Some v else map_get k m'
  end.

Fixpoint map_set (k : option jsstring) (v : MessageGroup)
    (m : MessageGroups) : MessageGroups :=
  match m with
  | [] => [(k, v)]
  | (k', v') :: m' =>
      if opt_eqb k' k then (k', v) :: m' else (k', v') :: map_set k v m'
  end.

(** [Array.from(messageGroups.values())]. *)
Definition map_values (m : MessageGroups) : list MessageGroup :=
  map snd m.

Definition push_preValidation (g : MessageGroup) (s : FormattedStep.t) :=
  {| messageName := messageName g;
     stages := {| preValidation := preValidation (stages g) ++ [s];
                  preOperation := preOperation (stages g);
                  postOperation := postOperation (stages g) |} |}.

Definition push_preOperation (g : MessageGroup) (s : FormattedStep.t) :=
  {| messageName := messageName g;
     stages := {| preValidation := preValidation (stages g);
                  preOperation := preOperation (stages g) ++ [s];
                  postOperation := postOperation (stages g) |} |}.

Definition push_postOperation (g : MessageGroup) (s : FormattedStep.t) :=
  {| messageName := messageName g;
     stages := {| preValidation := preValidation (stages g);
                  preOperation := preOperation (stages g);
                  postOperation := postOperation (stages g) ++ [s] |} |}.

(** [arr.forEach(f)] with a callback that works on a state and may
    throw. *)
Fixpoint forEach {A S : Type} (f : S -> A -> Completion S) (l : list A)
    (s : S) : Completion S :=
  match l with
  | [] => Normal s
  | x :: l' =>
      match f s x with
      | Normal s' => forEach f l' s'
      | Throw e => Throw e
      end
  end.

(** *** Pure parts of the methods *)

(** [(x as { name?: string })?.name] and its siblings. *)
Definition name_of (r : option NameRef) : option jsstring :=
  match r with Some x => ref_name x | None => None end.

Definition typename_of (r : option TypeNameRef) : option jsstring :=
  match r with Some x => typename x | None => None end.

Definition fullname_of (r : option FullNameRef) : option jsstring :=
  match r with Some x => fullname x | None => None end.

(** [ids.map((id) => `${field} eq ${id}`).join(' or ')]. *)
Definition disjunction (field : string) (ids : list jsstring) : jsstring :=
  join (js " or ") (map (fun id => js field ++ js " eq " ++ id) ids).

Definition statusFilterOf (includeDisabled : bool) : jsstring :=
  if includeDisabled then [] else js " and statuscode eq 1".

(** [allImages.filter((img) => img._sdkmessageprocessingstepid_value ===
    step.sdkmessageprocessingstepid)]. *)
Definition imagesOf (allImages : list Image.t) (stepId : jsstring)
  : list Image.t :=
  filter (fun img => eqb (Image._sdkmessageprocessingstepid_value img) stepId)
         allImages.

Definition attachImages (allImages : list Image.t) (step : Step.t)
  : StepWithImages.t :=
  {| StepWithImages.step := step;
     StepWithImages.images :=
       imagesOf allImages (Step.sdkmessageprocessingstepid step) |}.

(** [msgName === 'Update' || msgName === 'Delete']. *)
Definition isUpdateOrDelete (msgName : option jsstring) : bool :=
  opt_eqb msgName (Some Update) || opt_eqb msgName (Some Delete).

(** The predicate of the first [filter] of the validation block. *)
Definition lacksFilteringAttributes (s : StepWithImages.t) : bool :=
  let msgName := name_of (Step.sdkmessageid (StepWithImages.step s)) in
  isUpdateOrDelete msgName
  && negb (opt_truthy (Step.filteringattributes (StepWithImages.step s))).

(** The predicate of the second [filter] of the validation block. *)
Definition lacksImages (s : StepWithImages.t) : bool :=
  let msgName := name_of (Step.sdkmessageid (StepWithImages.step s)) in
  Nat.eqb (length (StepWithImages.images s)) 0
  && isUpdateOrDelete msgName.

Definition filteringIssue (n : nat) : jsstring :=
  ofLength n
  ++ js " Update/Delete steps without filtering attributes (performance concern)".

Definition imagesIssue (n : nat) : jsstring :=
  ofLength n
  ++ js " Update/Delete steps without images (may need entity data)".

(** The validation block of [getPluginAssemblyComplete], with the two
    conditional pushes onto [potentialIssues]. *)
Definition validate (allSteps : list Step.t)
    (stepsWithImages : list StepWithImages.t) : Validation.t :=
  let withoutFA :=
    map (fun s => Step.name (StepWithImages.step s))
        (filter lacksFilteringAttributes stepsWithImages) in
  let withoutImages :=
    map (fun s => Step.name (StepWithImages.step s))
        (filter lacksImages stepsWithImages) in
  let potentialIssues0 : list jsstring := [] in
  let potentialIssues1 :=
    if (0 <? length withoutFA)%nat
    then potentialIssues0 ++ [filteringIssue (length withoutFA)]
    else potentialIssues0 in
  let potentialIssues2 :=
    if (0 <? length withoutImages)%nat
    then potentialIssues1 ++ [imagesIssue (length withoutImages)]
    else potentialIssues1 in
  {| Validation.hasDisabledSteps :=
       existsb (fun s => negb (Step.statuscode s =? 1)%Z) allSteps;
     Validation.hasAsyncSteps :=
       existsb (fun s => (Step.mode s =? 1)%Z) allSteps;
     Validation.hasSyncSteps :=
       existsb (fun s => (Step.mode s =? 0)%Z) allSteps;
     Validation.stepsWithoutFilteringAttributes := withoutFA;
     Validation.stepsWithoutImages := withoutImages;
     Validation.potentialIssues := potentialIssues2 |}.

(** [assemblyMap]: a [Map<string, unknown>] read with [get] only. *)
Definition AssemblyMap : Type := list (jsstring * option AssemblyRef).

(** [assemblyMap.get(step._plugintypeid_value as string)]: [undefined]
    for an absent key, and for the key [undefined], never set. *)
Fixpoint assemblyMap_get (k : option jsstring) (m : AssemblyMap)
  : option AssemblyRef :=
  match k, m with
  | Some id, (id', v) :: m' =>
      if eqb id' id then v else assemblyMap_get k m'
  | _, _ => None
  end.

(** [assemblyMap.set(typeId, v)]. *)
Fixpoint assemblyMap_set (k : jsstring) (v : option AssemblyRef)
    (m : AssemblyMap) : AssemblyMap :=
  match m with
  | [] => [(k, v)]
  | (k', v') :: m' =>
      if eqb k' k then (k', v) :: m' else (k', v') :: assemblyMap_set k v m'
  end.

(** [.filter((id) => id != null)]. *)
Fixpoint nonNull (l : list (option jsstring)) : list jsstring :=
  match l with
  | [] => []
  | Some id :: l' => id :: nonNull l'
  | None :: l' => nonNull l'
  end.

(** The callback of [steps.value.map] under "Format steps". *)
Definition formatStep (assemblyMap : AssemblyMap) (allImages : list Image.t)
    (step : Step.t) : FormattedStep.t :=
  let assembly := assemblyMap_get (Step._plugintypeid_value step) assemblyMap in
  let images := imagesOf allImages (Step.sdkmessageprocessingstepid step) in
  {| FormattedStep.sdkmessageprocessingstepid :=
       Step.sdkmessageprocessingstepid step;
     FormattedStep.name := Step.name step;
     FormattedStep.stage := Step.stage step;
     FormattedStep.stageName :=
       if (Step.stage step =? 10)%Z then PreValidation
       else if (Step.stage step =? 20)%Z then PreOperation
       else PostOperation;
     FormattedStep.mode := Step.mode step;
     FormattedStep.modeName :=
       if (Step.mode step =? 0)%Z then js "Synchronous" else js "Asynchronous";
     FormattedStep.rank := Step.rank step;
     FormattedStep.message := name_of (Step.sdkmessageid step);
     FormattedStep.pluginType := typename_of (Step.plugintypeid step);
     FormattedStep.assemblyName :=
       match assembly with Some a => assembly_name a | None => None end;
     FormattedStep.assemblyVersion :=
       match assembly with Some a => assembly_version a | None => None end;
     FormattedStep.filteringAttributes :=
       match Step.filteringattributes step with
       | Some fa => if truthy fa then split comma fa else []
       | None => []
       end;
     FormattedStep.statuscode := Step.statuscode step;
     FormattedStep.enabled := (Step.statuscode step =? 1)%Z;
     FormattedStep.deployment :=
       if (Step.supporteddeployment step =? 0)%Z then js "Server"
       else if (Step.supporteddeployment step =? 1)%Z then js "Offline"
       else js "Both";
     FormattedStep.impersonatingUser :=
       fullname_of (Step.impersonatinguserid step);
     FormattedStep.hasPreImage :=
       existsb (fun img => (Image.imagetype img =? 0)%Z
                           || (Image.imagetype img =? 2)%Z) images;
     FormattedStep.hasPostImage :=
       existsb (fun img => (Image.imagetype img =? 1)%Z
                           || (Image.imagetype img =? 2)%Z) images;
     FormattedStep.images := images |}.

Definition emptyGroup (key : option jsstring) : MessageGroup :=
  {| messageName := key;
     stages := {| preValidation := []; preOperation := [];
                  postOperation := [] |} |}.

(** The callback of [formattedSteps.forEach]. The [!] after
    [messageGroups.get(...)] asserts nothing at run time: on
    [undefined] the read of [msg.stages] throws a TypeError. *)
Definition groupStep (messageGroups : MessageGroups)
    (step : FormattedStep.t) : Completion MessageGroups :=
  let key := FormattedStep.message step in
  let messageGroups :=
    if negb (map_has key messageGroups)
    then map_set key (emptyGroup key) messageGroups
    else messageGroups in
  match map_get key messageGroups with
  | None =>
      Throw (TypeError
        (js "Cannot read properties of undefined (reading 'stages')"))
  | Some msg =>
      Normal
        (if (FormattedStep.stage step =? 10)%Z
         then map_set key (push_preValidation msg step) messageGroups
         else if (FormattedStep.stage step =? 20)%Z
         then map_set key (push_preOperation msg step) messageGroups
         else if (FormattedStep.stage step =? 40)%Z
         then map_set key (push_postOperation msg step) messageGroups
         else messageGroups)
  end.

(** [types[operationType] || 'Unknown']. *)
Definition getOperationTypeName (operationType : Z) : jsstring :=
  match operationType with
  | 0 => js "None"
  | 1 => js "Create"
  | 2 => js "Update"
  | 3 => js "Delete"
  | 4 => js "Retrieve"
  | 5 => js "RetrieveMultiple"
  | 6 => js "Associate"
  | 7 => js "Disassociate"
  | _ => js "Unknown"
  end%Z.

(** The longest prefix without a colon, and what follows it. *)
Fixpoint spanNotColon (s : jsstring) : jsstring * jsstring :=
  match s with
  | [] => ([], [])
  | x :: s' =>
      if N.eqb x colon then ([], s)
      else let (run, rest) := spanNotColon s' in (x :: run, rest)
  end.

(** [exceptionDetails.match(/^([^:]+):/)], group 1 of the match. The
    pattern is anchored at the start of the text (no [m] flag);
    [[^:]+] takes one or more units other than a colon, line
    terminators included, and can only be followed by a colon when it
    takes all of them, so the match is the longest colon-free prefix,
    if it is not empty and a colon follows it. *)
Definition matchTypePattern (exceptionDetails : jsstring)
  : option jsstring :=
  match spanNotColon exceptionDetails with
  | (x :: run, _ :: _) => Some (x :: run)
  | _ => None
  end.

Definition extractExceptionType (exceptionDetails : jsstring)
  : option jsstring :=
  match matchTypePattern exceptionDetails with
  | Some group1 => Some (trim group1)
  | None => None
  end.

Definition extractExceptionMessage (exceptionDetails : jsstring)
  : option jsstring :=
  let lines := split newline exceptionDetails in
  match lines with
  | firstLine :: _ =>
      let colonIndex := indexOf colon firstLine in
      if (0 <? colonIndex)%Z
      then Some (trim (substring (colonIndex + 1) firstLine))
      else None
  | [] => None
  end.

(** The callback of [logs.value.map] under "Parse logs". *)
Definition parseLog (l : TraceLog.t) : ParsedLog :=
  {| log := l;
     log_modeName :=
       if (TraceLog.mode l =? 0)%Z then js "Synchronous"
       else js "Asynchronous";
     operationTypeName := getOperationTypeName (TraceLog.operationtype l);
     parsed :=
       {| hasException := opt_truthy (TraceLog.exceptiondetails l);
          exceptionType :=
            match TraceLog.exceptiondetails l with
            | Some d => if truthy d then extractExceptionType d else None
            | None => None
            end;
          exceptionMessage :=
            match TraceLog.exceptiondetails l with
            | Some d => if truthy d then extractExceptionMessage d else None
            | None => None
            end;
          stackTrace := TraceLog.exceptiondetails l |} |}.

(** [if (x) filters.push(`${field} eq '${x}'`)]. *)
Definition pushQuoted (field : string) (x : option jsstring)
    (filters : list jsstring) : list jsstring :=
  match x with
  | Some v =>
      if truthy v then filters ++ [js field ++ js " eq '" ++ v ++ js "'"]
      else filters
  | None => filters
  end.

(** *** The queries, by the URL each method builds *)

(** [pluginassemblies?$filter=name eq '${assemblyName}'&...]. *)
Definition assemblyByName (assemblyName : jsstring) : Request :=
  pluginassemblies (js "name eq '" ++ assemblyName ++ js "'").

(** [plugintypes?$filter=_pluginassemblyid_value eq ${assemblyId}&...]. *)
Definition typesOfAssembly (assemblyId : jsstring) : Request :=
  plugintypes (js "_pluginassemblyid_value eq " ++ assemblyId).

(** [sdkmessageprocessingsteps?$filter=(${typeFilter})${statusFilter}
    &...&$orderby=stage,rank]. *)
Definition stepsOfTypes (pluginTypeIds : list jsstring)
    (includeDisabled : bool) : Request :=
  let statusFilter := statusFilterOf includeDisabled in
  let typeFilter := disjunction "_plugintypeid_value" pluginTypeIds in
  sdkmessageprocessingsteps (js "(" ++ typeFilter ++ js ")" ++ statusFilter).

(** [sdkmessageprocessingsteps?$filter=sdkmessagefilterid/
    primaryobjecttypecode eq '${entityName}'${statusFilter}${msgFilter}
    &...&$orderby=stage,rank]. *)
Definition stepsOfEntity (entityName : jsstring)
    (messageFilter : option jsstring) (includeDisabled : bool) : Request :=
  let statusFilter := statusFilterOf includeDisabled in
  let msgFilter :=
    match messageFilter with
    | Some m =>
        if truthy m
        then js " and sdkmessageid/name eq '" ++ m ++ js "'"
        else []
    | None => []
    end in
  sdkmessageprocessingsteps
    (js "sdkmessagefilterid/primaryobjecttypecode eq '" ++ entityName
     ++ js "'" ++ statusFilter ++ msgFilter).

(** [sdkmessageprocessingstepimages?$filter=${imageFilter}&...]. *)
Definition imagesOfSteps (stepIds : list jsstring) : Request :=
  let imageFilter := disjunction "_sdkmessageprocessingstepid_value" stepIds in
  sdkmessageprocessingstepimages imageFilter.

(** *** The methods *)

Section Service.
Variable client : PowerPlatformClient.

  (** [new Date()], moved back by [hoursBack] hours with [setHours],
      as [toISOString()] prints it; [None] when the date so reached is
      no valid date, where [toISOString()] throws a [RangeError]. The
      clock and the time zone are outside the model. *)
Variable dateThresholdISO : Z -> option jsstring.

  (** The image query both methods share: issued only for a non-empty
      id list. *)
Definition fetchImages (stepIds : list jsstring) : M (list Image.t) :=
    if (0 <? length stepIds)%nat then
      images <- request client (imagesOfSteps stepIds) ;;
      ret (value images)
    else ret [].

Definition getPluginAssemblyComplete (assemblyName : jsstring)
      (includeDisabled : bool) : M AssemblyComplete.t :=
    assemblies <- request client (assemblyByName assemblyName) ;;
    (* [!assemblies.value || assemblies.value.length === 0]: an array
       is truthy, the test is on the length. *)
    match value assemblies with
    | [] =>
        throw (Error (js "Plugin assembly '" ++ assemblyName
                      ++ js "' not found"))
    | assembly :: _ =>
        let assemblyId := Assembly.pluginassemblyid assembly in
        pluginTypes <- request client (typesOfAssembly assemblyId) ;;
        let pluginTypeIds :=
          map PluginType.plugintypeid (value pluginTypes) in
        allSteps <-
          (if (0 <? length pluginTypeIds)%nat then
             steps <-
               request client (stepsOfTypes pluginTypeIds includeDisabled) ;;
             ret (value steps)
           else ret []) ;;
        let stepIds := map Step.sdkmessageprocessingstepid allSteps in
        allImages <- fetchImages stepIds ;;
        let stepsWithImages := map (attachImages allImages) allSteps in
        let validation := validate allSteps stepsWithImages in
        ret {| AssemblyComplete.assembly := assembly;
               AssemblyComplete.pluginTypes := value pluginTypes;
               AssemblyComplete.steps := stepsWithImages;
               AssemblyComplete.validation := validation |}
    end.

  (** [for (const typeId of pluginTypeIds) { ... assemblyMap.set(...) }]:
      one request per id, in order; the first failure ends the loop. *)
Fixpoint fetchAssemblies (pluginTypeIds : list jsstring)
      (assemblyMap : AssemblyMap) : M AssemblyMap :=
    match pluginTypeIds with
    | [] => ret assemblyMap
    | typeId :: rest =>
        pluginType <- request client (plugintype_by_id typeId) ;;
        fetchAssemblies rest
          (assemblyMap_set typeId (pluginassemblyid pluginType) assemblyMap)
    end.

Definition getEntityPluginPipeline (entityName : jsstring)
      (messageFilter : option jsstring) (includeDisabled : bool)
    : M EntityPipeline.t :=
    steps <-
      request client
        (stepsOfEntity entityName messageFilter includeDisabled) ;;
    let pluginTypeIds :=
      dedup [] (nonNull (map Step._plugintypeid_value (value steps))) in
    assemblyMap <- fetchAssemblies pluginTypeIds [] ;;
    let stepIds := map Step.sdkmessageprocessingstepid (value steps) in
    allImages <- fetchImages stepIds ;;
    let formattedSteps := map (formatStep assemblyMap allImages) (value steps) in
    messageGroups <- lift (forEach groupStep formattedSteps []) ;;
    ret {| EntityPipeline.entity := entityName;
           EntityPipeline.messages := map_values messageGroups;
           EntityPipeline.steps := formattedSteps;
           EntityPipeline.executionOrder :=
             map FormattedStep.name formattedSteps |}.

(** [hoursBack = 24] of the destructuring. *)
Definition hoursBackOf (options : TraceLogOptions) : Z :=
  match opt_hoursBack options with Some h => h | None => 24%Z end.

(** The trace-log query for a date threshold printed as [dateThreshold]:
    the conjunction of the time bound and of one clause per filter
    supplied, and the [$top] value. *)
Definition traceLogQuery (dateThreshold : jsstring)
    (options : TraceLogOptions) : Request :=
  let exceptionOnly :=
    match opt_exceptionOnly options with Some b => b | None => false end in
  let maxRecords :=
    match opt_maxRecords options with Some n => n | None => 50%Z end in
  let filters := [js "createdon gt " ++ dateThreshold] in
  let filters := pushQuoted "primaryentity" (opt_entityName options) filters in
  let filters := pushQuoted "messagename" (opt_messageName options) filters in
  let filters :=
    pushQuoted "correlationid" (opt_correlationId options) filters in
  let filters :=
    match opt_pluginStepId options with
    | Some id =>
        if truthy id
        then filters ++ [js "_sdkmessageprocessingstepid_value eq " ++ id]
        else filters
    | None => filters
    end in
  let filters :=
    if exceptionOnly then filters ++ [js "exceptiondetails ne null"]
    else filters in
  let filterString := join (js " and ") filters in
  plugintracelogs filterString maxRecords.

Definition getPluginTraceLogs (options : TraceLogOptions) : M TraceLogs :=
  match dateThresholdISO (hoursBackOf options) with
  | None => throw (RangeError (js "Invalid time value"))
  | Some dateThreshold =>
      logs <- request client (traceLogQuery dateThreshold options) ;;
      let parsedLogs := map parseLog (value logs) in
      ret {| totalCount := length parsedLogs; logs := parsedLogs |}
  end.
End Service.

End PluginService.

(* ===================================================================== *)
(** ** The specification's reading of the trace-log parser *)
(* ===================================================================== *)

Module Spec.

(** The text up to its first line feed. *)
Fixpoint firstLine (text : jsstring) : jsstring :=
  match text with
  | [] => []
  | x :: text' => if N.eqb x newline then [] else x :: firstLine text'
  end.

(** Position of the first colon, if there is one. *)
Fixpoint firstColon (s : jsstring) : option nat :=
  match s with
  | [] => None
  | x :: s' =>
      if N.eqb x colon then Some 0
      else match firstColon s' with
           | Some i => Some (S i)
           | None => None
           end
  end.

(** "substring before the first colon on the first line of the
    exception text, trimmed (null if no colon found)". *)
Definition exceptionType (text : jsstring) : option jsstring :=
  match firstColon (firstLine text) with
  | Some i => Some (trim (firstn i (firstLine text)))
  | None => None
  end.

(** "substring after that colon on the first line, trimmed (null if
    absent)". *)
Definition exceptionMessage (text : jsstring) : option jsstring :=
  match firstColon (firstLine text) with
  | Some i => Some (trim (skipn (S i) (firstLine text)))
  | None => None
  end.

End Spec.

(* ===================================================================== *)
(** ** Reading the results *)
(* ===================================================================== *)

Module Report.
Import PluginService.

(** The name a step is reported under. *)
Definition nameOf (s : StepWithImages.t) : jsstring :=
  Step.name (StepWithImages.step s).

(** [(s.sdkmessageid as { name?: string } | undefined)?.name]. *)
Definition messageOf (s : StepWithImages.t) : option jsstring :=
  name_of (Step.sdkmessageid (StepWithImages.step s)).

(** The filtering-attribute list of a step, parsed from the
    comma-joined text the way "Format steps" does. *)
Definition filteringAttributesOf (s : StepWithImages.t) : list jsstring :=
  match Step.filteringattributes (StepWithImages.step s) with
  | Some fa => if truthy fa then split comma fa else []
  | None => []
  end.

(** The two lists, as functions of the steps returned. *)
Definition reportedWithoutFilteringAttributes (l : list StepWithImages.t)
  : list jsstring :=
  Validation.stepsWithoutFilteringAttributes
    (validate (map StepWithImages.step l) l).

Definition reportedWithoutImages (l : list StepWithImages.t)
  : list jsstring :=
  Validation.stepsWithoutImages (validate (map StepWithImages.step l) l).

Definition onUpdateOrDelete (s : StepWithImages.t) : Prop :=
  messageOf s = Some Update \/ messageOf s = Some Delete.

(** A step the grouping loop puts in a bucket: its stage is exactly
    10, 20 or 40. *)
Definition placed (s : FormattedStep.t) : bool :=
  (FormattedStep.stage s =? 10)%Z || (FormattedStep.stage s =? 20)%Z
  || (FormattedStep.stage s =? 40)%Z.

(** The bucket of a group for a stage value. *)
Definition bucketAt (stage : Z) (g : MessageGroup) : list FormattedStep.t :=
  if (stage =? 10)%Z then preValidation (stages g)
  else if (stage =? 20)%Z then preOperation (stages g)
  else if (stage =? 40)%Z then postOperation (stages g)
  else [].

Definition inSomeBucket (s : FormattedStep.t) (g : MessageGroup) : Prop :=
  In s (preValidation (stages g)) \/ In s (preOperation (stages g))
  \/ In s (postOperation (stages g)).

(** Steps held by one group, and by all the groups of a pipeline. *)
Definition bucketCount (g : MessageGroup) : nat :=
  length (preValidation (stages g)) + length (preOperation (stages g))
  + length (postOperation (stages g)).

Definition bucketTotal (groups : list MessageGroup) : nat :=
  list_sum (map bucketCount groups).


(** A group holds, in each bucket, steps of its message at the stage
    of the bucket. *)
Definition groupSound (kv : option jsstring * MessageGroup) : Prop :=
  messageName (snd kv) = fst kv
  /\ Forall (fun s => FormattedStep.stage s = 10%Z
                      /\ FormattedStep.message s = fst kv)
            (preValidation (stages (snd kv)))
  /\ Forall (fun s => FormattedStep.stage s = 20%Z
                      /\ FormattedStep.message s = fst kv)
            (preOperation (stages (snd kv)))
  /\ Forall (fun s => FormattedStep.stage s = 40%Z
                      /\ FormattedStep.message s = fst kv)
            (postOperation (stages (snd kv))).

(** What the grouping loop has reached once the steps [done] went
    through it. *)
Definition grouped (done : list FormattedStep.t) (g : MessageGroups) : Prop :=
  Forall groupSound g
  /\ bucketTotal (map_values g) = length (filter placed done)
  /\ forall s, In s done ->
       exists grp, map_get (FormattedStep.message s) g = Some grp
                   /\ (placed s = true ->
                       In s (bucketAt (FormattedStep.stage s) grp)).

(** The report over no step. *)
Definition emptyValidation : Validation.t :=
  {| Validation.hasDisabledSteps := false;
     Validation.hasAsyncSteps := false;
     Validation.hasSyncSteps := false;
     Validation.stepsWithoutFilteringAttributes := [];
     Validation.stepsWithoutImages := [];
     Validation.potentialIssues := [] |}.

End Report.

(* ===================================================================== *)
(** ** Scenarios *)
(* ===================================================================== *)

Module Scenarios.
Import PluginService.

(** A remote platform with canned answers; [None] makes the request
    fail. *)
Record Canned : Type :=
  { canned_assemblies : option (list Assembly.t);
    canned_pluginTypes : option (list PluginType.t);
    canned_steps : option (list Step.t);
    canned_assemblyRef : option (option AssemblyRef);
    canned_images : option (list Image.t);
    canned_logs : option (list TraceLog.t);
    canned_dependencies : option DependenciesResponse }.

Definition failed : Exn :=
  Error (js "PowerPlatform API request failed: Error: Network Error").

Definition answer {A B : Type} (f : A -> B) (a : option A) : Completion B :=
  match a with Some x => Normal (f x) | None => Throw failed end.

Definition mockClient (c : Canned) : PowerPlatformClient :=
  fun r =>
    match r return Completion (ResponseOf r) with
    | pluginassemblies _ =>
        answer (fun l => {| value := l |}) (canned_assemblies c)
    | plugintypes _ =>
        answer (fun l => {| value := l |}) (canned_pluginTypes c)
    | sdkmessageprocessingsteps _ =>
        answer (fun l => {| value := l |}) (canned_steps c)
    | plugintype_by_id _ =>
        answer (fun a => {| pluginassemblyid := a |}) (canned_assemblyRef c)
    | sdkmessageprocessingstepimages _ =>
        answer (fun l => {| value := l |}) (canned_images c)
    | plugintracelogs _ _ =>
        answer (fun l => {| value := l |}) (canned_logs c)
    | RetrieveDependenciesForDelete _ _ =>
        answer (fun d => d) (canned_dependencies c)
    end.

Definition offline : Canned :=
  {| canned_assemblies := None; canned_pluginTypes := None;
     canned_steps := None; canned_assemblyRef := None;
     canned_images := None; canned_logs := None;
     canned_dependencies := None |}.

Definition withDependencies (d : DependenciesResponse) : Canned :=
  {| canned_assemblies := None; canned_pluginTypes := None;
     canned_steps := None; canned_assemblyRef := None;
     canned_images := None; canned_logs := None;
     canned_dependencies := Some d |}.

Definition guid1 : jsstring := js "6f1c2e0a-0000-0000-0000-000000000001".

Definition mkStep (id name : string) (stage rank : Z)
    (message : option jsstring) (filtering : option jsstring) : Step.t :=
  {| Step.sdkmessageprocessingstepid := js id;
     Step.name := js name;
     Step.stage := stage;
     Step.mode := 0;
     Step.rank := rank;
     Step.statuscode := 1;
     Step.filteringattributes := filtering;
     Step.supporteddeployment := 0;
     Step.sdkmessageid :=
       match message with
       | Some m => Some {| ref_name := Some m |}
       | None => None
       end;
     Step.plugintypeid := Some {| typename := Some (js "Contoso.Plugin") |};
     Step.impersonatinguserid := None;
     Step._plugintypeid_value := Some (js "pt-1");
     Step.other := [] |}.

Definition contoso : Assembly.t :=
  {| Assembly.pluginassemblyid := js "asm-1";
     Assembly.other := [(js "name", JString (js "Contoso.Plugins"))] |}.

Definition contosoType : PluginType.t :=
  {| PluginType.plugintypeid := js "pt-1"; PluginType.other := [] |}.

(** A platform serving the given steps and images. *)
Definition serving (steps : list Step.t) (images : list Image.t) : Canned :=
  {| canned_assemblies := Some [contoso];
     canned_pluginTypes := Some [contosoType];
     canned_steps := Some steps;
     canned_assemblyRef :=
       Some (Some {| assembly_name := Some (js "Contoso.Plugins");
                     assembly_version := Some (js "1.0.0.0") |});
     canned_images := Some images;
     canned_logs := Some [];
     canned_dependencies := Some {| EntityCollection := None |} |}.

Definition servingLogs (logs : list TraceLog.t) : Canned :=
  {| canned_assemblies := None; canned_pluginTypes := None;
     canned_steps := None; canned_assemblyRef := None;
     canned_images := None; canned_logs := Some logs;
     canned_dependencies := None |}.

Definition account : jsstring := js "account".

Definition contosoName : jsstring := js "Contoso.Plugins".

(** The scenario of the specification: a Create step (stage 20, rank 1,
    no images) and an Update step (stage 20, rank 2, no filtering
    attributes, no images). *)
Definition contosoSteps : list Step.t :=
  [ mkStep "step-1" "Contoso.Plugin: Create of account" 20 1
      (Some Create) None;
    mkStep "step-2" "Contoso.Plugin: Update of account" 20 2
      (Some Update) None ].

(** Two steps registered under one name, on Create and on Update. *)
Definition sameNameSteps : list Step.t :=
  [ mkStep "step-1" "Account sync" 20 1 (Some Create) None;
    mkStep "step-2" "Account sync" 20 2 (Some Update) None ].

(** Steps of "account" as the remote orders them: Update at stages 10
    and 20, Create at stage 40. *)
Definition accountSteps : list Step.t :=
  [ mkStep "step-1" "Validate update" 10 1 (Some Update) None;
    mkStep "step-2" "Prepare update" 20 1 (Some Update) None;
    mkStep "step-3" "After create" 40 1 (Some Create) None ].

(** The same with a step registered at stage 30, the main operation. *)
Definition mainOperationSteps : list Step.t :=
  [ mkStep "step-1" "Validate update" 10 1 (Some Update) None;
    mkStep "step-2" "Main operation" 30 1 (Some Update) None;
    mkStep "step-3" "After create" 40 1 (Some Create) None ].

(** A step whose message did not resolve. *)
Definition unresolvedSteps : list Step.t :=
  [ mkStep "step-1" "Orphaned step" 20 1 None None ].

(** A platform with an assembly and a plugin type but no step, whose
    image query fails. *)
Definition noSteps : Canned :=
  {| canned_assemblies := Some [contoso];
     canned_pluginTypes := Some [contosoType];
     canned_steps := Some [];
     canned_assemblyRef := None;
     canned_images := None;
     canned_logs := None;
     canned_dependencies := None |}.

(** A fixed clock for the trace-log query. *)
Definition clock (hoursBack : Z) : option jsstring :=
  Some (js "2026-01-01T00:00:00.000Z").

Definition noOptions : TraceLogOptions :=
  {| opt_entityName := None; opt_messageName := None;
     opt_correlationId := None; opt_pluginStepId := None;
     opt_exceptionOnly := None; opt_hoursBack := None;
     opt_maxRecords := None |}.

Definition mkLog (exceptiondetails : option jsstring) : TraceLog.t :=
  {| TraceLog.mode := 0;
     TraceLog.operationtype := 2;
     TraceLog.exceptiondetails := exceptiondetails;
     TraceLog.other := [] |}.

(** The exception text of the specification's scenario. *)
Definition nullReference : jsstring :=
  js "System.NullReferenceException: Object reference not set"
  ++ [newline] ++ js "   at Contoso.Plugin.Execute()".

(** A text opening with a colon. *)
Definition leadingColon : jsstring := js ":abc".

(** A text whose first colon comes after the first line. *)
Definition colonOnSecondLine : jsstring :=
  js "Unexpected fault" ++ [newline] ++ js "System.Exception: boom".

End Scenarios.

(* ===================================================================== *)
(** ** The grouped view, as a function of the steps *)
(* ===================================================================== *)

Module Grouping.
Import PluginService.

(** The distinct values of a list, in the order of their first
    occurrence. *)
Fixpoint firsts (l : list (option jsstring)) : list (option jsstring) :=
  match l with
  | [] => []
  | k :: l' => k :: filter (fun k' => negb (opt_eqb k k')) (firsts l')
  end.

(** The steps of one message at one stage, in the order of the list. *)
Definition bucketOf (k : option jsstring) (stage : Z)
    (steps : list FormattedStep.t) : list FormattedStep.t :=
  filter (fun s => opt_eqb (FormattedStep.message s) k
                   && (FormattedStep.stage s =? stage)%Z) steps.

Definition groupOf (steps : list FormattedStep.t) (k : option jsstring)
  : MessageGroup :=
  {| messageName := k;
     stages := {| preValidation := bucketOf k 10 steps;
                  preOperation := bucketOf k 20 steps;
                  postOperation := bucketOf k 40 steps |} |}.

Definition groupsOf (steps : list FormattedStep.t) : list MessageGroup :=
  map (groupOf steps) (firsts (map FormattedStep.message steps)).

(** The plugin types looked up for a list of fetched steps: the
    [pluginTypeIds] of [getEntityPluginPipeline]. *)
Definition lookupsOf (steps : list Step.t) : list jsstring :=
  dedup [] (nonNull (map Step._plugintypeid_value steps)).

(** The image query issued for a list of fetched steps, if any. *)
Definition imageQueryOf (steps : list Step.t) : list Request :=
  match steps with
  | [] => []
  | _ :: _ => [imagesOfSteps (map Step.sdkmessageprocessingstepid steps)]
  end.

(** A map holding, for each key of a list, the group a function
    gives. *)
Definition keyed (f : option jsstring -> MessageGroup)
    (ks : list (option jsstring)) : MessageGroups :=
  map (fun k => (k, f k)) ks.

End Grouping.

(* ===================================================================== *)
(** ** Further scenarios *)
(* ===================================================================== *)

Module MoreScenarios.
Import PluginService Scenarios.

(** A platform where no assembly bears the name asked for. *)
Definition noAssembly : Canned :=
  {| canned_assemblies := Some [];
     canned_pluginTypes := None;
     canned_steps := None;
     canned_assemblyRef := None;
     canned_images := None;
     canned_logs := None;
     canned_dependencies := None |}.

Definition mkImage (id stepId : string) (imagetype : Z) : Image.t :=
  {| Image.sdkmessageprocessingstepimageid := js id;
     Image.name := js "PreImage";
     Image.imagetype := imagetype;
     Image._sdkmessageprocessingstepid_value := js stepId;
     Image.other := [] |}.

(** An image of the Update step of [contosoSteps], and one of a step
    that was not fetched. *)
Definition contosoImages : list Image.t :=
  [ mkImage "image-1" "step-2" 0; mkImage "image-2" "step-9" 1 ].

End MoreScenarios.

(* ===================================================================== *)
(** ** Shapes of extracted texts *)
(* ===================================================================== *)

Module Shapes.

(** A text that neither opens nor ends with a white-space unit. *)
Definition noOuterWhiteSpace (s : jsstring) : Prop :=
  (forall c rest, s = c :: rest -> isWhiteSpace c = false)
  /\ (forall init c, s = init ++ [c] -> isWhiteSpace c = false).

End Shapes.

(* ===================================================================== *)
(** ** PowerPlatformClient: the token cache and [get] *)
(* ===================================================================== *)

(** The client itself, which the services above take as an oracle. Its
    two collaborators are oracles here: the MSAL client
    ([acquireTokenByClientCredential]) and [axios]. [Date.now()] is the
    argument [currentTime] of each call. [console.error] is left out. *)
Module Client.

(** A thrown value: an [Error] object, by its name and message. *)
Record JsError : Type := { error_name : jsstring; error_message : jsstring }.

(** [new Error(message)]. *)
Definition newError (message : jsstring) : JsError :=
  {| error_name := js "Error"; error_message := message |}.

(** [`${error}`]: [Error.prototype.toString]. *)
Definition errorToString (e : JsError) : jsstring :=
  match error_name e, error_message e with
  | [], message => message
  | name, [] => name
  | name, message => name ++ js ": " ++ message
  end.

Inductive Outcome (A : Type) : Type :=
| Returns (a : A)
| Raises (e : JsError).

Arguments Returns {A} a.
Arguments Raises {A} e.

Record PowerPlatformConfig : Type :=
  { organizationUrl : jsstring;
    clientId : jsstring;
    clientSecret : jsstring;
    tenantId : jsstring }.

(** What MSAL resolves with: [AuthenticationResult | null], of which
    the client reads the token and the expiry (a [Date], here its
    [getTime()]). *)
Record AuthenticationResult : Type :=
  { result_accessToken : option jsstring;
    expiresOn : option Z }.

(** The call [axios({ method, url, headers })]. *)
Record HttpRequest : Type :=
  { http_method : jsstring;
    url : jsstring;
    headers : list (jsstring * jsstring) }.

(** The private fields of the client, and what it has asked of its
    collaborators so far. *)
Record State : Type :=
  { accessToken : option jsstring;
    tokenExpirationTime : Z;
    acquisitions : nat;
    sent : list HttpRequest }.

(** [private accessToken: string | null = null;
    private tokenExpirationTime: number = 0]. *)
Definition initial : State :=
  {| accessToken := None; tokenExpirationTime := 0;
     acquisitions := 0; sent := [] |}.

Section Client.
Variable config : PowerPlatformConfig.

(** The answer of MSAL to the n-th acquisition, asked for the scope
    [`${organizationUrl}/.default`]. *)
Variable acquireTokenByClientCredential :
  nat -> Outcome (option AuthenticationResult).

(** The [response.data] of axios, or what it throws. *)
Variable axios : HttpRequest -> Outcome unknown.

(** The [try] block of [getAccessToken], up to its [throw] or
    [return]. *)
Definition acquire (st : State) : State * Outcome jsstring :=
  let st1 := {| accessToken := accessToken st;
                tokenExpirationTime := tokenExpirationTime st;
                acquisitions := S (acquisitions st);
                sent := sent st |} in
  match acquireTokenByClientCredential (acquisitions st) with
  | Raises e => (st1, Raises e)
  | Returns None =>
      (st1, Raises (newError (js "Failed to acquire access token")))
  | Returns (Some result) =>
      match result_accessToken result with
      | Some token =>
          if truthy token then
            ( {| accessToken := Some token;
                 tokenExpirationTime :=
                   match expiresOn result with
                   | Some time => (time - 5 * 60 * 1000)%Z
                   | None => tokenExpirationTime st
                   end;
                 acquisitions := S (acquisitions st);
                 sent := sent st |},
              Returns token )
          else (st1, Raises (newError (js "Failed to acquire access token")))
      | None =>
          (st1, Raises (newError (js "Failed to acquire access token")))
      end
  end.

Definition getAccessToken (currentTime : Z) (st : State)
  : State * Outcome jsstring :=
  let cached :=
    match accessToken st with
    | Some token =>
        if truthy token && (currentTime <? tokenExpirationTime st)%Z
        then Some token else None
    | None => None
    end in
  match cached with
  | Some token => (st, Returns token)
  | None =>
      match acquire st with
      | (st', Returns token) => (st', Returns token)
      | (st', Raises _) => (st', Raises (newError (js "Authentication failed")))
      end
  end.

Definition requestFor (endpoint token : jsstring) : HttpRequest :=
  {| http_method := js "GET";
     url := organizationUrl config ++ js "/" ++ endpoint;
     headers :=
       [ (js "Authorization", js "Bearer " ++ token);
         (js "Accept", js "application/json");
         (js "OData-MaxVersion", js "4.0");
         (js "OData-Version", js "4.0") ] |}.

Definition failure (error : JsError) : JsError :=
  newError (js "PowerPlatform API request failed: " ++ errorToString error).

Definition get (currentTime : Z) (endpoint : jsstring) (st : State)
  : State * Outcome unknown :=
  match getAccessToken currentTime st with
  | (st1, Raises error) => (st1, Raises (failure error))
  | (st1, Returns token) =>
      let st2 := {| accessToken := accessToken st1;
                    tokenExpirationTime := tokenExpirationTime st1;
                    acquisitions := acquisitions st1;
                    sent := sent st1 ++ [requestFor endpoint token] |} in
      match axios (requestFor endpoint token) with
      | Returns data => (st2, Returns data)
      | Raises error => (st2, Raises (failure error))
      end
  end.

End Client.

End Client.

(* ===================================================================== *)
(** ** index.ts: configuration and the lazily created client *)
(* ===================================================================== *)

Module Index.
Import Client.

(** The four variables read from [process.env]. *)
Record Env : Type :=
  { POWERPLATFORM_URL : option jsstring;
    POWERPLATFORM_CLIENT_ID : option jsstring;
    POWERPLATFORM_CLIENT_SECRET : option jsstring;
    POWERPLATFORM_TENANT_ID : option jsstring }.

(** [process.env.X || ""]. *)
Definition orEmpty (v : option jsstring) : jsstring :=
  match v with
  | Some s => if truthy s then s else []
  | None => []
  end.

Definition POWERPLATFORM_CONFIG (env : Env) : PowerPlatformConfig :=
  {| organizationUrl := orEmpty (POWERPLATFORM_URL env);
     clientId := orEmpty (POWERPLATFORM_CLIENT_ID env);
     clientSecret := orEmpty (POWERPLATFORM_CLIENT_SECRET env);
     tenantId := orEmpty (POWERPLATFORM_TENANT_ID env) |}.

(** The module-level variable [powerPlatformClient]: [null], or the
    client, by its private state. *)
Definition Server : Type := option State.

(** [if (!value) missingConfig.push(key)]. *)
Definition pushIfMissing (value : jsstring) (key : string)
    (missingConfig : list jsstring) : list jsstring :=
  if truthy value then missingConfig else missingConfig ++ [js key].

Definition missingConfigOf (config : PowerPlatformConfig) : list jsstring :=
  let missingConfig := [] in
  let missingConfig :=
    pushIfMissing (organizationUrl config) "organizationUrl" missingConfig in
  let missingConfig :=
    pushIfMissing (clientId config) "clientId" missingConfig in
  let missingConfig :=
    pushIfMissing (clientSecret config) "clientSecret" missingConfig in
  pushIfMissing (tenantId config) "tenantId" missingConfig.

Definition getClient (env : Env) (powerPlatformClient : Server)
  : Server * Outcome unit :=
  match powerPlatformClient with
  | Some _ => (powerPlatformClient, Returns tt)
  | None =>
      let missingConfig := missingConfigOf (POWERPLATFORM_CONFIG env) in
      if (0 <? length missingConfig)%nat then
        ( None,
          Raises (newError
                    (js "Missing PowerPlatform configuration: "
                     ++ join (js ", ") missingConfig
                     ++ js ". Set these in environment variables.")) )
      else (Some initial, Returns tt)
  end.

End Index.

(* ===================================================================== *)
(** ** Tool handlers over the services *)
(* ===================================================================== *)

(** The handlers of [check-delete-eligibility] and
    [get-plugin-trace-logs]. The service getter of the context is the
    completion it ends with: the service (over its client) or the
    exception of [getClient]. [JSON.stringify(x, null, 2)] is a
    parameter. *)
Module Tools.
Import PluginService.

(** [try { m } catch (error) { h(error) }]. *)
Definition try_catch_error {A : Type} (m : M A) (h : Exn -> M A) : M A :=
  fun log =>
    match m log with
    | (log', Normal a) => (log', Normal a)
    | (log', Throw e) => h e log'
    end.

(** [error.message]. *)
Definition messageOfError (e : Exn) : jsstring :=
  match e with
  | Error message => message
  | TypeError message => message
  | RangeError message => message
  end.

(** What a handler returns: [structuredContent], absent on the failure
    path, and the texts of [content]. *)
Record ToolResult (S : Type) : Type :=
  { structuredContent : option S; content : list jsstring }.

(** [{ componentId, componentType, ...result }]. *)
Record EligibilityContent : Type :=
  { componentId : jsstring;
    componentType : Z;
    canDelete : bool;
    dependencies : list unknown }.

Definition checkMark : jsstring := [10003%N].
Definition crossMark : jsstring := [10007%N].

Definition statusTextOf (result : DependencyService.DeleteEligibility)
  : jsstring :=
  if DependencyService.canDelete result
  then checkMark
       ++ js " Component can be safely deleted (no dependencies found)"
  else crossMark ++ js " Component cannot be deleted ("
       ++ ofLength (length (DependencyService.dependencies result))
       ++ js " dependencies found)".

Section Handlers.
(** [`${componentType}`]: the string form the language gives the
    number. *)
Variable numberToString : Z -> jsstring.
Variable stringifyDependencies : list unknown -> jsstring.
Variable stringifyLogs : list ParsedLog -> jsstring.
Variable dateThresholdISO : Z -> option jsstring.

Definition checkDeleteEligibilityTool
    (getDependencyService : Completion PowerPlatformClient)
    (id : jsstring) (type : Z) : M (ToolResult EligibilityContent) :=
  try_catch_error
    (service <- lift getDependencyService ;;
     result <- DependencyService.checkDeleteEligibility service id type ;;
     let statusText := statusTextOf result in
     ret {| structuredContent :=
              Some {| componentId := id;
                      componentType := type;
                      canDelete := DependencyService.canDelete result;
                      dependencies :=
                        DependencyService.dependencies result |};
            content :=
              [ js "Delete eligibility for component '" ++ id
                ++ js "' (type " ++ numberToString type ++ js "):"
                ++ [newline; newline] ++ statusText
                ++ [newline; newline] ++ js "Dependencies:" ++ [newline]
                ++ stringifyDependencies
                     (DependencyService.dependencies result) ] |})
    (fun error =>
       ret {| structuredContent := None;
              content :=
                [ js "Failed to check delete eligibility: "
                  ++ messageOfError error ] |}).

(** The arguments of [get-plugin-trace-logs], each optional. *)
Record TraceLogArgs : Type :=
  { arg_entityName : option jsstring;
    arg_messageName : option jsstring;
    arg_correlationId : option jsstring;
    arg_pluginStepId : option jsstring;
    arg_exceptionOnly : option bool;
    arg_hoursBack : option Z;
    arg_maxRecords : option Z }.

Definition traceLogOptionsOf (args : TraceLogArgs) : TraceLogOptions :=
  {| opt_entityName := arg_entityName args;
     opt_messageName := arg_messageName args;
     opt_correlationId := arg_correlationId args;
     opt_pluginStepId := arg_pluginStepId args;
     opt_exceptionOnly :=
       Some match arg_exceptionOnly args with Some b => b | None => false end;
     opt_hoursBack :=
       Some match arg_hoursBack args with Some h => h | None => 24%Z end;
     opt_maxRecords :=
       Some match arg_maxRecords args with Some n => n | None => 50%Z end |}.

Definition getPluginTraceLogsTool
    (getPluginService : Completion PowerPlatformClient)
    (args : TraceLogArgs) : M (ToolResult TraceLogs) :=
  try_catch_error
    (service <- lift getPluginService ;;
     result <-
       getPluginTraceLogs service dateThresholdISO (traceLogOptionsOf args) ;;
     let exceptionCount :=
       length (filter (fun log => hasException (parsed log)) (logs result)) in
     ret {| structuredContent := Some result;
            content :=
              [ js "Plugin trace logs:" ++ [newline; newline]
                ++ js "Total Logs: " ++ ofLength (totalCount result)
                ++ [newline] ++ js "Exceptions: " ++ ofLength exceptionCount
                ++ [newline; newline] ++ stringifyLogs (logs result) ] |})
    (fun error =>
       ret {| structuredContent := None;
              content :=
                [ js "Failed to get plugin trace logs: "
                  ++ messageOfError error ] |}).

End Handlers.

End Tools.

(* ===================================================================== *)
(** ** JSON values read dynamically *)
(* ===================================================================== *)

Module Json.

(** An object of the remote, as [Record<string, unknown>]: its own
    properties. An absent property reads as [undefined], here [None]. *)
Definition Obj : Type := list (jsstring * unknown).

Fixpoint lookup (k : jsstring) (o : Obj) : option unknown :=
  match o with
  | [] => None
  | (k', v) :: o' => if eqb k' k then Some v else lookup k o'
  end.

(** [x?.key] for a property name that no primitive, array or prototype
    carries: [undefined] unless [x] is an object with the property. *)
Definition prop (key : string) (x : option unknown) : option unknown :=
  match x with
  | Some (JObject o) => lookup (js key) o
  | _ => None
  end.

(** Truthiness of a JSON value or [undefined]. *)
Definition truthyValue (x : option unknown) : bool :=
  match x with
  | None => false
  | Some JNull => false
  | Some (JBool b) => b
  | Some (JNumber z) => negb (z =? 0)%Z
  | Some (JString s) => truthy s
  | Some (JArray _) => true
  | Some (JObject _) => true
  end.

(** [x === n] for a number literal [n]. *)
Definition isNumber (n : Z) (x : option unknown) : bool :=
  match x with
  | Some (JNumber z) => (z =? n)%Z
  | _ => false
  end.

(** [delete o[key]]. *)
Definition delete (k : jsstring) (o : Obj) : Obj :=
  filter (fun kv => negb (eqb (fst kv) k)) o.

End Json.

(* ===================================================================== *)
(** ** PluginService.getPluginAssemblies *)
(* ===================================================================== *)

Module AssemblyCatalog.
Import Json Tools.

(** An element of the [assemblies] returned. *)
Record FormattedAssembly : Type :=
  { pluginassemblyid : option unknown;
    name : option unknown;
    version : option unknown;
    isolationMode : jsstring;
    isManaged : option unknown;
    modifiedOn : option unknown;
    modifiedBy : option unknown;
    major : option unknown;
    minor : option unknown }.

Record Assemblies : Type :=
  { totalCount : nat; assemblies : list FormattedAssembly }.

(** The [isHidden] of the filter callback: the [Value] of a managed
    property when [ishidden] has one, [ishidden] itself otherwise. *)
Definition isHiddenOf (assembly : Obj) : option unknown :=
  match prop "Value" (lookup (js "ishidden") assembly) with
  | Some v => Some v
  | None => lookup (js "ishidden") assembly
  end.

(** The filter callback: [!isHidden]. *)
Definition shown (assembly : Obj) : bool :=
  negb (truthyValue (isHiddenOf assembly)).

(** The map callback. *)
Definition formatAssembly (assembly : Obj) : FormattedAssembly :=
  {| pluginassemblyid := lookup (js "pluginassemblyid") assembly;
     name := lookup (js "name") assembly;
     version := lookup (js "version") assembly;
     isolationMode :=
       if isNumber 1 (lookup (js "isolationmode") assembly) then js "None"
       else if isNumber 2 (lookup (js "isolationmode") assembly)
       then js "Sandbox"
       else js "External";
     isManaged := lookup (js "ismanaged") assembly;
     modifiedOn := lookup (js "modifiedon") assembly;
     modifiedBy := prop "fullname" (lookup (js "modifiedby") assembly);
     major := lookup (js "major") assembly;
     minor := lookup (js "minor") assembly |}.

Section Service.
(** A Number value, of which the method uses nothing but its string
    form [`${maxRecords}`]. *)
Variable number : Type.
Variable numberToString : number -> jsstring.

(** [this.client.get<ApiCollectionResponse<Record<string, unknown>>>]. *)
Variable get : jsstring -> Completion (ApiCollectionResponse Obj).

(** The endpoint asked for. *)
Definition assembliesEndpoint (includeManaged : bool) (maxRecords : number)
  : jsstring :=
  let managedFilter :=
    if includeManaged then [] else js "$filter=ismanaged eq false&" in
  js "api/data/v9.2/pluginassemblies?" ++ managedFilter
  ++ js "$select=pluginassemblyid,name,version,culture,publickeytoken,isolationmode,sourcetype,major,minor,createdon,modifiedon,ismanaged,ishidden&$expand=modifiedby($select=fullname)&$orderby=name&$top="
  ++ numberToString maxRecords.

Definition getPluginAssemblies (includeManaged : bool) (maxRecords : number)
  : Completion Assemblies :=
  match get (assembliesEndpoint includeManaged maxRecords) with
  | Throw e => Throw e
  | Normal assemblies =>
      let formattedAssemblies :=
        map formatAssembly (filter shown (value assemblies)) in
      Normal {| totalCount := length formattedAssemblies;
                assemblies := formattedAssemblies |}
  end.
End Service.

End AssemblyCatalog.

(* ===================================================================== *)
(** ** EntityService *)
(* ===================================================================== *)

Module EntityService.
Import Json.

(** [s.endsWith(suffix)]. *)
Definition endsWith (s suffix : jsstring) : bool :=
  (length suffix <=? length s)%nat
  && eqb (skipn (length s - length suffix) s) suffix.

(** [s.startsWith(prefix)]. *)
Definition startsWith (s prefix : jsstring) : bool :=
  eqb (firstn (length prefix) s) prefix.

(** [s.slice(0, -4)]. *)
Definition slice_0_minus4 (s : jsstring) : jsstring :=
  firstn (length s - 4) s.

(** [x || ''] for [string | undefined | null]. *)
Definition orEmpty (v : option jsstring) : jsstring :=
  match v with
  | Some s => if truthy s then s else []
  | None => []
  end.

(** An element of the [value] of [.../Attributes]: the [LogicalName]
    the service reads, and the properties it carries along. *)
Module Attribute.
Record t : Type :=
  { LogicalName : option jsstring; others : Obj }.
End Attribute.

(** An element of the [value] of [.../OneToManyRelationships]. *)
Module Relationship.
Record t : Type :=
  { ReferencingEntity : option jsstring; others : Obj }.
End Relationship.

(** *** getEntityMetadata *)

Definition metadataEndpoint (entityName : jsstring) : jsstring :=
  js "api/data/v9.2/EntityDefinitions(LogicalName='" ++ entityName
  ++ js "')".

(** [if (response && typeof response === 'object' && 'Privileges' in
    response) delete response.Privileges]: an array has no such
    property, [null] is falsy, the other values are no objects. *)
Definition withoutPrivileges (response : unknown) : unknown :=
  match response with
  | JObject fields => JObject (delete (js "Privileges") fields)
  | other => other
  end.

(** *** getEntityAttributes *)

Definition attributesEndpoint (entityName : jsstring) : jsstring :=
  js "api/data/v9.2/EntityDefinitions(LogicalName='" ++ entityName
  ++ js "')/Attributes?$select=" ++ join (js ",") [js "LogicalName"]
  ++ js "&$filter=AttributeType ne 'Virtual'".

(** [attribute.LogicalName || '']. *)
Definition logicalNameOf (attribute : Attribute.t) : jsstring :=
  orEmpty (Attribute.LogicalName attribute).

(** The callback of the first pass. *)
Definition notYomiName (attribute : Attribute.t) : bool :=
  negb (endsWith (logicalNameOf attribute) (js "yominame")).

(** [logicalName.endsWith('name') && logicalName.length > 4]. *)
Definition hasNameSuffix (logicalName : jsstring) : bool :=
  endsWith logicalName (js "name") && (4 <? length logicalName)%nat.

(** [Set<string>]. *)
Definition set_has (x : jsstring) (s : list jsstring) : bool :=
  existsb (eqb x) s.

Definition set_add (x : jsstring) (s : list jsstring) : list jsstring :=
  if set_has x s then s else s ++ [x].

(** The attributes are objects, kept in the map and in the set of the
    attributes to remove by reference: a reference is the position of
    the attribute in [response.value] after the first pass. *)
Definition Ref : Type := nat.

(** [Map<string, any>.set], in insertion order. *)
Fixpoint names_set (k : jsstring) (v : Ref) (m : list (jsstring * Ref))
  : list (jsstring * Ref) :=
  match m with
  | [] => [(k, v)]
  | (k', v') :: m' =>
      if eqb k' k then (k', v) :: m' else (k', v') :: names_set k v m'
  end.

(** The loop [for (const attribute of response.value)], from the
    attribute at position [i] on. *)
Fixpoint scan (i : Ref) (attributes : list Attribute.t)
    (baseNames : list jsstring) (namesAttributes : list (jsstring * Ref))
  : list jsstring * list (jsstring * Ref) :=
  match attributes with
  | [] => (baseNames, namesAttributes)
  | attribute :: rest =>
      let logicalName := logicalNameOf attribute in
      if hasNameSuffix logicalName then
        let baseName := slice_0_minus4 logicalName in
        scan (S i) rest baseNames (names_set baseName i namesAttributes)
      else scan (S i) rest (set_add logicalName baseNames) namesAttributes
  end.

(** [Set<any>] of references. *)
Definition refs_has (r : Ref) (s : list Ref) : bool :=
  existsb (Nat.eqb r) s.

Definition refs_add (r : Ref) (s : list Ref) : list Ref :=
  if refs_has r s then s else s ++ [r].

(** The loop over [namesAttributes.entries()]. *)
Fixpoint attributesToRemove (baseNames : list jsstring)
    (entries : list (jsstring * Ref)) (removed : list Ref) : list Ref :=
  match entries with
  | [] => removed
  | (baseName, nameAttribute) :: rest =>
      attributesToRemove baseNames rest
        (if set_has baseName baseNames then refs_add nameAttribute removed
         else removed)
  end.

(** [filter(attribute => !attributesToRemove.has(attribute))], from the
    attribute at position [i] on. *)
Fixpoint withoutRemoved (i : Ref) (removed : list Ref)
    (attributes : list Attribute.t) : list Attribute.t :=
  match attributes with
  | [] => []
  | attribute :: rest =>
      if refs_has i removed then withoutRemoved (S i) removed rest
      else attribute :: withoutRemoved (S i) removed rest
  end.

(** The [response.value] returned for the one fetched. *)
Definition attributesKept (fetched : list Attribute.t)
  : list Attribute.t :=
  let value := filter notYomiName fetched in
  let (baseNames, namesAttributes) := scan 0 value [] [] in
  withoutRemoved 0 (attributesToRemove baseNames namesAttributes []) value.

(** *** getEntityOneToManyRelationships *)

Definition oneToManyEndpoint (entityName : jsstring) : jsstring :=
  js "api/data/v9.2/EntityDefinitions(LogicalName='" ++ entityName
  ++ js "')/OneToManyRelationships?$select="
  ++ join (js ",")
       [ js "SchemaName"; js "RelationshipType"; js "ReferencedAttribute";
         js "ReferencedEntity"; js "ReferencingAttribute";
         js "ReferencingEntity";
         js "ReferencedEntityNavigationPropertyName";
         js "ReferencingEntityNavigationPropertyName" ]
  ++ js "&$filter=ReferencingAttribute ne 'regardingobjectid'".

(** The callback of the filter. *)
Definition relationshipKept (relationship : Relationship.t) : bool :=
  let referencingEntity :=
    orEmpty (Relationship.ReferencingEntity relationship) in
  negb (startsWith referencingEntity (js "msdyn_")
        || startsWith referencingEntity (js "adx_")).

Section Service.
(** [this.client.get], at the type each method reads its response. *)
Variable getAny : jsstring -> Completion unknown.
Variable getAttributes :
  jsstring -> Completion (ApiCollectionResponse Attribute.t).
Variable getRelationships :
  jsstring -> Completion (ApiCollectionResponse Relationship.t).

Definition getEntityMetadata (entityName : jsstring) : Completion unknown :=
  match getAny (metadataEndpoint entityName) with
  | Throw e => Throw e
  | Normal response => Normal (withoutPrivileges response)
  end.

Definition getEntityAttributes (entityName : jsstring)
  : Completion (ApiCollectionResponse Attribute.t) :=
  match getAttributes (attributesEndpoint entityName) with
  | Throw e => Throw e
  | Normal response =>
      Normal {| value := attributesKept (value response) |}
  end.

Definition getEntityOneToManyRelationships (entityName : jsstring)
  : Completion (ApiCollectionResponse Relationship.t) :=
  match getRelationships (oneToManyEndpoint entityName) with
  | Throw e => Throw e
  | Normal response =>
      Normal {| value := filter relationshipKept (value response) |}
  end.
End Service.

End EntityService.

(* ===================================================================== *)
(** ** RecordService *)
(* ===================================================================== *)

Module RecordService.
Import Client Tools.
Local Open Scope N_scope.

(** The units [encodeURIComponent] leaves as they are: letters, digits
    and [- _ . ! ~ * ' ( )]. *)
Definition unreserved (c : N) : bool :=
  ((65 <=? c) && (c <=? 90)) || ((97 <=? c) && (c <=? 122))
  || ((48 <=? c) && (c <=? 57))
  || existsb (N.eqb c) (js "-_.!~*'()").

Definition hexDigit (n : N) : N :=
  if n <? 10 then 48 + n else 55 + n.

(** [%XX] of one octet, in upper case. *)
Definition percent (octet : N) : jsstring :=
  [37; hexDigit (octet / 16); hexDigit (octet mod 16)].

(** The octets of the UTF-8 form of a code point. *)
Definition utf8 (cp : N) : list N :=
  if cp <? 128 then [cp]
  else if cp <? 2048 then [192 + cp / 64; 128 + cp mod 64]
  else if cp <? 65536 then
    [224 + cp / 4096; 128 + (cp / 64) mod 64; 128 + cp mod 64]
  else
    [ 240 + cp / 262144; 128 + (cp / 4096) mod 64;
      128 + (cp / 64) mod 64; 128 + cp mod 64 ].

Definition isLeadSurrogate (c : N) : bool := (55296 <=? c) && (c <=? 56319).
Definition isTrailSurrogate (c : N) : bool := (56320 <=? c) && (c <=? 57343).

(** [encodeURIComponent(s)]; [None] stands for the [URIError] thrown at
    a surrogate that is not half of a pair. *)
Fixpoint encodeURIComponent (s : jsstring) : option jsstring :=
  match s with
  | [] => Some []
  | c :: rest =>
      if unreserved c then option_map (cons c) (encodeURIComponent rest)
      else if isTrailSurrogate c then None
      else if isLeadSurrogate c then
        match rest with
        | k :: rest' =>
            if isTrailSurrogate k then
              option_map
                (app (flat_map percent
                        (utf8 ((c - 55296) * 1024 + (k - 56320) + 65536))))
                (encodeURIComponent rest')
            else None
        | [] => None
        end
      else
        option_map (app (flat_map percent (utf8 c)))
          (encodeURIComponent rest)
  end.

(** The [URIError] of the engine. *)
Definition uriError : JsError :=
  {| error_name := js "URIError"; error_message := js "URI malformed" |}.

Definition recordEndpoint (entityNamePlural recordId : jsstring) : jsstring :=
  js "api/data/v9.2/" ++ entityNamePlural ++ js "(" ++ recordId ++ js ")".

Section Service.
Variable config : PowerPlatformConfig.
Variable acquireTokenByClientCredential :
  nat -> Outcome (option AuthenticationResult).
Variable axios : HttpRequest -> Outcome unknown.

(** A Number value, of which the method uses nothing but its string
    form [`${maxRecords}`]. *)
Variable number : Type.
Variable numberToString : number -> jsstring.

Definition getRecord (currentTime : Z) (entityNamePlural recordId : jsstring)
    (st : State) : State * Outcome unknown :=
  get config acquireTokenByClientCredential axios currentTime
    (recordEndpoint entityNamePlural recordId) st.

Definition queryRecords (currentTime : Z) (entityNamePlural filter : jsstring)
    (maxRecords : number) (orderby : option jsstring) (st : State)
  : State * Outcome unknown :=
  match encodeURIComponent filter with
  | None => (st, Raises uriError)
  | Some encodedFilter =>
      let url :=
        js "api/data/v9.2/" ++ entityNamePlural ++ js "?$filter="
        ++ encodedFilter ++ js "&$top=" ++ numberToString maxRecords in
      match orderby with
      | Some text =>
          if truthy text then
            match encodeURIComponent text with
            | None => (st, Raises uriError)
            | Some encodedOrder =>
                get config acquireTokenByClientCredential axios currentTime
                  (url ++ js "&$orderby=" ++ encodedOrder) st
            end
          else
            get config acquireTokenByClientCredential axios currentTime
              url st
      | None =>
          get config acquireTokenByClientCredential axios currentTime url st
      end
  end.
End Service.

End RecordService.

(* ===================================================================== *)
(** ** Sample metadata *)
(* ===================================================================== *)

Module EntityScenarios.
Import EntityService.

Definition attribute (logicalName : string) : Attribute.t :=
  {| Attribute.LogicalName := Some (js logicalName);
     Attribute.others := [] |}.

Definition contactAttributes : ApiCollectionResponse Attribute.t :=
  {| value := [ attribute "ownerid"; attribute "owneridname";
                attribute "owneridyominame"; attribute "fullname";
                attribute "lastname" ] |}.

End EntityScenarios.

(* ===================================================================== *)
(** ** The handler of get-plugin-assembly-complete *)
(* ===================================================================== *)

Module AssemblyTool.
Import PluginService Tools.

(** [issues.length > 0 ? issues.join(', ') : 'None']. *)
Definition issuesTextOf (potentialIssues : list jsstring) : jsstring :=
  if (0 <? length potentialIssues)%nat
  then join (js ", ") potentialIssues
  else js "None".

Section Handler.
(** [JSON.stringify(result, null, 2)]. *)
Variable stringifyAssembly : AssemblyComplete.t -> jsstring.

Definition getPluginAssemblyCompleteTool
    (getPluginService : Completion PowerPlatformClient)
    (assemblyName : jsstring) (includeDisabled : option bool)
  : M (ToolResult AssemblyComplete.t) :=
  try_catch_error
    (service <- lift getPluginService ;;
     result <-
       getPluginAssemblyComplete service assemblyName
         match includeDisabled with Some b => b | None => false end ;;
     ret {| structuredContent := Some result;
            content :=
              [ js "Plugin assembly '" ++ assemblyName ++ js "':"
                ++ [newline; newline]
                ++ js "Plugin Types: "
                ++ ofLength (length (AssemblyComplete.pluginTypes result))
                ++ [newline]
                ++ js "Steps: "
                ++ ofLength (length (AssemblyComplete.steps result))
                ++ [newline]
                ++ js "Potential Issues: "
                ++ issuesTextOf
                     (Validation.potentialIssues
                        (AssemblyComplete.validation result))
                ++ [newline; newline]
                ++ stringifyAssembly result ] |})
    (fun error =>
       ret {| structuredContent := None;
              content :=
                [ js "Failed to get plugin assembly: "
                  ++ messageOfError error ] |}).

End Handler.

End AssemblyTool.

Unset Implicit Arguments.

(* ===================================================================== *)
(** ** Facts about strings *)
(* ===================================================================== *)

Module JSFacts.

Lemma eqb_spec (a b : jsstring) : reflect (a = b) (eqb a b).
Proof.
  revert b; induction a as [|x a IH]; intros [|y b]; simpl;
    try (constructor; congruence).
  destruct (N.eqb_spec x y) as [->|Hxy]; simpl.
  - destruct (IH b) as [->|Hab]; constructor; congruence.
  - constructor; congruence.
Qed.

Lemma eqb_refl (a : jsstring) : eqb a a = true.
Proof. destruct (eqb_spec a a); congruence. Qed.

Lemma opt_eqb_spec (a b : option jsstring) : reflect (a = b) (opt_eqb a b).
Proof.
  destruct a as [x|], b as [y|]; simpl; try (constructor; congruence).
  destruct (eqb_spec x y); constructor; congruence.
Qed.

Lemma split_not_nil (sep : N) (s : jsstring) : split sep s <> [].
Proof.
  destruct s as [|x s]; simpl; [discriminate|].
  destruct (N.eqb x sep); [discriminate|].
  destruct (split sep s); discriminate.
Qed.

End JSFacts.

(* ===================================================================== *)
(** ** DependencyService: delete eligibility *)
(* ===================================================================== *)

Module DependencyFacts.
Import DependencyService.

Lemma length_zero_iff_nil (A : Type) (l : list A) :
  Nat.eqb (length l) 0 = true <-> l = [].
Proof. destruct l; simpl; split; congruence. Qed.

(** What the method does on each completion of the remote call. *)
Lemma checkDeleteEligibility_run (client : PowerPlatformClient)
    (componentId : jsstring) (componentType : Z) :
  run (checkDeleteEligibility client componentId componentType) =
  ( [RetrieveDependenciesForDelete componentId componentType],
    match client (RetrieveDependenciesForDelete componentId componentType) with
    | Normal result =>
        Normal {| canDelete := Nat.eqb (length (dependenciesOf result)) 0;
                  dependencies := dependenciesOf result |}
    | Throw _ => Normal {| canDelete := false; dependencies := [] |}
    end ).
Proof.
  unfold run, checkDeleteEligibility, checkDependencies, try_catch, bind,
    request, ret; simpl.
  destruct (client (RetrieveDependenciesForDelete componentId componentType));
    reflexivity.
Qed.

(** C2. [checkDeleteEligibility] always completes normally, after one
    request. When the remote call answers, [dependencies] is the
    [Entities] list of the [EntityCollection] of the answer, and
    [canDelete] is true exactly when that list is empty; an answer
    without such a list gives the empty list and [canDelete] true.
    When the remote call throws, the exception is swallowed and the
    result is [{canDelete: false, dependencies: []}]. *)
Theorem checkDeleteEligibility_canDelete_iff_no_dependencies
    (client : PowerPlatformClient) (componentId : jsstring)
    (componentType : Z) :
  let call := RetrieveDependenciesForDelete componentId componentType in
  match client call with
  | Normal result =>
      exists e,
        run (checkDeleteEligibility client componentId componentType)
          = ([call], Normal e)
        /\ (forall ec entities,
              EntityCollection result = Some ec ->
              Entities ec = Some entities ->
              dependencies e = entities
              /\ (canDelete e = true <-> entities = []))
        /\ (EntityCollection result = None
            \/ (exists ec, EntityCollection result = Some ec
                           /\ Entities ec = None) ->
            dependencies e = [] /\ canDelete e = true)
  | Throw _ =>
      run (checkDeleteEligibility client componentId componentType)
        = ([call], Normal {| canDelete := false; dependencies := [] |})
  end.
Proof.
  intros call. subst call.
  rewrite checkDeleteEligibility_run.
  destruct (client (RetrieveDependenciesForDelete componentId componentType))
    as [result|e]; [|reflexivity].
  eexists; split; [reflexivity|]. cbn [canDelete dependencies].
  unfold dependenciesOf. split.
  - intros ec entities -> ->. split; [reflexivity|].
    apply length_zero_iff_nil.
  - intros [-> | (ec & -> & ->)]; split; reflexivity.
Qed.

(** C10. A successful answer without [EntityCollection], or whose
    [EntityCollection] has no [Entities], is read as an empty dependency
    list: the result is [{canDelete: true, dependencies: []}]. *)
Theorem checkDeleteEligibility_missing_entities_can_delete
    (client : PowerPlatformClient) (componentId : jsstring)
    (componentType : Z) (result : DependenciesResponse) :
  client (RetrieveDependenciesForDelete componentId componentType)
    = Normal result ->
  (EntityCollection result = None
   \/ exists ec, EntityCollection result = Some ec /\ Entities ec = None) ->
  run (checkDeleteEligibility client componentId componentType)
  = ( [RetrieveDependenciesForDelete componentId componentType],
      Normal {| canDelete := true; dependencies := [] |} ).
Proof.
  intros Hcall Hmissing.
  rewrite checkDeleteEligibility_run, Hcall.
  assert (Hdeps : dependenciesOf result = []).
  { unfold dependenciesOf.
    destruct Hmissing as [-> | [ec [-> ->]]]; reflexivity. }
  rewrite Hdeps. reflexivity.
Qed.

Lemma checkDeleteEligibility_missing_entities_witness :
  run (checkDeleteEligibility
         (Scenarios.mockClient
            (Scenarios.withDependencies {| EntityCollection := None |}))
         Scenarios.guid1 92)
  = ( [RetrieveDependenciesForDelete Scenarios.guid1 92],
      Normal {| canDelete := true; dependencies := [] |} ).
Proof.
  apply (@checkDeleteEligibility_missing_entities_can_delete
           (Scenarios.mockClient
              (Scenarios.withDependencies {| EntityCollection := None |}))
           Scenarios.guid1 92%Z {| EntityCollection := None |}).
  - reflexivity.
  - left. reflexivity.
Defined.

(** The scenarios of the specification, run. *)
Example checkDeleteEligibility_remote_throws :
  run (checkDeleteEligibility (Scenarios.mockClient Scenarios.offline)
         Scenarios.guid1 92)
  = ( [RetrieveDependenciesForDelete Scenarios.guid1 92],
      Normal {| canDelete := false; dependencies := [] |} ).
Proof. reflexivity. Qed.

Example checkDeleteEligibility_one_dependency :
  run (checkDeleteEligibility
         (Scenarios.mockClient
            (Scenarios.withDependencies
               {| EntityCollection :=
                    Some {| Entities := Some [JObject []] |} |}))
         Scenarios.guid1 92)
  = ( [RetrieveDependenciesForDelete Scenarios.guid1 92],
      Normal {| canDelete := false; dependencies := [JObject []] |} ).
Proof. reflexivity. Qed.

Example checkDeleteEligibility_no_dependency :
  run (checkDeleteEligibility
         (Scenarios.mockClient
            (Scenarios.withDependencies
               {| EntityCollection := Some {| Entities := Some [] |} |}))
         Scenarios.guid1 92)
  = ( [RetrieveDependenciesForDelete Scenarios.guid1 92],
      Normal {| canDelete := true; dependencies := [] |} ).
Proof. reflexivity. Qed.

End DependencyFacts.

(* ===================================================================== *)
(** ** Running service computations *)
(* ===================================================================== *)

Module ServiceFacts.
Import PluginService.

Lemma bind_request (client : PowerPlatformClient) (r : Request) (B : Type)
    (k : ResponseOf r -> M B) (log : list Request) :
  bind (request client r) k log =
  match client r with
  | Normal v => k v (log ++ [r])
  | Throw e => (log ++ [r], Throw e)
  end.
Proof. unfold bind, request. destruct (client r); reflexivity. Qed.

Lemma bind_ret (A B : Type) (a : A) (k : A -> M B) (log : list Request) :
  bind (ret a) k log = k a log.
Proof. reflexivity. Qed.

Lemma bind_lift (A B : Type) (c : Completion A) (k : A -> M B)
    (log : list Request) :
  bind (lift c) k log =
  match c with
  | Normal a => k a log
  | Throw e => (log, Throw e)
  end.
Proof. unfold bind, lift. destruct c; reflexivity. Qed.

(** A computation is described by what it adds to the log. *)
Lemma bind_inv (A B : Type) (m : M A) (k : A -> M B)
    (log log' : list Request) (b : B) :
  bind m k log = (log', Normal b) ->
  exists a mid, m log = (mid, Normal a) /\ k a mid = (log', Normal b).
Proof.
  unfold bind. destruct (m log) as [mid [a|e]]; intros H.
  - exists a, mid. split; [reflexivity|exact H].
  - discriminate H.
Qed.

(** The image query is issued exactly for a non-empty id list. *)
Lemma fetchImages_run (client : PowerPlatformClient)
    (stepIds : list jsstring) (log : list Request) :
  fetchImages client stepIds log =
  match stepIds with
  | [] => (log, Normal [])
  | _ :: _ =>
      match client (imagesOfSteps stepIds) with
      | Normal images => (log ++ [imagesOfSteps stepIds], Normal (value images))
      | Throw e => (log ++ [imagesOfSteps stepIds], Throw e)
      end
  end.
Proof.
  destruct stepIds as [|id ids]; [reflexivity|].
  unfold fetchImages.
  change (0 <? length (id :: ids))%nat with true. cbv iota.
  rewrite bind_request.
  destruct (client (imagesOfSteps (id :: ids))); reflexivity.
Qed.

(** What a successful run of [getPluginAssemblyComplete] went through. *)
Lemma getPluginAssemblyComplete_inv (client : PowerPlatformClient)
    (assemblyName : jsstring) (includeDisabled : bool)
    (log : list Request) (r : AssemblyComplete.t) :
  run (getPluginAssemblyComplete client assemblyName includeDisabled)
    = (log, Normal r) ->
  exists allSteps allImages,
    AssemblyComplete.steps r = map (attachImages allImages) allSteps
    /\ AssemblyComplete.validation r
       = validate allSteps (AssemblyComplete.steps r).
Proof.
  unfold run, getPluginAssemblyComplete. intros H.
  apply bind_inv in H. destruct H as [assemblies [log1 [_ H]]].
  destruct (value assemblies) as [|assembly rest]; [discriminate H|].
  apply bind_inv in H. destruct H as [pluginTypes [log2 [_ H]]].
  apply bind_inv in H. destruct H as [allSteps [log3 [_ H]]].
  apply bind_inv in H. destruct H as [allImages [log4 [_ H]]].
  unfold ret in H. inversion H; subst; simpl.
  exists allSteps, allImages. split; reflexivity.
Qed.

End ServiceFacts.

(* ===================================================================== *)
(** ** PluginService: the validation report *)
(* ===================================================================== *)

Module ValidationFacts.
Import PluginService ServiceFacts Report.

Lemma isUpdateOrDelete_iff (s : StepWithImages.t) :
  isUpdateOrDelete (messageOf s) = true <-> onUpdateOrDelete s.
Proof.
  unfold isUpdateOrDelete, onUpdateOrDelete.
  rewrite orb_true_iff.
  split; (intros [H|H]; [left|right]).
  - destruct (JSFacts.opt_eqb_spec (messageOf s) (Some Update)); congruence.
  - destruct (JSFacts.opt_eqb_spec (messageOf s) (Some Delete)); congruence.
  - rewrite H. apply JSFacts.eqb_refl.
  - rewrite H. apply JSFacts.eqb_refl.
Qed.

(** The list parsed from the text is empty exactly when the text is
    falsy: [split] never yields the empty array. *)
Lemma filteringAttributes_empty_iff (s : StepWithImages.t) :
  filteringAttributesOf s = []
  <-> opt_truthy (Step.filteringattributes (StepWithImages.step s)) = false.
Proof.
  unfold filteringAttributesOf, opt_truthy.
  destruct (Step.filteringattributes (StepWithImages.step s)) as [fa|];
    [|tauto].
  destruct (truthy fa) eqn:Hfa; [|tauto].
  split; [|discriminate].
  intros H. exfalso. exact (JSFacts.split_not_nil comma fa H).
Qed.

Lemma lacksFilteringAttributes_iff (s : StepWithImages.t) :
  lacksFilteringAttributes s = true
  <-> onUpdateOrDelete s /\ filteringAttributesOf s = [].
Proof.
  unfold lacksFilteringAttributes. fold (messageOf s).
  rewrite andb_true_iff, negb_true_iff, isUpdateOrDelete_iff,
    filteringAttributes_empty_iff.
  tauto.
Qed.

Lemma lacksImages_iff (s : StepWithImages.t) :
  lacksImages s = true
  <-> onUpdateOrDelete s /\ length (StepWithImages.images s) = 0.
Proof.
  unfold lacksImages. fold (messageOf s).
  rewrite andb_true_iff, isUpdateOrDelete_iff, Nat.eqb_eq. tauto.
Qed.

Lemma Create_not_Update_or_Delete (s : StepWithImages.t) :
  messageOf s = Some Create -> ~ onUpdateOrDelete s.
Proof. intros H [H'|H']; rewrite H in H'; discriminate H'. Qed.

(** Every successful run reports the validation of the steps it
    returns. *)
Lemma reported_lists (client : PowerPlatformClient)
    (assemblyName : jsstring) (includeDisabled : bool)
    (log : list Request) (r : AssemblyComplete.t) :
  run (getPluginAssemblyComplete client assemblyName includeDisabled)
    = (log, Normal r) ->
  let v := AssemblyComplete.validation r in
  Validation.stepsWithoutFilteringAttributes v
    = map nameOf (filter lacksFilteringAttributes (AssemblyComplete.steps r))
  /\ Validation.stepsWithoutImages v
     = map nameOf (filter lacksImages (AssemblyComplete.steps r))
  /\ Validation.potentialIssues v
     = (if (0 <? length (Validation.stepsWithoutFilteringAttributes v))%nat
        then [filteringIssue
                (length (Validation.stepsWithoutFilteringAttributes v))]
        else [])
       ++ (if (0 <? length (Validation.stepsWithoutImages v))%nat
           then [imagesIssue (length (Validation.stepsWithoutImages v))]
           else []).
Proof.
  intros H. apply getPluginAssemblyComplete_inv in H.
  destruct H as [allSteps [allImages [_ Hv]]].
  simpl. rewrite Hv. unfold validate. simpl.
  repeat split.
  destruct (0 <? _)%nat, (0 <? _)%nat; reflexivity.
Qed.

(** A step that fails the test of a filter can be left out. *)
Lemma filter_without (A : Type) (p : A -> bool) (before after : list A)
    (x : A) :
  p x = false -> filter p (before ++ x :: after) = filter p (before ++ after).
Proof.
  intros Hx. rewrite !filter_app. simpl. rewrite Hx. reflexivity.
Qed.

(** C3, as stated, fails when two steps bear one name: the step on
    Create is outside Update and Delete, and its name is in the list,
    entered there by the step on Update. *)
Lemma same_name_step_off_Update_Delete_is_listed :
  exists log r s,
    run (getPluginAssemblyComplete
           (Scenarios.mockClient
              (Scenarios.serving Scenarios.sameNameSteps []))
           Scenarios.contosoName false) = (log, Normal r)
    /\ In s (AssemblyComplete.steps r)
    /\ messageOf s = Some Create
    /\ ~ onUpdateOrDelete s
    /\ In (nameOf s)
          (Validation.stepsWithoutFilteringAttributes
             (AssemblyComplete.validation r)).
Proof.
  eexists _, _, _. split; [vm_compute; reflexivity|].
  split; [left; reflexivity|].
  split; [reflexivity|].
  split; [apply Create_not_Update_or_Delete; reflexivity|].
  left. reflexivity.
Qed.

(** C3, amended. In the report of a successful run: the name of every
    returned step on Update or Delete with an empty filtering-attribute
    list is in [stepsWithoutFilteringAttributes]; every entry of that
    list is the name of such a step; and a step on any other message
    is never entered, whatever its filtering attributes: the list is
    the one reported without that step. *)
Theorem stepsWithoutFilteringAttributes_entries
    (client : PowerPlatformClient) (assemblyName : jsstring)
    (includeDisabled : bool) (log : list Request) (r : AssemblyComplete.t) :
  run (getPluginAssemblyComplete client assemblyName includeDisabled)
    = (log, Normal r) ->
  let listed :=
    Validation.stepsWithoutFilteringAttributes
      (AssemblyComplete.validation r) in
  (forall s, In s (AssemblyComplete.steps r) ->
     onUpdateOrDelete s -> filteringAttributesOf s = [] ->
     In (nameOf s) listed)
  /\ (forall n, In n listed ->
        exists s, In s (AssemblyComplete.steps r) /\ nameOf s = n
                  /\ onUpdateOrDelete s /\ filteringAttributesOf s = [])
  /\ (forall before s after,
        AssemblyComplete.steps r = before ++ s :: after ->
        ~ onUpdateOrDelete s ->
        listed = reportedWithoutFilteringAttributes (before ++ after)).
Proof.
  intros H listed. destruct (reported_lists _ _ _ _ _ H) as [Hfa _].
  simpl in Hfa. subst listed. rewrite Hfa. clear Hfa H.
  split; [|split].
  - intros s Hin Hmsg Hempty. apply in_map, filter_In. split; [exact Hin|].
    apply lacksFilteringAttributes_iff. split; assumption.
  - intros n Hn. apply in_map_iff in Hn. destruct Hn as [s [Hname Hs]].
    apply filter_In in Hs. destruct Hs as [Hin Hp].
    apply lacksFilteringAttributes_iff in Hp.
    exists s. tauto.
  - intros before s after Hsteps Hmsg. rewrite Hsteps.
    unfold reportedWithoutFilteringAttributes, validate. simpl.
    rewrite filter_without; [reflexivity|].
    destruct (lacksFilteringAttributes s) eqn:Hp; [|reflexivity].
    apply lacksFilteringAttributes_iff in Hp. tauto.
Qed.

Lemma stepsWithoutFilteringAttributes_entries_witness :
  exists log r,
    run (getPluginAssemblyComplete
           (Scenarios.mockClient
              (Scenarios.serving Scenarios.contosoSteps []))
           Scenarios.contosoName false) = (log, Normal r)
    /\ Validation.stepsWithoutFilteringAttributes
         (AssemblyComplete.validation r)
       = [js "Contoso.Plugin: Update of account"]
    /\ forall n,
         In n (Validation.stepsWithoutFilteringAttributes
                 (AssemblyComplete.validation r)) ->
         exists s, In s (AssemblyComplete.steps r) /\ nameOf s = n
                   /\ onUpdateOrDelete s /\ filteringAttributesOf s = [].
Proof.
  eexists _, _. split; [vm_compute; reflexivity|]. split; [reflexivity|].
  apply (@stepsWithoutFilteringAttributes_entries
           (Scenarios.mockClient
              (Scenarios.serving Scenarios.contosoSteps []))
           Scenarios.contosoName false _ _ eq_refl).
Defined.

(** C4, as stated, fails for a step on Create that bears the name of
    a step on Update without images: the list holds names, and the
    name of the Create step, itself without images, is in it. *)
Lemma same_name_Create_step_is_listed_without_images :
  exists log r s,
    run (getPluginAssemblyComplete
           (Scenarios.mockClient
              (Scenarios.serving Scenarios.sameNameSteps []))
           Scenarios.contosoName false) = (log, Normal r)
    /\ In s (AssemblyComplete.steps r)
    /\ messageOf s = Some Create
    /\ length (StepWithImages.images s) = 0
    /\ In (nameOf s)
          (Validation.stepsWithoutImages (AssemblyComplete.validation r)).
Proof.
  eexists _, _, _. split; [vm_compute; reflexivity|].
  split; [left; reflexivity|].
  split; [reflexivity|].
  split; [reflexivity|].
  left. reflexivity.
Qed.

(** C4, amended. In the report of a successful run: the name of every
    returned step on Update or Delete with no bound image is in
    [stepsWithoutImages]; a step on Create is never entered, even with
    no image: the list is the one reported without that step, and
    every entry is the name of a step on Update or Delete with no
    bound image. *)
Theorem stepsWithoutImages_entries
    (client : PowerPlatformClient) (assemblyName : jsstring)
    (includeDisabled : bool) (log : list Request) (r : AssemblyComplete.t) :
  run (getPluginAssemblyComplete client assemblyName includeDisabled)
    = (log, Normal r) ->
  let listed :=
    Validation.stepsWithoutImages (AssemblyComplete.validation r) in
  (forall s, In s (AssemblyComplete.steps r) ->
     onUpdateOrDelete s -> length (StepWithImages.images s) = 0 ->
     In (nameOf s) listed)
  /\ (forall before s after,
        AssemblyComplete.steps r = before ++ s :: after ->
        messageOf s = Some Create ->
        listed = reportedWithoutImages (before ++ after))
  /\ (forall n, In n listed ->
        exists s, In s (AssemblyComplete.steps r) /\ nameOf s = n
                  /\ onUpdateOrDelete s
                  /\ length (StepWithImages.images s) = 0).
Proof.
  intros H listed. destruct (reported_lists _ _ _ _ _ H) as [_ [Him _]].
  simpl in Him. subst listed. rewrite Him. clear Him H.
  split; [|split].
  - intros s Hin Hmsg Hnone. apply in_map, filter_In. split; [exact Hin|].
    apply lacksImages_iff. split; assumption.
  - intros before s after Hsteps Hmsg. rewrite Hsteps.
    unfold reportedWithoutImages, validate. simpl.
    rewrite filter_without; [reflexivity|].
    destruct (lacksImages s) eqn:Hp; [|reflexivity].
    apply lacksImages_iff in Hp.
    apply Create_not_Update_or_Delete in Hmsg. tauto.
  - intros n Hn. apply in_map_iff in Hn. destruct Hn as [s [Hname Hs]].
    apply filter_In in Hs. destruct Hs as [Hin Hp].
    apply lacksImages_iff in Hp.
    exists s. tauto.
Qed.

Lemma stepsWithoutImages_entries_witness :
  exists log r,
    run (getPluginAssemblyComplete
           (Scenarios.mockClient
              (Scenarios.serving Scenarios.contosoSteps []))
           Scenarios.contosoName false) = (log, Normal r)
    /\ Validation.stepsWithoutImages (AssemblyComplete.validation r)
       = [js "Contoso.Plugin: Update of account"]
    /\ forall before s after,
         AssemblyComplete.steps r = before ++ s :: after ->
         messageOf s = Some Create ->
         Validation.stepsWithoutImages (AssemblyComplete.validation r)
         = reportedWithoutImages (before ++ after).
Proof.
  eexists _, _. split; [vm_compute; reflexivity|]. split; [reflexivity|].
  apply (@stepsWithoutImages_entries
           (Scenarios.mockClient
              (Scenarios.serving Scenarios.contosoSteps []))
           Scenarios.contosoName false _ _ eq_refl).
Defined.

(** C5. In the report of a successful run, [potentialIssues] holds one
    line per non-empty list, in the order filtering attributes, images,
    each line opening with the length of its list: two lines when both
    lists are non-empty, none when both are empty. *)
Theorem potentialIssues_one_line_per_nonempty_list
    (client : PowerPlatformClient) (assemblyName : jsstring)
    (includeDisabled : bool) (log : list Request) (r : AssemblyComplete.t) :
  run (getPluginAssemblyComplete client assemblyName includeDisabled)
    = (log, Normal r) ->
  let v := AssemblyComplete.validation r in
  let withoutFA := Validation.stepsWithoutFilteringAttributes v in
  let withoutImages := Validation.stepsWithoutImages v in
  Validation.potentialIssues v
  = match withoutFA with
    | [] => []
    | _ :: _ =>
        [ofLength (length withoutFA)
         ++ js " Update/Delete steps without filtering attributes (performance concern)"]
    end
    ++ match withoutImages with
       | [] => []
       | _ :: _ =>
           [ofLength (length withoutImages)
            ++ js " Update/Delete steps without images (may need entity data)"]
       end
  /\ (withoutFA <> [] -> withoutImages <> [] ->
      length (Validation.potentialIssues v) = 2)
  /\ (withoutFA = [] -> withoutImages = [] ->
      Validation.potentialIssues v = []).
Proof.
  intros H v withoutFA withoutImages.
  destruct (reported_lists _ _ _ _ _ H) as [_ [_ Hissues]].
  fold v in Hissues. fold withoutFA in Hissues. fold withoutImages in Hissues.
  rewrite Hissues. clear Hissues.
  destruct withoutFA as [|n1 l1], withoutImages as [|n2 l2]; simpl;
    (split; [reflexivity|split]); intros; congruence.
Qed.

Lemma potentialIssues_witness :
  exists log r,
    run (getPluginAssemblyComplete
           (Scenarios.mockClient
              (Scenarios.serving Scenarios.contosoSteps []))
           Scenarios.contosoName false) = (log, Normal r)
    /\ Validation.potentialIssues (AssemblyComplete.validation r)
       = [js "1 Update/Delete steps without filtering attributes (performance concern)";
          js "1 Update/Delete steps without images (may need entity data)"]
    /\ length (Validation.potentialIssues (AssemblyComplete.validation r)) = 2.
Proof.
  eexists _, _. split; [vm_compute; reflexivity|]. split; [reflexivity|].
  apply (@potentialIssues_one_line_per_nonempty_list
           (Scenarios.mockClient
              (Scenarios.serving Scenarios.contosoSteps []))
           Scenarios.contosoName false _ _ eq_refl);
    discriminate.
Defined.

End ValidationFacts.

(* ===================================================================== *)
(** ** PluginService: grouping by message and stage *)
(* ===================================================================== *)

Module GroupingFacts.
Import PluginService ServiceFacts Report.

Lemma map_has_true_get (k : option jsstring) (m : MessageGroups) :
  map_has k m = true -> exists v, map_get k m = Some v.
Proof.
  induction m as [|[k' v'] m IH]; simpl; [discriminate|].
  destruct (opt_eqb k' k); simpl; [eauto|exact IH].
Qed.

Lemma map_has_false_get (k : option jsstring) (m : MessageGroups) :
  map_has k m = false -> map_get k m = None.
Proof.
  induction m as [|[k' v'] m IH]; simpl; [reflexivity|].
  destruct (opt_eqb k' k); simpl; [discriminate|exact IH].
Qed.

Lemma map_get_set_same (k : option jsstring) (v : MessageGroup)
    (m : MessageGroups) :
  map_get k (map_set k v m) = Some v.
Proof.
  induction m as [|[k' v'] m IH]; simpl.
  - destruct (JSFacts.opt_eqb_spec k k); congruence.
  - destruct (opt_eqb k' k) eqn:Hk; simpl; rewrite Hk; [reflexivity|exact IH].
Qed.

Lemma map_get_set_other (k k0 : option jsstring) (v : MessageGroup)
    (m : MessageGroups) :
  k0 <> k -> map_get k0 (map_set k v m) = map_get k0 m.
Proof.
  intros Hne. induction m as [|[k' v'] m IH]; simpl.
  - destruct (JSFacts.opt_eqb_spec k k0); congruence.
  - destruct (JSFacts.opt_eqb_spec k' k) as [->|Hk]; simpl.
    + destruct (JSFacts.opt_eqb_spec k k0); congruence.
    + destruct (opt_eqb k' k0); [reflexivity|exact IH].
Qed.

Lemma map_get_In (k : option jsstring) (v : MessageGroup)
    (m : MessageGroups) :
  map_get k m = Some v -> In (k, v) m.
Proof.
  induction m as [|[k' v'] m IH]; simpl; [discriminate|].
  destruct (JSFacts.opt_eqb_spec k' k) as [->|Hk].
  - intros [= ->]. left. reflexivity.
  - intros H. right. exact (IH H).
Qed.

Lemma Forall_map_set (Q : option jsstring * MessageGroup -> Prop)
    (k : option jsstring) (v : MessageGroup) (m : MessageGroups) :
  Forall Q m -> Q (k, v) -> Forall Q (map_set k v m).
Proof.
  intros Hm Hv. induction Hm as [|[k' v'] m Hkv Hm IH]; simpl.
  - constructor; [exact Hv|constructor].
  - destruct (JSFacts.opt_eqb_spec k' k) as [->|Hk]; constructor; assumption.
Qed.

(** Setting a key changes the number of steps held by what the new
    group holds more than the old one. *)
Lemma bucketTotal_map_set (k : option jsstring) (v : MessageGroup)
    (m : MessageGroups) :
  bucketTotal (map_values (map_set k v m))
  + match map_get k m with Some old => bucketCount old | None => 0 end
  = bucketTotal (map_values m) + bucketCount v.
Proof.
  unfold bucketTotal, map_values.
  induction m as [|[k' v'] m IH]; simpl; [lia|].
  destruct (opt_eqb k' k); simpl; lia.
Qed.

(** The group of the step's message after the [has]/[set] opening of
    the loop body. *)
Lemma ensure_group (key : option jsstring) (g : MessageGroups) :
  let g1 := if negb (map_has key g)
            then map_set key (emptyGroup key) g else g in
  (exists old, map_get key g1 = Some old
               /\ (forall o, map_get key g = Some o -> old = o))
  /\ (forall k, k <> key -> map_get k g1 = map_get k g)
  /\ (Forall groupSound g -> Forall groupSound g1)
  /\ bucketTotal (map_values g1) = bucketTotal (map_values g).
Proof.
  destruct (map_has key g) eqn:Hhas; simpl.
  - destruct (map_has_true_get _ _ Hhas) as [old Hold].
    split; [|split; [|split]]; auto.
    exists old. split; [exact Hold|]. intros o Ho. congruence.
  - pose proof (map_has_false_get _ _ Hhas) as Hnone.
    split; [|split; [|split]].
    + exists (emptyGroup key). split; [apply map_get_set_same|].
      intros o Ho. congruence.
    + intros k Hk. apply map_get_set_other. exact Hk.
    + intros Hg. apply Forall_map_set; [exact Hg|].
      repeat split; constructor.
    + pose proof (bucketTotal_map_set key (emptyGroup key) g) as Ht.
      rewrite Hnone in Ht. unfold bucketCount in Ht. simpl in Ht. lia.
Qed.

Lemma bucketAt_push_preValidation (st : Z) (old : MessageGroup)
    (s x : FormattedStep.t) :
  In s (bucketAt st old) -> In s (bucketAt st (push_preValidation old x)).
Proof.
  unfold bucketAt. simpl. destruct (st =? 10)%Z; [|tauto].
  intros H. apply in_or_app. left. exact H.
Qed.

Lemma bucketAt_push_preOperation (st : Z) (old : MessageGroup)
    (s x : FormattedStep.t) :
  In s (bucketAt st old) -> In s (bucketAt st (push_preOperation old x)).
Proof.
  unfold bucketAt. simpl.
  destruct (st =? 10)%Z; [tauto|]. destruct (st =? 20)%Z; [|tauto].
  intros H. apply in_or_app. left. exact H.
Qed.

Lemma bucketAt_push_postOperation (st : Z) (old : MessageGroup)
    (s x : FormattedStep.t) :
  In s (bucketAt st old) -> In s (bucketAt st (push_postOperation old x)).
Proof.
  unfold bucketAt. simpl.
  destruct (st =? 10)%Z; [tauto|]. destruct (st =? 20)%Z; [tauto|].
  destruct (st =? 40)%Z; [|tauto].
  intros H. apply in_or_app. left. exact H.
Qed.

(** One round of the loop where the step goes to a bucket: [pushed] is
    the group of its message with the step appended to the bucket of
    its stage. *)
Lemma grouped_after_push (done : list FormattedStep.t)
    (g g1 : MessageGroups) (x : FormattedStep.t)
    (old pushed : MessageGroup) :
  grouped done g ->
  map_get (FormattedStep.message x) g1 = Some old ->
  (forall o, map_get (FormattedStep.message x) g = Some o -> old = o) ->
  (forall k, k <> FormattedStep.message x -> map_get k g1 = map_get k g) ->
  Forall groupSound g1 ->
  bucketTotal (map_values g1) = bucketTotal (map_values g) ->
  placed x = true ->
  groupSound (FormattedStep.message x, old) ->
  groupSound (FormattedStep.message x, pushed) ->
  bucketCount pushed = S (bucketCount old) ->
  In x (bucketAt (FormattedStep.stage x) pushed) ->
  (forall st s, In s (bucketAt st old) -> In s (bucketAt st pushed)) ->
  grouped (done ++ [x])
          (map_set (FormattedStep.message x) pushed g1).
Proof.
  intros [Hsound [Htotal Hmem]] Hold Hsame Hother Hsound1 Htotal1 Hplaced
    Hsold Hspushed Hcount Hin Hmono.
  split; [|split].
  - apply Forall_map_set; assumption.
  - pose proof (bucketTotal_map_set (FormattedStep.message x) pushed g1) as Ht.
    rewrite Hold in Ht.
    rewrite filter_app, length_app. simpl. rewrite Hplaced. simpl. lia.
  - intros s Hs. apply in_app_or in Hs. destruct Hs as [Hs|[<-|[]]].
    + destruct (Hmem s Hs) as [grp [Hget Hbucket]].
      destruct (JSFacts.opt_eqb_spec (FormattedStep.message s)
                  (FormattedStep.message x)) as [Heq|Hne].
      * rewrite Heq in *. exists pushed. split; [apply map_get_set_same|].
        intros Hp. apply Hmono. rewrite (Hsame grp Hget). auto.
      * exists grp. split; [|exact Hbucket].
        rewrite map_get_set_other by exact Hne.
        rewrite Hother by exact Hne. exact Hget.
    + exists pushed. split; [apply map_get_set_same|]. intros _. exact Hin.
Qed.

(** One round of the loop where the step goes to no bucket. *)
Lemma grouped_after_skip (done : list FormattedStep.t)
    (g g1 : MessageGroups) (x : FormattedStep.t) (old : MessageGroup) :
  grouped done g ->
  map_get (FormattedStep.message x) g1 = Some old ->
  (forall o, map_get (FormattedStep.message x) g = Some o -> old = o) ->
  (forall k, k <> FormattedStep.message x -> map_get k g1 = map_get k g) ->
  Forall groupSound g1 ->
  bucketTotal (map_values g1) = bucketTotal (map_values g) ->
  placed x = false ->
  grouped (done ++ [x]) g1.
Proof.
  intros [Hsound [Htotal Hmem]] Hold Hsame Hother Hsound1 Htotal1 Hplaced.
  split; [exact Hsound1|split].
  - rewrite filter_app, length_app. simpl. rewrite Hplaced. simpl. lia.
  - intros s Hs. apply in_app_or in Hs. destruct Hs as [Hs|[<-|[]]].
    + destruct (Hmem s Hs) as [grp [Hget Hbucket]].
      destruct (JSFacts.opt_eqb_spec (FormattedStep.message s)
                  (FormattedStep.message x)) as [Heq|Hne].
      * rewrite Heq in *. exists old. split; [exact Hold|].
        rewrite (Hsame grp Hget). exact Hbucket.
      * exists grp. split; [|exact Hbucket].
        rewrite Hother by exact Hne. exact Hget.
    + exists old. split; [exact Hold|]. congruence.
Qed.

Ltac push_round lemma :=
  match goal with
  | Hsold : groupSound (_, _) |- _ =>
      eapply grouped_after_push; eauto;
      [ unfold placed;
        repeat match goal with H : (_ =? _)%Z = _ |- _ => rewrite H end;
        reflexivity
      | destruct Hsold as (Hn & Hv & Ho & Hp); repeat split; simpl; auto;
        apply Forall_app; split; auto;
        constructor; [split; [apply Z.eqb_eq; assumption|reflexivity]
                     |constructor]
      | unfold bucketCount; simpl; rewrite length_app; simpl; lia
      | unfold bucketAt;
        repeat match goal with H : (_ =? _)%Z = _ |- _ => rewrite H end;
        simpl; apply in_or_app; right; left; reflexivity
      | intros; apply lemma; assumption ]
  end.

(** The loop body never throws, and keeps the loop invariant. *)
Lemma groupStep_grouped (done : list FormattedStep.t) (g : MessageGroups)
    (x : FormattedStep.t) :
  grouped done g ->
  exists g', groupStep g x = Normal g' /\ grouped (done ++ [x]) g'.
Proof.
  intros Hg. unfold groupStep.
  pose proof (ensure_group (FormattedStep.message x) g) as He.
  cbv zeta in He.
  destruct He as [[old [Hold Hsame]] [Hother [Hs1 Ht1]]].
  rewrite Hold.
  assert (Hsound1 : Forall groupSound
            (if negb (map_has (FormattedStep.message x) g)
             then map_set (FormattedStep.message x)
                    (emptyGroup (FormattedStep.message x)) g
             else g)) by (apply Hs1, Hg).
  assert (Hsold : groupSound (FormattedStep.message x, old)).
  { pose proof (map_get_In _ _ _ Hold) as Hin.
    rewrite Forall_forall in Hsound1. exact (Hsound1 _ Hin). }
  destruct (FormattedStep.stage x =? 10)%Z eqn:H10;
    [|destruct (FormattedStep.stage x =? 20)%Z eqn:H20;
      [|destruct (FormattedStep.stage x =? 40)%Z eqn:H40]];
    (eexists; split; [reflexivity|]).
  - push_round bucketAt_push_preValidation.
  - push_round bucketAt_push_preOperation.
  - push_round bucketAt_push_postOperation.
  - eapply grouped_after_skip; eauto.
    unfold placed. rewrite H10, H20, H40. reflexivity.
Qed.

Lemma grouped_nil : grouped [] [].
Proof.
  split; [constructor|split; [reflexivity|]]. intros s [].
Qed.

(** The whole loop: it ends normally, with the invariant for all the
    steps. *)
Lemma forEach_groupStep_grouped (l done : list FormattedStep.t)
    (g : MessageGroups) :
  grouped done g ->
  exists g', forEach groupStep l g = Normal g' /\ grouped (done ++ l) g'.
Proof.
  revert done g. induction l as [|x l IH]; intros done g Hg; simpl.
  - exists g. rewrite app_nil_r. split; [reflexivity|exact Hg].
  - destruct (groupStep_grouped done g x Hg) as [g1 [Hstep Hg1]].
    rewrite Hstep. destruct (IH _ _ Hg1) as [g' [Hloop Hg']].
    exists g'. split; [exact Hloop|].
    rewrite <- app_assoc in Hg'. exact Hg'.
Qed.

Lemma forEach_groupStep_total (l : list FormattedStep.t) :
  exists g, forEach groupStep l [] = Normal g /\ grouped l g.
Proof. exact (forEach_groupStep_grouped l [] [] grouped_nil). Qed.

End GroupingFacts.

(* ===================================================================== *)
(** ** PluginService: the entity pipeline *)
(* ===================================================================== *)

Module PipelineFacts.
Import PluginService ServiceFacts Report GroupingFacts.

(** What a successful run of [getEntityPluginPipeline] went through. *)
Lemma getEntityPluginPipeline_inv (client : PowerPlatformClient)
    (entityName : jsstring) (messageFilter : option jsstring)
    (includeDisabled : bool) (log : list Request) (r : EntityPipeline.t) :
  run (getEntityPluginPipeline client entityName messageFilter
         includeDisabled) = (log, Normal r) ->
  exists resp assemblyMap allImages groups,
    client (stepsOfEntity entityName messageFilter includeDisabled)
      = Normal resp
    /\ EntityPipeline.steps r
       = map (formatStep assemblyMap allImages) (value resp)
    /\ forEach groupStep (EntityPipeline.steps r) [] = Normal groups
    /\ EntityPipeline.messages r = map_values groups
    /\ EntityPipeline.executionOrder r
       = map FormattedStep.name (EntityPipeline.steps r)
    /\ EntityPipeline.entity r = entityName.
Proof.
  unfold run, getEntityPluginPipeline. rewrite bind_request.
  destruct (client (stepsOfEntity entityName messageFilter includeDisabled))
    as [resp|e]; [|discriminate].
  intros H.
  apply bind_inv in H. destruct H as [assemblyMap [log1 [_ H]]].
  apply bind_inv in H. destruct H as [allImages [log2 [_ H]]].
  rewrite bind_lift in H.
  destruct (forEach groupStep
              (map (formatStep assemblyMap allImages) (value resp)) [])
    as [groups|e] eqn:Hgroups; [|discriminate].
  unfold ret in H. inversion H; subst; simpl.
  exists resp, assemblyMap, allImages, groups. repeat split. exact Hgroups.
Qed.

(** When every lookup of a plugin type answers, the loop over the
    plugin-type ids ends normally. *)
Lemma fetchAssemblies_total (client : PowerPlatformClient)
    (pluginTypeIds : list jsstring) (assemblyMap : AssemblyMap)
    (log : list Request) :
  (forall typeId, exists v, client (plugintype_by_id typeId) = Normal v) ->
  exists log' assemblyMap',
    fetchAssemblies client pluginTypeIds assemblyMap log
    = (log', Normal assemblyMap').
Proof.
  intros Hclient. revert assemblyMap log.
  induction pluginTypeIds as [|typeId rest IH]; intros assemblyMap log;
    cbn [fetchAssemblies].
  - eexists _, _. reflexivity.
  - rewrite bind_request. destruct (Hclient typeId) as [v Hv]. rewrite Hv.
    apply IH.
Qed.

(** When the remote calls answer, the method returns: nothing in the
    steps fetched makes it throw. *)
Lemma getEntityPluginPipeline_total (client : PowerPlatformClient)
    (entityName : jsstring) (messageFilter : option jsstring)
    (includeDisabled : bool) :
  (forall req, exists v, client req = Normal v) ->
  exists log r,
    run (getEntityPluginPipeline client entityName messageFilter
           includeDisabled) = (log, Normal r).
Proof.
  intros Hclient. unfold run, getEntityPluginPipeline.
  rewrite bind_request.
  destruct (Hclient (stepsOfEntity entityName messageFilter includeDisabled))
    as [resp Hresp].
  rewrite Hresp. unfold bind at 1.
  destruct (fetchAssemblies_total client
              (dedup [] (nonNull (map Step._plugintypeid_value (value resp))))
              [] ([] ++ [stepsOfEntity entityName messageFilter
                           includeDisabled])
              (fun typeId => Hclient (plugintype_by_id typeId)))
    as [log1 [assemblyMap Hmap]].
  rewrite Hmap. unfold bind at 1. rewrite fetchImages_run.
  set (stepIds := map Step.sdkmessageprocessingstepid (value resp)).
  assert (Himages : exists log2 allImages,
             match stepIds with
             | [] => (log1, Normal [])
             | _ :: _ =>
                 match client (imagesOfSteps stepIds) with
                 | Normal images =>
                     (log1 ++ [imagesOfSteps stepIds], Normal (value images))
                 | Throw e => (log1 ++ [imagesOfSteps stepIds], Throw e)
                 end
             end = (log2, Normal allImages)).
  { destruct stepIds as [|id ids]; [eexists _, _; reflexivity|].
    destruct (Hclient (imagesOfSteps (id :: ids))) as [images Himg].
    rewrite Himg. eexists _, _. reflexivity. }
  destruct Himages as [log2 [allImages Himages]]. rewrite Himages.
  rewrite bind_lift.
  destruct (forEach_groupStep_total
              (map (formatStep assemblyMap allImages) (value resp)))
    as [groups [Hgroups _]].
  rewrite Hgroups. eexists _, _. reflexivity.
Qed.

(** The groups of a successful run satisfy the loop invariant for the
    steps returned. *)
Lemma pipeline_grouped (client : PowerPlatformClient)
    (entityName : jsstring) (messageFilter : option jsstring)
    (includeDisabled : bool) (log : list Request) (r : EntityPipeline.t) :
  run (getEntityPluginPipeline client entityName messageFilter
         includeDisabled) = (log, Normal r) ->
  exists groups,
    EntityPipeline.messages r = map_values groups
    /\ grouped (EntityPipeline.steps r) groups.
Proof.
  intros H. apply getEntityPluginPipeline_inv in H.
  destruct H as (resp & amap & imgs & groups & _ & _ & Hloop & Hmsg & _).
  exists groups. split; [exact Hmsg|].
  destruct (forEach_groupStep_total (EntityPipeline.steps r))
    as [g [Hg Hgrouped]].
  congruence.
Qed.







(** Every returned step has the group of its message among
    [messages], and sits in the bucket of its stage there when the
    stage is 10, 20 or 40. *)
Lemma step_group (client : PowerPlatformClient) (entityName : jsstring)
    (messageFilter : option jsstring) (includeDisabled : bool)
    (log : list Request) (r : EntityPipeline.t) :
  run (getEntityPluginPipeline client entityName messageFilter
         includeDisabled) = (log, Normal r) ->
  forall s, In s (EntityPipeline.steps r) ->
    exists grp, In grp (EntityPipeline.messages r)
                /\ messageName grp = FormattedStep.message s
                /\ (placed s = true ->
                    In s (bucketAt (FormattedStep.stage s) grp)).
Proof.
  intros Hrun s Hs.
  destruct (pipeline_grouped _ _ _ _ _ _ Hrun)
    as [groups [Hmsg [Hsound [_ Hmem]]]].
  destruct (Hmem s Hs) as [grp [Hget Hbucket]].
  pose proof (map_get_In _ _ _ Hget) as Hin.
  exists grp. split; [|split].
  - rewrite Hmsg. unfold map_values.
    change grp with (snd (FormattedStep.message s, grp)).
    apply in_map. exact Hin.
  - rewrite Forall_forall in Hsound. destruct (Hsound _ Hin) as [Hname _].
    exact Hname.
  - exact Hbucket.
Qed.

(** Whatever sits in a bucket has the stage of the bucket and the
    message of the group. *)
Lemma bucket_members (client : PowerPlatformClient) (entityName : jsstring)
    (messageFilter : option jsstring) (includeDisabled : bool)
    (log : list Request) (r : EntityPipeline.t) :
  run (getEntityPluginPipeline client entityName messageFilter
         includeDisabled) = (log, Normal r) ->
  forall grp, In grp (EntityPipeline.messages r) ->
    Forall (fun s => FormattedStep.stage s = 10%Z
                     /\ FormattedStep.message s = messageName grp)
           (preValidation (stages grp))
    /\ Forall (fun s => FormattedStep.stage s = 20%Z
                        /\ FormattedStep.message s = messageName grp)
              (preOperation (stages grp))
    /\ Forall (fun s => FormattedStep.stage s = 40%Z
                        /\ FormattedStep.message s = messageName grp)
              (postOperation (stages grp)).
Proof.
  intros Hrun grp Hgrp.
  destruct (pipeline_grouped _ _ _ _ _ _ Hrun) as [groups [Hmsg [Hsound _]]].
  rewrite Hmsg in Hgrp. unfold map_values in Hgrp.
  apply in_map_iff in Hgrp. destruct Hgrp as [[k grp'] [Hk Hin]].
  simpl in Hk. subst grp'.
  rewrite Forall_forall in Hsound.
  destruct (Hsound _ Hin) as (Hname & Hv & Ho & Hp). simpl in *.
  rewrite Hname. auto.
Qed.

Lemma bucket_member_placed (client : PowerPlatformClient)
    (entityName : jsstring) (messageFilter : option jsstring)
    (includeDisabled : bool) (log : list Request) (r : EntityPipeline.t) :
  run (getEntityPluginPipeline client entityName messageFilter
         includeDisabled) = (log, Normal r) ->
  forall grp s, In grp (EntityPipeline.messages r) -> inSomeBucket s grp ->
    placed s = true /\ FormattedStep.message s = messageName grp.
Proof.
  intros Hrun grp s Hgrp Hin.
  destruct (bucket_members _ _ _ _ _ _ Hrun grp Hgrp) as (Hv & Ho & Hp).
  rewrite Forall_forall in Hv, Ho, Hp. unfold placed.
  destruct Hin as [Hin|[Hin|Hin]];
    [destruct (Hv _ Hin) as [Hst Hm]
    |destruct (Ho _ Hin) as [Hst Hm]
    |destruct (Hp _ Hin) as [Hst Hm]];
    rewrite Hst; split; auto.
Qed.

(** C7, as stated, fails: the step whose message did not resolve is
    in a bucket of a group of [messages], the group keyed
    [undefined]. *)
Lemma unresolved_message_step_is_in_a_message_group :
  exists log r s grp,
    run (getEntityPluginPipeline
           (Scenarios.mockClient
              (Scenarios.serving Scenarios.unresolvedSteps []))
           Scenarios.account None false) = (log, Normal r)
    /\ In s (EntityPipeline.steps r)
    /\ FormattedStep.message s = None
    /\ In grp (EntityPipeline.messages r)
    /\ inSomeBucket s grp.
Proof.
  eexists _, _, _, _. split; [vm_compute; reflexivity|].
  split; [left; reflexivity|]. split; [reflexivity|].
  split; [left; reflexivity|].
  right. left. left. reflexivity.
Qed.

(** C7, amended. When the remote calls answer, the method returns,
    whatever the messages of the steps; a returned step whose message
    name did not resolve has its name in [executionOrder], and
    [messages] has a group whose [messageName] is [undefined], which
    holds the step in the bucket of its stage when the stage is 10, 20
    or 40. *)
Theorem unresolved_message_step_grouped_under_undefined
    (client : PowerPlatformClient) (entityName : jsstring)
    (messageFilter : option jsstring) (includeDisabled : bool) :
  (forall req, exists v, client req = Normal v) ->
  exists log r,
    run (getEntityPluginPipeline client entityName messageFilter
           includeDisabled) = (log, Normal r)
    /\ forall s, In s (EntityPipeline.steps r) ->
         FormattedStep.message s = None ->
         In (FormattedStep.name s) (EntityPipeline.executionOrder r)
         /\ exists grp, In grp (EntityPipeline.messages r)
                        /\ messageName grp = None
                        /\ (placed s = true ->
                            In s (bucketAt (FormattedStep.stage s) grp)).
Proof.
  intros Hclient.
  destruct (@getEntityPluginPipeline_total client entityName messageFilter
              includeDisabled Hclient) as [log [r Hrun]].
  exists log, r. split; [exact Hrun|].
  intros s Hs Hmsg. split.
  - pose proof (getEntityPluginPipeline_inv _ _ _ _ _ _ Hrun) as Hinv.
    destruct Hinv as (_ & _ & _ & _ & _ & _ & _ & _ & Horder & _).
    rewrite Horder. apply in_map. exact Hs.
  - destruct (step_group _ _ _ _ _ _ Hrun s Hs) as [grp [Hin [Hname Hb]]].
    exists grp. rewrite Hname, Hmsg. auto.
Qed.

Lemma mockClient_serving_answers (steps : list Step.t)
    (images : list Image.t) (req : Request) :
  exists v, Scenarios.mockClient (Scenarios.serving steps images) req
            = Normal v.
Proof. destruct req; simpl; eexists; reflexivity. Qed.

Lemma unresolved_message_step_witness :
  exists log r,
    run (getEntityPluginPipeline
           (Scenarios.mockClient
              (Scenarios.serving Scenarios.unresolvedSteps []))
           Scenarios.account None false) = (log, Normal r)
    /\ forall s, In s (EntityPipeline.steps r) ->
         FormattedStep.message s = None ->
         In (FormattedStep.name s) (EntityPipeline.executionOrder r)
         /\ exists grp, In grp (EntityPipeline.messages r)
                        /\ messageName grp = None
                        /\ (placed s = true ->
                            In s (bucketAt (FormattedStep.stage s) grp)).
Proof.
  apply (@unresolved_message_step_grouped_under_undefined
           (Scenarios.mockClient
              (Scenarios.serving Scenarios.unresolvedSteps []))
           Scenarios.account None false).
  apply mockClient_serving_answers.
Defined.

Lemma placed_iff (s : FormattedStep.t) :
  placed s = true
  <-> FormattedStep.stage s = 10%Z \/ FormattedStep.stage s = 20%Z
      \/ FormattedStep.stage s = 40%Z.
Proof.
  unfold placed. rewrite !orb_true_iff, !Z.eqb_eq. tauto.
Qed.

Lemma formatStep_stageName (assemblyMap : AssemblyMap)
    (allImages : list Image.t) (raw : Step.t) :
  Step.stage raw <> 10%Z -> Step.stage raw <> 20%Z ->
  FormattedStep.stageName (formatStep assemblyMap allImages raw)
  = PostOperation.
Proof.
  intros H10 H20. simpl.
  destruct (Z.eqb_spec (Step.stage raw) 10); [contradiction|].
  destruct (Z.eqb_spec (Step.stage raw) 20); [contradiction|].
  reflexivity.
Qed.

(** C9. For every pipeline returned: a step whose stage is neither 10
    nor 20 is labelled ['PostOperation'], whatever the stage; a step
    with stage 10, 20 or 40 is in the bucket of that stage of the group
    of its message; whatever is in a bucket has stage 10, 20 or 40; and
    a fetched step with any other stage is in the flat list, labelled
    ['PostOperation'], with its name in [executionOrder], and in no
    bucket of any group. *)
Theorem stage_label_and_bucket_placement
    (client : PowerPlatformClient) (entityName : jsstring)
    (messageFilter : option jsstring) (includeDisabled : bool)
    (resp : ApiCollectionResponse Step.t)
    (log : list Request) (r : EntityPipeline.t) :
  client (stepsOfEntity entityName messageFilter includeDisabled)
    = Normal resp ->
  run (getEntityPluginPipeline client entityName messageFilter
         includeDisabled) = (log, Normal r) ->
  (forall s, In s (EntityPipeline.steps r) ->
     FormattedStep.stage s <> 10%Z -> FormattedStep.stage s <> 20%Z ->
     FormattedStep.stageName s = PostOperation)
  /\ (forall s, In s (EntityPipeline.steps r) ->
        FormattedStep.stage s = 10%Z \/ FormattedStep.stage s = 20%Z
        \/ FormattedStep.stage s = 40%Z ->
        exists grp, In grp (EntityPipeline.messages r)
                    /\ messageName grp = FormattedStep.message s
                    /\ In s (bucketAt (FormattedStep.stage s) grp))
  /\ (forall grp s, In grp (EntityPipeline.messages r) ->
        inSomeBucket s grp ->
        FormattedStep.stage s = 10%Z \/ FormattedStep.stage s = 20%Z
        \/ FormattedStep.stage s = 40%Z)
  /\ (forall raw, In raw (value resp) ->
        Step.stage raw <> 10%Z -> Step.stage raw <> 20%Z ->
        Step.stage raw <> 40%Z ->
        exists s, In s (EntityPipeline.steps r)
                  /\ FormattedStep.name s = Step.name raw
                  /\ FormattedStep.stage s = Step.stage raw
                  /\ FormattedStep.stageName s = PostOperation
                  /\ In (Step.name raw) (EntityPipeline.executionOrder r)
                  /\ forall grp, In grp (EntityPipeline.messages r) ->
                                 ~ inSomeBucket s grp).
Proof.
  intros Hresp Hrun.
  pose proof (getEntityPluginPipeline_inv _ _ _ _ _ _ Hrun) as Hinv.
  destruct Hinv as (resp' & amap & imgs & g & Hresp' & Hsteps & _ & _
                    & Horder & _).
  assert (resp' = resp) by congruence. subst resp'.
  split; [|split; [|split]].
  - intros s Hs H10 H20. rewrite Hsteps in Hs.
    apply in_map_iff in Hs. destruct Hs as [raw [<- _]].
    apply formatStep_stageName; assumption.
  - intros s Hs Hstage. apply placed_iff in Hstage.
    destruct (step_group _ _ _ _ _ _ Hrun s Hs) as [grp [Hin [Hname Hb]]].
    exists grp. auto.
  - intros grp s Hgrp Hin. apply placed_iff.
    exact (proj1 (bucket_member_placed _ _ _ _ _ _ Hrun grp s Hgrp Hin)).
  - intros raw Hraw H10 H20 H40.
    exists (formatStep amap imgs raw).
    assert (Hs : In (formatStep amap imgs raw) (EntityPipeline.steps r)).
    { rewrite Hsteps. apply in_map. exact Hraw. }
    split; [exact Hs|]. split; [reflexivity|]. split; [reflexivity|].
    split; [apply formatStep_stageName; assumption|].
    split.
    + rewrite Horder.
      change (Step.name raw)
        with (FormattedStep.name (formatStep amap imgs raw)).
      apply in_map. exact Hs.
    + intros grp Hgrp Hin.
      pose proof (proj1 (bucket_member_placed _ _ _ _ _ _ Hrun grp _ Hgrp Hin))
        as Hplaced.
      apply placed_iff in Hplaced. simpl in Hplaced. tauto.
Qed.

Lemma stage_label_and_bucket_placement_witness :
  exists log r,
    run (getEntityPluginPipeline
           (Scenarios.mockClient
              (Scenarios.serving Scenarios.mainOperationSteps []))
           Scenarios.account None false) = (log, Normal r)
    /\ EntityPipeline.executionOrder r
       = [js "Validate update"; js "Main operation"; js "After create"]
    /\ map FormattedStep.stageName (EntityPipeline.steps r)
       = [PreValidation; PostOperation; PostOperation]
    /\ map bucketCount (EntityPipeline.messages r) = [1; 1]
    /\ forall grp s, In grp (EntityPipeline.messages r) ->
         inSomeBucket s grp ->
         FormattedStep.stage s = 10%Z \/ FormattedStep.stage s = 20%Z
         \/ FormattedStep.stage s = 40%Z.
Proof.
  eexists _, _. split; [vm_compute; reflexivity|].
  split; [reflexivity|]. split; [reflexivity|]. split; [reflexivity|].
  refine (proj1 (proj2 (proj2
    (@stage_label_and_bucket_placement
       (Scenarios.mockClient
          (Scenarios.serving Scenarios.mainOperationSteps []))
       Scenarios.account None false
       {| value := Scenarios.mainOperationSteps |} _ _ eq_refl eq_refl)))).
Defined.

(** The entity pipeline over no step: one request, the step query. *)
Lemma getEntityPluginPipeline_no_steps (client : PowerPlatformClient)
    (entityName : jsstring) (messageFilter : option jsstring)
    (includeDisabled : bool) (resp : ApiCollectionResponse Step.t) :
  client (stepsOfEntity entityName messageFilter includeDisabled)
    = Normal resp ->
  value resp = [] ->
  run (getEntityPluginPipeline client entityName messageFilter
         includeDisabled)
  = ( [stepsOfEntity entityName messageFilter includeDisabled],
      Normal {| EntityPipeline.entity := entityName;
                EntityPipeline.messages := [];
                EntityPipeline.steps := [];
                EntityPipeline.executionOrder := [] |} ).
Proof.
  intros Hresp Hnil. unfold run, getEntityPluginPipeline.
  rewrite bind_request, Hresp, Hnil. reflexivity.
Qed.

(** The assembly view over no step: the assembly and plugin-type
    queries, the step query when there are plugin types, and nothing
    else. *)
Lemma getPluginAssemblyComplete_no_steps (client : PowerPlatformClient)
    (assemblyName : jsstring) (includeDisabled : bool)
    (assemblies : ApiCollectionResponse Assembly.t)
    (assembly : Assembly.t) (rest : list Assembly.t)
    (pluginTypes : ApiCollectionResponse PluginType.t) :
  client (assemblyByName assemblyName) = Normal assemblies ->
  value assemblies = assembly :: rest ->
  client (typesOfAssembly (Assembly.pluginassemblyid assembly))
    = Normal pluginTypes ->
  (value pluginTypes = []
   \/ exists steps,
        client (stepsOfTypes (map PluginType.plugintypeid (value pluginTypes))
                  includeDisabled) = Normal steps
        /\ value steps = []) ->
  exists log,
    run (getPluginAssemblyComplete client assemblyName includeDisabled)
    = ( log,
        Normal {| AssemblyComplete.assembly := assembly;
                  AssemblyComplete.pluginTypes := value pluginTypes;
                  AssemblyComplete.steps := [];
                  AssemblyComplete.validation := emptyValidation |} )
    /\ forall filter, ~ In (sdkmessageprocessingstepimages filter) log.
Proof.
  intros Hasm Hvalue Htypes Hsteps.
  unfold run, getPluginAssemblyComplete.
  rewrite bind_request, Hasm, Hvalue. cbv iota beta zeta.
  rewrite bind_request, Htypes.
  destruct Hsteps as [Hnone | [steps [Hsteps Hnil]]].
  - rewrite Hnone. eexists. split; [reflexivity|].
    intros filter [H|[H|[]]]; discriminate H.
  - destruct (value pluginTypes) as [|pt pts] eqn:Hpts.
    + eexists. split; [reflexivity|].
      intros filter [H|[H|[]]]; discriminate H.
    + unfold bind at 1.
      change (0 <? length (map PluginType.plugintypeid (pt :: pts)))%nat
        with true.
      cbv iota. rewrite bind_request, Hsteps, Hnil.
      eexists. split; [reflexivity|].
      intros filter [H|[H|[H|[]]]]; discriminate H.
Qed.

(** C8. With an empty id list the image lookup issues no request and
    yields no image; so in both methods, when no step is fetched, the
    run succeeds without a request to the image entity set and
    returns an empty [steps] collection. *)
Theorem no_image_query_without_steps
    (entityClient assemblyClient : PowerPlatformClient)
    (entityName : jsstring) (messageFilter : option jsstring)
    (includeDisabled : bool) (resp : ApiCollectionResponse Step.t)
    (assemblyName : jsstring) (withDisabled : bool)
    (assemblies : ApiCollectionResponse Assembly.t)
    (assembly : Assembly.t) (rest : list Assembly.t)
    (pluginTypes : ApiCollectionResponse PluginType.t) :
  entityClient (stepsOfEntity entityName messageFilter includeDisabled)
    = Normal resp ->
  value resp = [] ->
  assemblyClient (assemblyByName assemblyName) = Normal assemblies ->
  value assemblies = assembly :: rest ->
  assemblyClient (typesOfAssembly (Assembly.pluginassemblyid assembly))
    = Normal pluginTypes ->
  (value pluginTypes = []
   \/ exists steps,
        assemblyClient
          (stepsOfTypes (map PluginType.plugintypeid (value pluginTypes))
             withDisabled) = Normal steps
        /\ value steps = []) ->
  (forall client log, fetchImages client [] log = (log, Normal []))
  /\ (exists log r,
        run (getEntityPluginPipeline entityClient entityName messageFilter
               includeDisabled) = (log, Normal r)
        /\ EntityPipeline.steps r = []
        /\ EntityPipeline.messages r = []
        /\ EntityPipeline.executionOrder r = []
        /\ forall filter, ~ In (sdkmessageprocessingstepimages filter) log)
  /\ (exists log r,
        run (getPluginAssemblyComplete assemblyClient assemblyName
               withDisabled) = (log, Normal r)
        /\ AssemblyComplete.steps r = []
        /\ AssemblyComplete.validation r = emptyValidation
        /\ forall filter, ~ In (sdkmessageprocessingstepimages filter) log).
Proof.
  intros Hresp Hnil Hasm Hvalue Htypes Hsteps.
  split; [|split].
  - intros client log. apply fetchImages_run.
  - eexists _, _. split.
    + apply (getEntityPluginPipeline_no_steps _ _ _ _ _ Hresp Hnil).
    + repeat split. intros filter [H|[]]. discriminate H.
  - destruct (getPluginAssemblyComplete_no_steps _ _ _ _ _ _ _
                Hasm Hvalue Htypes Hsteps) as [log [Hrun Hlog]].
    eexists _, _. split; [exact Hrun|]. repeat split. exact Hlog.
Qed.

Lemma no_image_query_without_steps_witness :
  run (getEntityPluginPipeline (Scenarios.mockClient Scenarios.noSteps)
         Scenarios.account None false)
  = ( [stepsOfEntity Scenarios.account None false],
      Normal {| EntityPipeline.entity := Scenarios.account;
                EntityPipeline.messages := [];
                EntityPipeline.steps := [];
                EntityPipeline.executionOrder := [] |} )
  /\ (exists log r,
        run (getPluginAssemblyComplete
               (Scenarios.mockClient Scenarios.noSteps)
               Scenarios.contosoName false) = (log, Normal r)
        /\ AssemblyComplete.steps r = []
        /\ AssemblyComplete.validation r = emptyValidation
        /\ forall filter, ~ In (sdkmessageprocessingstepimages filter) log).
Proof.
  split; [vm_compute; reflexivity|].
  refine (proj2 (proj2
    (no_image_query_without_steps
       (Scenarios.mockClient Scenarios.noSteps)
       (Scenarios.mockClient Scenarios.noSteps)
       Scenarios.account None false {| value := [] |}
       Scenarios.contosoName false
       {| value := [Scenarios.contoso] |} Scenarios.contoso []
       {| value := [Scenarios.contosoType] |}
       eq_refl eq_refl eq_refl eq_refl eq_refl _))).
  right. exists {| value := [] |}. split; reflexivity.
Defined.

(** The scenario of the specification: two message groups, and the
    execution order by stage whatever the messages. *)
Example account_pipeline :
  exists log r,
    run (getEntityPluginPipeline
           (Scenarios.mockClient
              (Scenarios.serving Scenarios.accountSteps []))
           Scenarios.account None false) = (log, Normal r)
    /\ map messageName (EntityPipeline.messages r)
       = [Some Update; Some Create]
    /\ EntityPipeline.executionOrder r
       = [js "Validate update"; js "Prepare update"; js "After create"].
Proof.
  eexists _, _. split; [vm_compute; reflexivity|]. split; reflexivity.
Qed.

End PipelineFacts.

(* ===================================================================== *)
(** ** PluginService: parsing trace logs *)
(* ===================================================================== *)

Module TraceLogFacts.
Import PluginService ServiceFacts.

(** The first element of [split('\n')] is the first line. *)
Lemma split_newline_head (text : jsstring) :
  exists rest, split newline text = Spec.firstLine text :: rest.
Proof.
  induction text as [|x text [rest IH]]; simpl.
  - exists []. reflexivity.
  - destruct (N.eqb x newline).
    + eexists. reflexivity.
    + rewrite IH. exists rest. reflexivity.
Qed.

(** [indexOf(':')] is the position of the first colon, or -1. *)
Lemma indexOf_colon (s : jsstring) :
  indexOf colon s
  = match Spec.firstColon s with
    | Some i => Z.of_nat i
    | None => (-1)%Z
    end.
Proof.
  induction s as [|x s IH]; simpl; [reflexivity|].
  destruct (N.eqb x colon); [reflexivity|].
  rewrite IH. destruct (Spec.firstColon s) as [i|].
  - destruct (Z.ltb_spec (Z.of_nat i) 0); lia.
  - reflexivity.
Qed.

(** The pattern of [extractExceptionType] matches exactly when the
    first colon of the text is not its first unit, and captures what
    stands before that colon. *)
Lemma spanNotColon_firstColon (s : jsstring) :
  match Spec.firstColon s with
  | Some i => exists rest,
                spanNotColon s = (firstn i s, colon :: rest)
  | None => spanNotColon s = (s, [])
  end.
Proof.
  induction s as [|x s IH]; simpl; [reflexivity|].
  destruct (N.eqb_spec x colon) as [->|Hx].
  - exists s. reflexivity.
  - destruct (Spec.firstColon s) as [i|].
    + destruct IH as [rest IH]. rewrite IH. exists rest. reflexivity.
    + rewrite IH. reflexivity.
Qed.

Lemma matchTypePattern_firstColon (s : jsstring) :
  matchTypePattern s
  = match Spec.firstColon s with
    | Some (S i) => Some (firstn (S i) s)
    | _ => None
    end.
Proof.
  destruct s as [|x s]; [reflexivity|].
  unfold matchTypePattern.
  pose proof (spanNotColon_firstColon (x :: s)) as H.
  destruct (Spec.firstColon (x :: s)) as [[|i]|].
  - destruct H as [rest ->]. reflexivity.
  - destruct H as [rest ->]. reflexivity.
  - rewrite H. reflexivity.
Qed.

(** A colon on the first line is the first colon of the text, and the
    text before it is on the first line. *)
Lemma firstColon_firstLine (text : jsstring) (i : nat) :
  Spec.firstColon (Spec.firstLine text) = Some i ->
  Spec.firstColon text = Some i
  /\ firstn i text = firstn i (Spec.firstLine text).
Proof.
  revert i. induction text as [|x text IH]; intros i; simpl; [discriminate|].
  destruct (N.eqb_spec x newline) as [->|Hnl]; simpl; [discriminate|].
  destruct (N.eqb x colon).
  - intros [= <-]. split; reflexivity.
  - destruct (Spec.firstColon (Spec.firstLine text)) as [j|]; [|discriminate].
    intros [= <-]. destruct (IH j eq_refl) as [Hc Hf].
    rewrite Hc. simpl. rewrite Hf. split; reflexivity.
Qed.

Lemma firstColon_none_firstLine (text : jsstring) :
  Spec.firstColon text = None ->
  Spec.firstColon (Spec.firstLine text) = None.
Proof.
  induction text as [|x text IH]; simpl; [reflexivity|].
  destruct (N.eqb x colon) eqn:Hc; [discriminate|].
  destruct (Spec.firstColon text); [discriminate|]. intros _.
  destruct (N.eqb x newline); simpl; [reflexivity|].
  rewrite Hc, IH; reflexivity.
Qed.

(** [extractExceptionMessage], by the first colon of the first line. *)
Lemma extractExceptionMessage_firstColon (text : jsstring) :
  extractExceptionMessage text
  = match Spec.firstColon (Spec.firstLine text) with
    | Some (S i) => Some (trim (skipn (S (S i)) (Spec.firstLine text)))
    | _ => None
    end.
Proof.
  unfold extractExceptionMessage.
  destruct (split_newline_head text) as [rest ->].
  rewrite indexOf_colon.
  destruct (Spec.firstColon (Spec.firstLine text)) as [[|i]|];
    [reflexivity| |reflexivity].
  destruct (Z.ltb_spec 0 (Z.of_nat (S i))); [|lia].
  unfold substring.
  replace (Z.to_nat (Z.max 0 (Z.of_nat (S i) + 1))) with (S (S i)) by lia.
  reflexivity.
Qed.

Lemma extractExceptionType_firstColon (text : jsstring) :
  extractExceptionType text
  = match Spec.firstColon text with
    | Some (S i) => Some (trim (firstn (S i) text))
    | _ => None
    end.
Proof.
  unfold extractExceptionType. rewrite matchTypePattern_firstColon.
  destruct (Spec.firstColon text) as [[|i]|]; reflexivity.
Qed.

(** The method returns for every answer of the remote. *)
Lemma getPluginTraceLogs_run (client : PowerPlatformClient)
    (dateThresholdISO : Z -> option jsstring) (options : TraceLogOptions)
    (dateThreshold : jsstring) (resp : ApiCollectionResponse TraceLog.t) :
  dateThresholdISO (hoursBackOf options) = Some dateThreshold ->
  client (traceLogQuery dateThreshold options) = Normal resp ->
  run (getPluginTraceLogs client dateThresholdISO options)
  = ( [traceLogQuery dateThreshold options],
      Normal {| totalCount := length (map parseLog (value resp));
                logs := map parseLog (value resp) |} ).
Proof.
  intros Hdate Hresp. unfold run, getPluginTraceLogs.
  rewrite Hdate, bind_request, Hresp. reflexivity.
Qed.

(** C6, as stated, fails on a text that opens with a colon: the claim
    gives the empty type and the message ["abc"], the method gives
    [null] for both. *)
Lemma leading_colon_parses_to_null :
  exists log r p,
    run (getPluginTraceLogs
           (Scenarios.mockClient
              (Scenarios.servingLogs
                 [Scenarios.mkLog (Some Scenarios.leadingColon)]))
           Scenarios.clock Scenarios.noOptions) = (log, Normal r)
    /\ map parsed (logs r) = [p]
    /\ exceptionType p = None
    /\ Spec.exceptionType Scenarios.leadingColon = Some []
    /\ exceptionMessage p = None
    /\ Spec.exceptionMessage Scenarios.leadingColon = Some (js "abc").
Proof.
  eexists _, _, _. split; [vm_compute; reflexivity|].
  repeat split.
Qed.

(** C6, amended. With a date threshold that [toISOString] can print,
    the method returns for every answer of the remote, with one parsed
    record per log. For a log with non-empty exception
    text: when the first line has a colon that is not its first unit,
    [exceptionType] is the text before that colon, trimmed, and
    [exceptionMessage] the rest of the first line after it, trimmed;
    when the first line opens with a colon both are [null]; when the
    first line has no colon [exceptionMessage] is [null]; when the text
    has no colon at all both are [null]. For a log without exception
    text both are [null] and [hasException] is false. *)
Theorem parsed_exception_fields (client : PowerPlatformClient)
    (dateThresholdISO : Z -> option jsstring) (options : TraceLogOptions)
    (dateThreshold : jsstring) (resp : ApiCollectionResponse TraceLog.t) :
  dateThresholdISO (hoursBackOf options) = Some dateThreshold ->
  client (traceLogQuery dateThreshold options) = Normal resp ->
  run (getPluginTraceLogs client dateThresholdISO options)
  = ( [traceLogQuery dateThreshold options],
      Normal {| totalCount := length (value resp);
                logs := map parseLog (value resp) |} )
  /\ (forall l d, In l (value resp) ->
        TraceLog.exceptiondetails l = Some d -> d <> [] ->
        let p := parsed (parseLog l) in
        hasException p = true
        /\ (forall i, Spec.firstColon (Spec.firstLine d) = Some (S i) ->
              exceptionType p = Spec.exceptionType d
              /\ exceptionMessage p = Spec.exceptionMessage d)
        /\ (Spec.firstColon (Spec.firstLine d) = Some 0 ->
            exceptionType p = None /\ exceptionMessage p = None)
        /\ (Spec.firstColon (Spec.firstLine d) = None ->
            exceptionMessage p = None)
        /\ (Spec.firstColon d = None ->
            exceptionType p = None /\ exceptionMessage p = None))
  /\ (forall l, In l (value resp) ->
        TraceLog.exceptiondetails l = None
        \/ TraceLog.exceptiondetails l = Some [] ->
        let p := parsed (parseLog l) in
        hasException p = false /\ exceptionType p = None
        /\ exceptionMessage p = None).
Proof.
  intros Hdate Hresp. split; [|split].
  - rewrite (getPluginTraceLogs_run _ _ _ _ _ Hdate Hresp), length_map.
    reflexivity.
  - intros l d _ Hd Hne. simpl. rewrite Hd.
    destruct d as [|x d]; [congruence|].
    cbn [opt_truthy truthy].
    rewrite extractExceptionType_firstColon,
      extractExceptionMessage_firstColon.
    split; [reflexivity|]. split; [|split; [|split]].
    + intros i Hi.
      destruct (firstColon_firstLine _ _ Hi) as [Hc Hf].
      unfold Spec.exceptionType, Spec.exceptionMessage.
      rewrite Hc, Hi, Hf. split; reflexivity.
    + intros H0. destruct (firstColon_firstLine _ _ H0) as [Hc _].
      rewrite Hc, H0. split; reflexivity.
    + intros Hnone. rewrite Hnone. reflexivity.
    + intros Hnone. rewrite (firstColon_none_firstLine _ Hnone), Hnone.
      split; reflexivity.
  - intros l _ [Hd|Hd]; simpl; rewrite Hd; repeat split.
Qed.

Lemma parsed_exception_fields_witness :
  let l := Scenarios.mkLog (Some Scenarios.nullReference) in
  exceptionType (parsed (parseLog l))
    = Spec.exceptionType Scenarios.nullReference
  /\ exceptionMessage (parsed (parseLog l))
     = Spec.exceptionMessage Scenarios.nullReference.
Proof.
  intros l.
  refine (proj1 (proj2 (proj1 (proj2
    (parsed_exception_fields
       (Scenarios.mockClient (Scenarios.servingLogs [l]))
       Scenarios.clock Scenarios.noOptions (js "2026-01-01T00:00:00.000Z")
       {| value := [l] |} eq_refl eq_refl))
    l Scenarios.nullReference (or_introl eq_refl) eq_refl _)) 28 eq_refl).
  discriminate.
Defined.

(** The scenario of the specification. *)
Example nullReference_parsed :
  parsed (parseLog (Scenarios.mkLog (Some Scenarios.nullReference)))
  = {| hasException := true;
       exceptionType := Some (js "System.NullReferenceException");
       exceptionMessage := Some (js "Object reference not set");
       stackTrace := Some Scenarios.nullReference |}.
Proof. reflexivity. Qed.

(** Texts without colon, without line feed, and the empty text. *)
Example no_colon_parsed :
  parsed (parseLog (Scenarios.mkLog (Some (js "plain failure"))))
  = {| hasException := true; exceptionType := None;
       exceptionMessage := None;
       stackTrace := Some (js "plain failure") |}.
Proof. reflexivity. Qed.

Example empty_text_parsed :
  parsed (parseLog (Scenarios.mkLog (Some [])))
  = {| hasException := false; exceptionType := None;
       exceptionMessage := None; stackTrace := Some [] |}.
Proof. reflexivity. Qed.

(** The type pattern is not confined to the first line: with the first
    colon on the second line the type spans both lines, while the
    message, read from the first line, is [null]. *)
Example colon_on_second_line_parsed :
  parsed (parseLog (Scenarios.mkLog (Some Scenarios.colonOnSecondLine)))
  = {| hasException := true;
       exceptionType :=
         Some (js "Unexpected fault" ++ [newline] ++ js "System.Exception");
       exceptionMessage := None;
       stackTrace := Some Scenarios.colonOnSecondLine |}.
Proof. reflexivity. Qed.

End TraceLogFacts.

(* ===================================================================== *)
(** ** PluginService: the groups as a function of the steps *)
(* ===================================================================== *)

Module GroupsOfFacts.
Import PluginService ServiceFacts Report GroupingFacts Grouping.

Lemma opt_eqb_sym (a b : option jsstring) : opt_eqb a b = opt_eqb b a.
Proof.
  destruct (JSFacts.opt_eqb_spec a b), (JSFacts.opt_eqb_spec b a);
    congruence.
Qed.

Lemma In_firsts (k : option jsstring) (l : list (option jsstring)) :
  In k (firsts l) <-> In k l.
Proof.
  induction l as [|y l IH]; simpl; [tauto|].
  rewrite filter_In, IH.
  destruct (JSFacts.opt_eqb_spec y k) as [->|Hne]; simpl.
  - tauto.
  - split; [tauto|]. intros [H|H]; [congruence|]. right. tauto.
Qed.

Lemma NoDup_firsts (l : list (option jsstring)) : NoDup (firsts l).
Proof.
  induction l as [|y l IH]; simpl; constructor.
  - rewrite filter_In. intros [_ H].
    destruct (JSFacts.opt_eqb_spec y y); [discriminate H|congruence].
  - apply NoDup_filter. exact IH.
Qed.

(** A new last element joins the distinct values when it is new. *)
Lemma firsts_snoc (l : list (option jsstring)) (k : option jsstring) :
  (In k l -> firsts (l ++ [k]) = firsts l)
  /\ (~ In k l -> firsts (l ++ [k]) = firsts l ++ [k]).
Proof.
  induction l as [|y l [IHin IHout]]; simpl.
  - split; [tauto|reflexivity].
  - destruct (JSFacts.opt_eqb_spec y k) as [->|Hne].
    + split; [intros _|tauto].
      destruct (in_dec (fun a b => reflect_dec _ _ (JSFacts.opt_eqb_spec a b))
                  k l) as [Hin|Hout].
      * rewrite (IHin Hin). reflexivity.
      * rewrite (IHout Hout), filter_app. simpl.
        destruct (JSFacts.opt_eqb_spec k k); [|congruence].
        simpl. rewrite app_nil_r. reflexivity.
    + split.
      * intros [H|Hin]; [congruence|]. rewrite (IHin Hin). reflexivity.
      * intros Hout. assert (Hout' : ~ In k l) by tauto.
        rewrite (IHout Hout'), filter_app. simpl.
        destruct (JSFacts.opt_eqb_spec y k); [congruence|]. reflexivity.
Qed.

Lemma bucketOf_snoc (k : option jsstring) (stage : Z)
    (done : list FormattedStep.t) (x : FormattedStep.t) :
  bucketOf k stage (done ++ [x])
  = bucketOf k stage done
    ++ (if opt_eqb (FormattedStep.message x) k
           && (FormattedStep.stage x =? stage)%Z
        then [x] else []).
Proof.
  unfold bucketOf. rewrite filter_app. simpl.
  destruct (opt_eqb (FormattedStep.message x) k
            && (FormattedStep.stage x =? stage)%Z); reflexivity.
Qed.

(** No step of a message: empty buckets. *)
Lemma groupOf_absent (done : list FormattedStep.t) (k : option jsstring) :
  ~ In k (map FormattedStep.message done) -> groupOf done k = emptyGroup k.
Proof.
  intros Hout. unfold groupOf, emptyGroup, bucketOf.
  assert (Hnone : forall st,
             filter (fun s => opt_eqb (FormattedStep.message s) k
                              && (FormattedStep.stage s =? st)%Z) done = []).
  { intros st. induction done as [|s done IH]; simpl; [reflexivity|].
    destruct (JSFacts.opt_eqb_spec (FormattedStep.message s) k) as [Heq|_].
    - exfalso. apply Hout. left. exact Heq.
    - simpl. apply IH. intros H. apply Hout. right. exact H. }
  rewrite !Hnone. reflexivity.
Qed.

Lemma map_has_keyed (f : option jsstring -> MessageGroup)
    (ks : list (option jsstring)) (key : option jsstring) :
  map_has key (keyed f ks) = true <-> In key ks.
Proof.
  induction ks as [|k ks IH]; simpl; [split; [discriminate|tauto]|].
  rewrite orb_true_iff, IH.
  destruct (JSFacts.opt_eqb_spec k key); split; intros [H|H];
    auto; congruence.
Qed.

Lemma map_get_keyed (f : option jsstring -> MessageGroup)
    (ks : list (option jsstring)) (key : option jsstring) :
  In key ks -> map_get key (keyed f ks) = Some (f key).
Proof.
  induction ks as [|k ks IH]; simpl; [tauto|].
  destruct (JSFacts.opt_eqb_spec k key) as [->|Hne]; [reflexivity|].
  intros [H|H]; [congruence|exact (IH H)].
Qed.

Lemma map_set_keyed_absent (f : option jsstring -> MessageGroup)
    (ks : list (option jsstring)) (key : option jsstring)
    (v : MessageGroup) :
  ~ In key ks -> map_set key v (keyed f ks) = keyed f ks ++ [(key, v)].
Proof.
  induction ks as [|k ks IH]; simpl; [reflexivity|].
  intros Hout. destruct (JSFacts.opt_eqb_spec k key) as [Heq|_]; [tauto|].
  rewrite IH by tauto. reflexivity.
Qed.

(** Setting the value of a present key, when the keys are distinct,
    changes the value at that key and nothing else. *)
Lemma map_set_keyed_present (f f' : option jsstring -> MessageGroup)
    (ks : list (option jsstring)) (key : option jsstring) :
  NoDup ks -> In key ks ->
  (forall k, k <> key -> f' k = f k) ->
  map_set key (f' key) (keyed f ks) = keyed f' ks.
Proof.
  intros Hnd Hin Hother. induction Hnd as [|k ks Hk Hnd IH]; simpl;
    [destruct Hin|].
  destruct (JSFacts.opt_eqb_spec k key) as [->|Hne].
  - f_equal. unfold keyed. apply map_ext_in. intros k Hkin.
    rewrite Hother; [reflexivity|]. intros ->. contradiction.
  - rewrite (Hother k Hne). f_equal. apply IH.
    destruct Hin as [H|H]; [congruence|exact H].
Qed.

Lemma groupOf_snoc_other (done : list FormattedStep.t) (x : FormattedStep.t)
    (k : option jsstring) :
  k <> FormattedStep.message x -> groupOf (done ++ [x]) k = groupOf done k.
Proof.
  intros Hne. unfold groupOf. rewrite !bucketOf_snoc.
  destruct (JSFacts.opt_eqb_spec (FormattedStep.message x) k) as [Heq|_];
    [congruence|].
  simpl. rewrite !app_nil_r. reflexivity.
Qed.

Lemma groupOf_snoc_unplaced (done : list FormattedStep.t)
    (x : FormattedStep.t) (k : option jsstring) :
  (FormattedStep.stage x =? 10)%Z = false ->
  (FormattedStep.stage x =? 20)%Z = false ->
  (FormattedStep.stage x =? 40)%Z = false ->
  groupOf (done ++ [x]) k = groupOf done k.
Proof.
  intros H10 H20 H40. unfold groupOf. rewrite !bucketOf_snoc.
  rewrite H10, H20, H40, !andb_false_r, !app_nil_r. reflexivity.
Qed.

Lemma groupOf_snoc_stage (done : list FormattedStep.t) (x : FormattedStep.t) :
  ((FormattedStep.stage x =? 10)%Z = true ->
   push_preValidation (groupOf done (FormattedStep.message x)) x
   = groupOf (done ++ [x]) (FormattedStep.message x))
  /\ ((FormattedStep.stage x =? 20)%Z = true ->
      push_preOperation (groupOf done (FormattedStep.message x)) x
      = groupOf (done ++ [x]) (FormattedStep.message x))
  /\ ((FormattedStep.stage x =? 40)%Z = true ->
      push_postOperation (groupOf done (FormattedStep.message x)) x
      = groupOf (done ++ [x]) (FormattedStep.message x)).
Proof.
  assert (Hkey : opt_eqb (FormattedStep.message x) (FormattedStep.message x)
                 = true).
  { destruct (JSFacts.opt_eqb_spec (FormattedStep.message x)
                (FormattedStep.message x)); congruence. }
  repeat split; intros Hst; apply Z.eqb_eq in Hst;
    unfold push_preValidation, push_preOperation, push_postOperation,
      groupOf; simpl;
    rewrite !bucketOf_snoc, Hkey, Hst; simpl; rewrite ?app_nil_r;
    reflexivity.
Qed.

(** The map after the [has]/[set] opening of a round holds the groups
    of the steps done so far, for the messages seen so far and the
    message of the step at hand. *)
Lemma ensure_keyed (done : list FormattedStep.t) (x : FormattedStep.t) :
  (if negb (map_has (FormattedStep.message x)
              (keyed (groupOf done)
                 (firsts (map FormattedStep.message done))))
   then map_set (FormattedStep.message x)
          (emptyGroup (FormattedStep.message x))
          (keyed (groupOf done) (firsts (map FormattedStep.message done)))
   else keyed (groupOf done) (firsts (map FormattedStep.message done)))
  = keyed (groupOf done) (firsts (map FormattedStep.message (done ++ [x]))).
Proof.
  rewrite map_app. simpl.
  destruct (firsts_snoc (map FormattedStep.message done)
              (FormattedStep.message x)) as [Hin Hout].
  destruct (map_has (FormattedStep.message x)
              (keyed (groupOf done)
                 (firsts (map FormattedStep.message done)))) eqn:Hhas; simpl.
  - apply map_has_keyed in Hhas. apply (proj1 (In_firsts _ _)) in Hhas.
    rewrite (Hin Hhas). reflexivity.
  - assert (Hnot : ~ In (FormattedStep.message x)
                     (map FormattedStep.message done)).
    { intros H. apply (proj2 (In_firsts _ _)) in H.
      apply (proj2 (map_has_keyed (groupOf done) _ _)) in H. congruence. }
    rewrite (Hout Hnot), map_set_keyed_absent
      by (intros H; apply Hnot, (proj1 (In_firsts _ _)), H).
    unfold keyed. rewrite map_app. simpl.
    rewrite (groupOf_absent done _ Hnot). reflexivity.
Qed.

(** One round of the loop takes the groups of the steps done to the
    groups of the steps done and the step at hand. *)
Lemma groupStep_groupsOf (done : list FormattedStep.t) (x : FormattedStep.t) :
  groupStep (keyed (groupOf done) (firsts (map FormattedStep.message done))) x
  = Normal (keyed (groupOf (done ++ [x]))
              (firsts (map FormattedStep.message (done ++ [x])))).
Proof.
  unfold groupStep. rewrite ensure_keyed.
  set (ks := firsts (map FormattedStep.message (done ++ [x]))).
  assert (Hin : In (FormattedStep.message x) ks).
  { apply In_firsts. rewrite map_app. apply in_or_app. right. left.
    reflexivity. }
  assert (Hnd : NoDup ks) by apply NoDup_firsts.
  rewrite (map_get_keyed _ _ _ Hin).
  destruct (groupOf_snoc_stage done x) as (Hv & Ho & Hp).
  destruct (FormattedStep.stage x =? 10)%Z eqn:H10;
    [|destruct (FormattedStep.stage x =? 20)%Z eqn:H20;
      [|destruct (FormattedStep.stage x =? 40)%Z eqn:H40]];
    f_equal.
  - rewrite (Hv eq_refl). apply map_set_keyed_present; auto.
    intros k Hk. apply groupOf_snoc_other. exact Hk.
  - rewrite (Ho eq_refl). apply map_set_keyed_present; auto.
    intros k Hk. apply groupOf_snoc_other. exact Hk.
  - rewrite (Hp eq_refl). apply map_set_keyed_present; auto.
    intros k Hk. apply groupOf_snoc_other. exact Hk.
  - unfold keyed. apply map_ext. intros k.
    rewrite groupOf_snoc_unplaced by assumption. reflexivity.
Qed.

Lemma forEach_groupStep_groupsOf (l done : list FormattedStep.t) :
  forEach groupStep l
    (keyed (groupOf done) (firsts (map FormattedStep.message done)))
  = Normal (keyed (groupOf (done ++ l))
              (firsts (map FormattedStep.message (done ++ l)))).
Proof.
  revert done. induction l as [|x l IH]; intros done; simpl.
  - rewrite app_nil_r. reflexivity.
  - rewrite groupStep_groupsOf, IH, <- app_assoc. reflexivity.
Qed.

(** The loop over all the steps yields their groups. *)
Lemma forEach_groupStep_values (l : list FormattedStep.t) :
  exists g, forEach groupStep l [] = Normal g /\ map_values g = groupsOf l.
Proof.
  eexists. split; [exact (forEach_groupStep_groupsOf l [])|].
  unfold map_values, keyed, groupsOf. simpl. rewrite map_map. reflexivity.
Qed.

End GroupsOfFacts.

(* ===================================================================== *)
(** ** PluginService: requests, joins and failures of the pipeline *)
(* ===================================================================== *)

Module PipelineRunFacts.
Import PluginService ServiceFacts Report GroupingFacts Grouping.
Import GroupsOfFacts PipelineFacts.

Lemma existsb_eqb_In (x : jsstring) (seen : list jsstring) :
  existsb (eqb x) seen = true <-> In x seen.
Proof.
  rewrite existsb_exists. split.
  - intros [y [Hy Heq]]. destruct (JSFacts.eqb_spec x y); congruence.
  - intros H. exists x. split; [exact H|apply JSFacts.eqb_refl].
Qed.

Lemma In_dedup (x : jsstring) (l seen : list jsstring) :
  In x (dedup seen l) <-> In x l /\ ~ In x seen.
Proof.
  revert seen. induction l as [|y l IH]; intros seen; simpl; [tauto|].
  destruct (existsb (eqb y) seen) eqn:Hy.
  - apply existsb_eqb_In in Hy. rewrite IH.
    split; [tauto|]. intros [[->|H] Hs]; tauto.
  - assert (Hnot : ~ In y seen).
    { intros H. apply existsb_eqb_In in H. congruence. }
    simpl. rewrite IH. simpl.
    destruct (JSFacts.eqb_spec y x) as [->|Hne]; [tauto|].
    split; [intros [H|H]; [congruence|tauto]|].
    intros [[H|H] Hs]; [congruence|]. right. tauto.
Qed.

Lemma NoDup_dedup (l seen : list jsstring) : NoDup (dedup seen l).
Proof.
  revert seen. induction l as [|y l IH]; intros seen; simpl; [constructor|].
  destruct (existsb (eqb y) seen); [apply IH|].
  constructor; [|apply IH]. rewrite In_dedup. simpl. tauto.
Qed.

Lemma In_nonNull (x : jsstring) (l : list (option jsstring)) :
  In x (nonNull l) <-> In (Some x) l.
Proof.
  induction l as [|[y|] l IH]; simpl; [tauto| |].
  - rewrite IH. split; (intros [H|H]; [left; congruence|right; exact H]).
  - rewrite IH. split; [tauto|]. intros [H|H]; [discriminate H|exact H].
Qed.

Lemma assemblyMap_get_set_same (k : jsstring) (v : option AssemblyRef)
    (m : AssemblyMap) :
  assemblyMap_get (Some k) (assemblyMap_set k v m) = v.
Proof.
  induction m as [|[k' v'] m IH]; simpl.
  - rewrite JSFacts.eqb_refl. reflexivity.
  - destruct (eqb k' k) eqn:Hk; simpl; rewrite Hk; [reflexivity|exact IH].
Qed.

Lemma assemblyMap_get_set_other (k k0 : jsstring) (v : option AssemblyRef)
    (m : AssemblyMap) :
  k0 <> k ->
  assemblyMap_get (Some k0) (assemblyMap_set k v m)
  = assemblyMap_get (Some k0) m.
Proof.
  intros Hne. induction m as [|[k' v'] m IH]; simpl.
  - destruct (JSFacts.eqb_spec k k0); congruence.
  - destruct (JSFacts.eqb_spec k' k) as [->|Hk]; simpl.
    + destruct (JSFacts.eqb_spec k k0); congruence.
    + destruct (eqb k' k0); [reflexivity|exact IH].
Qed.

(** The loop over the plugin types, when every lookup answers: one
    request per id, in order, and a map from each id to the assembly
    its lookup returned. *)
Lemma fetchAssemblies_run (client : PowerPlatformClient)
    (ids : list jsstring) (assemblyMap : AssemblyMap) (log : list Request) :
  (forall id, In id ids ->
     exists v, client (plugintype_by_id id) = Normal v) ->
  exists assemblyMap',
    fetchAssemblies client ids assemblyMap log
    = (log ++ map plugintype_by_id ids, Normal assemblyMap')
    /\ (forall id v, In id ids -> client (plugintype_by_id id) = Normal v ->
          assemblyMap_get (Some id) assemblyMap' = pluginassemblyid v)
    /\ (forall id, ~ In id ids ->
          assemblyMap_get (Some id) assemblyMap'
          = assemblyMap_get (Some id) assemblyMap).
Proof.
  revert assemblyMap log.
  induction ids as [|typeId rest IH]; intros assemblyMap log Hclient;
    cbn [fetchAssemblies].
  - exists assemblyMap. simpl. rewrite app_nil_r.
    split; [reflexivity|]. split; [intros id v []|reflexivity].
  - rewrite bind_request.
    destruct (Hclient typeId (or_introl eq_refl)) as [v0 Hv0]. rewrite Hv0.
    destruct (IH (assemblyMap_set typeId (pluginassemblyid v0) assemblyMap)
                (log ++ [plugintype_by_id typeId])
                (fun id H => Hclient id (or_intror H)))
      as [amap' [Hrun [Hin Hout]]].
    exists amap'. split; [|split].
    + rewrite Hrun. simpl. rewrite <- app_assoc. reflexivity.
    + intros id v Hid Hv.
      destruct (in_dec (fun a b => reflect_dec _ _ (JSFacts.eqb_spec a b))
                  id rest) as [Hrest|Hrest].
      * exact (Hin id v Hrest Hv).
      * destruct Hid as [<-|Hid]; [|contradiction].
        rewrite (Hout _ Hrest), assemblyMap_get_set_same. congruence.
    + intros id Hid. simpl in Hid.
      rewrite (Hout id) by tauto.
      apply assemblyMap_get_set_other. intros ->. tauto.
Qed.

(** A failure of the loop is the failure of the lookup issued last. *)
Lemma fetchAssemblies_throw (client : PowerPlatformClient)
    (ids : list jsstring) (assemblyMap : AssemblyMap)
    (log log' : list Request) (e : Exn) :
  fetchAssemblies client ids assemblyMap log = (log', Throw e) ->
  exists log0 req, log' = log0 ++ [req] /\ client req = Throw e.
Proof.
  revert assemblyMap log.
  induction ids as [|typeId rest IH]; intros assemblyMap log;
    cbn [fetchAssemblies].
  - discriminate.
  - rewrite bind_request.
    destruct (client (plugintype_by_id typeId)) as [v|e'] eqn:Hv.
    + apply IH.
    + intros [= <- <-]. exists log, (plugintype_by_id typeId). auto.
Qed.

Lemma fetchImages_throw (client : PowerPlatformClient)
    (stepIds : list jsstring) (log log' : list Request) (e : Exn) :
  fetchImages client stepIds log = (log', Throw e) ->
  exists log0 req, log' = log0 ++ [req] /\ client req = Throw e.
Proof.
  rewrite fetchImages_run. destruct stepIds as [|id ids]; [discriminate|].
  destruct (client (imagesOfSteps (id :: ids))) as [v|e'] eqn:Hv;
    [discriminate|].
  intros [= <- <-]. exists log, (imagesOfSteps (id :: ids)). auto.
Qed.

(** The run of [getEntityPluginPipeline] when the remote answers: the
    requests issued, and the result in terms of the answers. *)
Lemma getEntityPluginPipeline_run (client : PowerPlatformClient)
    (entityName : jsstring) (messageFilter : option jsstring)
    (includeDisabled : bool) (resp : ApiCollectionResponse Step.t) :
  client (stepsOfEntity entityName messageFilter includeDisabled)
    = Normal resp ->
  (forall req, exists v, client req = Normal v) ->
  exists assemblyMap allImages,
    run (getEntityPluginPipeline client entityName messageFilter
           includeDisabled)
    = ( stepsOfEntity entityName messageFilter includeDisabled
          :: map plugintype_by_id (lookupsOf (value resp))
          ++ imageQueryOf (value resp),
        Normal
          {| EntityPipeline.entity := entityName;
             EntityPipeline.messages :=
               groupsOf (map (formatStep assemblyMap allImages) (value resp));
             EntityPipeline.steps :=
               map (formatStep assemblyMap allImages) (value resp);
             EntityPipeline.executionOrder :=
               map FormattedStep.name
                 (map (formatStep assemblyMap allImages) (value resp)) |} )
    /\ (forall id v, In id (lookupsOf (value resp)) ->
          client (plugintype_by_id id) = Normal v ->
          assemblyMap_get (Some id) assemblyMap = pluginassemblyid v)
    /\ (value resp = [] -> allImages = [])
    /\ (forall v,
          value resp <> [] ->
          client (imagesOfSteps
                    (map Step.sdkmessageprocessingstepid (value resp)))
            = Normal v ->
          allImages = value v).
Proof.
  intros Hresp Hclient. unfold run, getEntityPluginPipeline.
  rewrite bind_request, Hresp. unfold bind at 1.
  fold (lookupsOf (value resp)).
  destruct (fetchAssemblies_run client (lookupsOf (value resp)) []
              ([] ++ [stepsOfEntity entityName messageFilter
                        includeDisabled])
              (fun id _ => Hclient (plugintype_by_id id)))
    as [assemblyMap [Hmap [Hget _]]].
  rewrite Hmap. unfold bind at 1. rewrite fetchImages_run.
  exists assemblyMap.
  destruct (value resp) as [|s0 rest] eqn:Hvalue.
  - exists []. cbn [map]. rewrite bind_lift. simpl.
    split; [rewrite ?app_nil_r; reflexivity|].
    split; [exact Hget|]. split; [reflexivity|]. intros v H. congruence.
  - cbn [map].
    destruct (Hclient
                (imagesOfSteps
                   (Step.sdkmessageprocessingstepid s0
                    :: map Step.sdkmessageprocessingstepid rest)))
      as [images Himages].
    rewrite Himages. exists (value images). rewrite bind_lift.
    destruct (forEach_groupStep_values
                (formatStep assemblyMap (value images) s0
                 :: map (formatStep assemblyMap (value images)) rest))
      as [g [Hg Hvalues]].
    rewrite Hg. unfold ret. rewrite Hvalues. simpl.
    split; [rewrite <- ?app_assoc; reflexivity|].
    split; [exact Hget|]. split; [discriminate|].
    intros v _ Hv. congruence.
Qed.

(** X1. When the remote answers, [getEntityPluginPipeline] issues the
    step query, then one lookup per distinct plugin type of the steps
    fetched, in the order these types first occur, then the image query
    if a step was fetched, and nothing else. *)
Theorem pipeline_requests (client : PowerPlatformClient)
    (entityName : jsstring) (messageFilter : option jsstring)
    (includeDisabled : bool) (resp : ApiCollectionResponse Step.t) :
  client (stepsOfEntity entityName messageFilter includeDisabled)
    = Normal resp ->
  (forall req, exists v, client req = Normal v) ->
  (exists r,
     run (getEntityPluginPipeline client entityName messageFilter
            includeDisabled)
     = ( stepsOfEntity entityName messageFilter includeDisabled
           :: map plugintype_by_id (lookupsOf (value resp))
           ++ imageQueryOf (value resp),
         Normal r ))
  /\ NoDup (lookupsOf (value resp))
  /\ (forall id,
        In id (lookupsOf (value resp))
        <-> exists raw, In raw (value resp)
                        /\ Step._plugintypeid_value raw = Some id).
Proof.
  intros Hresp Hclient.
  destruct (getEntityPluginPipeline_run client entityName messageFilter
              includeDisabled resp Hresp Hclient)
    as (amap & imgs & Hrun & _).
  split; [eexists; exact Hrun|]. split; [apply NoDup_dedup|].
  intros id. unfold lookupsOf. rewrite In_dedup, In_nonNull, in_map_iff.
  simpl. split.
  - intros [[raw [Hraw Hin]] _]. exists raw. auto.
  - intros [raw [Hin Hraw]]. split; [exists raw; auto|tauto].
Qed.

Lemma pipeline_requests_witness :
  exists r,
    run (getEntityPluginPipeline
           (Scenarios.mockClient
              (Scenarios.serving Scenarios.accountSteps []))
           Scenarios.account None false)
    = ( [stepsOfEntity Scenarios.account None false;
         plugintype_by_id (js "pt-1");
         imagesOfSteps [js "step-1"; js "step-2"; js "step-3"]],
        Normal r ).
Proof.
  exact (proj1
    (pipeline_requests
       (Scenarios.mockClient (Scenarios.serving Scenarios.accountSteps []))
       Scenarios.account None false {| value := Scenarios.accountSteps |}
       eq_refl
       (mockClient_serving_answers Scenarios.accountSteps []))).
Defined.

(** X2. In every pipeline returned, [messages] holds one group per
    distinct message of the steps, in the order the messages first
    occur, and each bucket of a group holds the steps of that message
    at that stage, in the order of the flat list. *)
Theorem pipeline_messages_are_groupsOf (client : PowerPlatformClient)
    (entityName : jsstring) (messageFilter : option jsstring)
    (includeDisabled : bool) (log : list Request) (r : EntityPipeline.t) :
  run (getEntityPluginPipeline client entityName messageFilter
         includeDisabled) = (log, Normal r) ->
  EntityPipeline.messages r = groupsOf (EntityPipeline.steps r)
  /\ NoDup (map messageName (EntityPipeline.messages r))
  /\ (forall k, In k (map messageName (EntityPipeline.messages r))
                <-> exists s, In s (EntityPipeline.steps r)
                              /\ FormattedStep.message s = k).
Proof.
  intros Hrun. apply getEntityPluginPipeline_inv in Hrun.
  destruct Hrun as (resp & amap & imgs & g & _ & _ & Hloop & Hmsg & _).
  destruct (forEach_groupStep_values (EntityPipeline.steps r))
    as [g' [Hg' Hvalues]].
  assert (g' = g) by congruence. subst g'.
  assert (Heq : EntityPipeline.messages r = groupsOf (EntityPipeline.steps r))
    by congruence.
  assert (Hnames : map messageName (groupsOf (EntityPipeline.steps r))
                   = firsts (map FormattedStep.message
                               (EntityPipeline.steps r))).
  { unfold groupsOf. rewrite map_map. simpl. apply map_id. }
  split; [exact Heq|]. rewrite Heq, Hnames.
  split; [apply NoDup_firsts|].
  intros k. rewrite In_firsts, in_map_iff. split.
  - intros [s [Hs Hin]]. exists s. auto.
  - intros [s [Hin Hs]]. exists s. auto.
Qed.

Lemma pipeline_messages_witness :
  exists log r,
    run (getEntityPluginPipeline
           (Scenarios.mockClient
              (Scenarios.serving Scenarios.accountSteps []))
           Scenarios.account None false) = (log, Normal r)
    /\ map messageName (EntityPipeline.messages r)
       = [Some Update; Some Create]
    /\ EntityPipeline.messages r = groupsOf (EntityPipeline.steps r).
Proof.
  eexists _, _. split; [vm_compute; reflexivity|]. split; [reflexivity|].
  exact (proj1
    (pipeline_messages_are_groupsOf
       (Scenarios.mockClient (Scenarios.serving Scenarios.accountSteps []))
       Scenarios.account None false _ _ eq_refl)).
Defined.

(** X3. When the remote answers, the step at each position of the flat
    list is the step fetched at that position, enriched: its assembly
    name and version are those the lookup of its plugin type returned
    (absent when the step has no plugin type), and its images are the
    fetched images whose step id is its id, in fetch order. *)
Theorem pipeline_step_enrichment (client : PowerPlatformClient)
    (entityName : jsstring) (messageFilter : option jsstring)
    (includeDisabled : bool) (resp : ApiCollectionResponse Step.t) :
  client (stepsOfEntity entityName messageFilter includeDisabled)
    = Normal resp ->
  (forall req, exists v, client req = Normal v) ->
  exists log r,
    run (getEntityPluginPipeline client entityName messageFilter
           includeDisabled) = (log, Normal r)
    /\ length (EntityPipeline.steps r) = length (value resp)
    /\ forall i raw, nth_error (value resp) i = Some raw ->
         exists s,
           nth_error (EntityPipeline.steps r) i = Some s
           /\ FormattedStep.sdkmessageprocessingstepid s
              = Step.sdkmessageprocessingstepid raw
           /\ FormattedStep.name s = Step.name raw
           /\ (forall id v,
                 Step._plugintypeid_value raw = Some id ->
                 client (plugintype_by_id id) = Normal v ->
                 FormattedStep.assemblyName s
                 = match pluginassemblyid v with
                   | Some a => assembly_name a
                   | None => None
                   end
                 /\ FormattedStep.assemblyVersion s
                    = match pluginassemblyid v with
                      | Some a => assembly_version a
                      | None => None
                      end)
           /\ (Step._plugintypeid_value raw = None ->
               FormattedStep.assemblyName s = None
               /\ FormattedStep.assemblyVersion s = None)
           /\ (forall images,
                 client (imagesOfSteps
                           (map Step.sdkmessageprocessingstepid (value resp)))
                   = Normal images ->
                 FormattedStep.images s
                 = filter (fun img =>
                             eqb (Image._sdkmessageprocessingstepid_value img)
                                 (Step.sdkmessageprocessingstepid raw))
                          (value images)).
Proof.
  intros Hresp Hclient.
  destruct (getEntityPluginPipeline_run client entityName messageFilter
              includeDisabled resp Hresp Hclient)
    as (amap & imgs & Hrun & Hget & _ & Himgs).
  eexists _, _. split; [exact Hrun|]. simpl.
  split; [apply length_map|].
  intros i raw Hraw. exists (formatStep amap imgs raw).
  split; [rewrite nth_error_map, Hraw; reflexivity|].
  split; [reflexivity|]. split; [reflexivity|].
  assert (Hin : In raw (value resp)) by (eapply nth_error_In; exact Hraw).
  split; [|split].
  - intros id v Hid Hv. simpl. rewrite Hid.
    assert (Hlook : In id (lookupsOf (value resp))).
    { unfold lookupsOf. rewrite In_dedup, In_nonNull, in_map_iff.
      split; [exists raw; auto|tauto]. }
    rewrite (Hget id v Hlook Hv). split; reflexivity.
  - intros Hnone. simpl. rewrite Hnone.
    destruct amap as [|[k v] amap]; split; reflexivity.
  - intros images Himages. simpl.
    rewrite (Himgs images); [reflexivity| |exact Himages].
    intros Hnil. rewrite Hnil in Hin. destruct Hin.
Qed.

Lemma pipeline_step_enrichment_witness :
  exists log r,
    run (getEntityPluginPipeline
           (Scenarios.mockClient
              (Scenarios.serving Scenarios.accountSteps []))
           Scenarios.account None false) = (log, Normal r)
    /\ length (EntityPipeline.steps r) = 3.
Proof.
  destruct (pipeline_step_enrichment
              (Scenarios.mockClient
                 (Scenarios.serving Scenarios.accountSteps []))
              Scenarios.account None false
              {| value := Scenarios.accountSteps |} eq_refl
              (mockClient_serving_answers Scenarios.accountSteps []))
    as [log [r [Hrun [Hlen _]]]].
  exists log, r. split; [exact Hrun|exact Hlen].
Defined.

(** X4. [getEntityPluginPipeline] throws only what the remote threw:
    when it ends with an exception, that exception is the one the last
    request issued was answered with. Nothing in a fetched step makes
    the formatting or the grouping throw. *)
Theorem pipeline_throws_what_the_remote_threw
    (client : PowerPlatformClient) (entityName : jsstring)
    (messageFilter : option jsstring) (includeDisabled : bool)
    (log : list Request) (e : Exn) :
  run (getEntityPluginPipeline client entityName messageFilter
         includeDisabled) = (log, Throw e) ->
  exists log0 req, log = log0 ++ [req] /\ client req = Throw e.
Proof.
  unfold run, getEntityPluginPipeline. rewrite bind_request.
  destruct (client (stepsOfEntity entityName messageFilter includeDisabled))
    as [resp|e0] eqn:Hresp.
  - unfold bind at 1.
    destruct (fetchAssemblies client
                (dedup [] (nonNull (map Step._plugintypeid_value
                                      (value resp)))) []
                ([] ++ [stepsOfEntity entityName messageFilter
                          includeDisabled]))
      as [log1 [amap|e1]] eqn:Hfa.
    + unfold bind at 1.
      destruct (fetchImages client
                  (map Step.sdkmessageprocessingstepid (value resp)) log1)
        as [log2 [imgs|e2]] eqn:Himg.
      * rewrite bind_lift.
        destruct (forEach_groupStep_total
                    (map (formatStep amap imgs) (value resp)))
          as [g [Hg _]].
        rewrite Hg. discriminate.
      * intros [= <- <-]. exact (fetchImages_throw _ _ _ _ _ Himg).
    + intros [= <- <-]. exact (fetchAssemblies_throw _ _ _ _ _ _ Hfa).
  - intros [= <- <-].
    exists [], (stepsOfEntity entityName messageFilter includeDisabled).
    split; [reflexivity|exact Hresp].
Qed.

Lemma pipeline_throws_witness :
  exists log0 req,
    [stepsOfEntity Scenarios.account None false] = log0 ++ [req]
    /\ Scenarios.mockClient Scenarios.offline req = Throw Scenarios.failed.
Proof.
  exact (pipeline_throws_what_the_remote_threw
           (Scenarios.mockClient Scenarios.offline)
           Scenarios.account None false
           [stepsOfEntity Scenarios.account None false] Scenarios.failed
           eq_refl).
Defined.

(** X5. [getPluginAssemblyComplete] ends with an exception in two
    ways only: the assembly query answered with no row, and the
    exception is [Error("Plugin assembly '<name>' not found")], thrown
    after that one request; or the last request issued threw, and the
    exception is the one it threw. *)
Theorem assembly_complete_failures (client : PowerPlatformClient)
    (assemblyName : jsstring) (includeDisabled : bool)
    (log : list Request) (e : Exn) :
  run (getPluginAssemblyComplete client assemblyName includeDisabled)
    = (log, Throw e) ->
  (log = [assemblyByName assemblyName]
   /\ (exists resp, client (assemblyByName assemblyName) = Normal resp
                    /\ value resp = [])
   /\ e = Error (js "Plugin assembly '" ++ assemblyName ++ js "' not found"))
  \/ (exists log0 req, log = log0 ++ [req] /\ client req = Throw e).
Proof.
  unfold run, getPluginAssemblyComplete. rewrite bind_request.
  destruct (client (assemblyByName assemblyName)) as [asms|e0] eqn:Hasm.
  - destruct (value asms) as [|assembly rest] eqn:Hvalue.
    + intros [= <- <-]. left. split; [reflexivity|].
      split; [exists asms; auto|reflexivity].
    + cbv iota beta zeta. rewrite bind_request.
      destruct (client (typesOfAssembly (Assembly.pluginassemblyid assembly)))
        as [pts|e1] eqn:Hpts.
      * unfold bind at 1.
        destruct ((if (0 <? length (map PluginType.plugintypeid (value pts)))%nat
                   then
                     steps <-
                       request client
                         (stepsOfTypes
                            (map PluginType.plugintypeid (value pts))
                            includeDisabled) ;;
                     ret (value steps)
                   else ret [])
                    (([] ++ [assemblyByName assemblyName])
                     ++ [typesOfAssembly
                           (Assembly.pluginassemblyid assembly)]))
          as [log1 [allSteps|e2]] eqn:Hsteps.
        -- unfold bind at 1.
           destruct (fetchImages client
                       (map Step.sdkmessageprocessingstepid allSteps) log1)
             as [log2 [imgs|e3]] eqn:Himg; [discriminate|].
           intros [= <- <-]. right.
           exact (fetchImages_throw _ _ _ _ _ Himg).
        -- intros [= <- <-]. right.
           destruct (0 <? length (map PluginType.plugintypeid (value pts)))%nat;
             [|discriminate Hsteps].
           rewrite bind_request in Hsteps.
           destruct (client
                       (stepsOfTypes
                          (map PluginType.plugintypeid (value pts))
                          includeDisabled)) as [v|e4] eqn:Hv;
             [discriminate Hsteps|].
           injection Hsteps as <- <-.
           exists [assemblyByName assemblyName;
                   typesOfAssembly (Assembly.pluginassemblyid assembly)],
             (stepsOfTypes (map PluginType.plugintypeid (value pts))
                includeDisabled).
           split; [reflexivity|exact Hv].
      * intros [= <- <-]. right.
        exists [assemblyByName assemblyName],
          (typesOfAssembly (Assembly.pluginassemblyid assembly)).
        split; [reflexivity|exact Hpts].
  - intros [= <- <-]. right.
    exists [], (assemblyByName assemblyName). split; [reflexivity|exact Hasm].
Qed.

Lemma assembly_complete_failures_witness :
  ([assemblyByName Scenarios.contosoName]
   = [assemblyByName Scenarios.contosoName]
   /\ (exists resp,
         Scenarios.mockClient Scenarios.offline
           (assemblyByName Scenarios.contosoName) = Normal resp
         /\ value resp = [])
   /\ Scenarios.failed
      = Error (js "Plugin assembly '" ++ Scenarios.contosoName
               ++ js "' not found"))
  \/ (exists log0 req,
        [assemblyByName Scenarios.contosoName] = log0 ++ [req]
        /\ Scenarios.mockClient Scenarios.offline req
           = Throw Scenarios.failed).
Proof.
  exact (assembly_complete_failures
           (Scenarios.mockClient Scenarios.offline)
           Scenarios.contosoName false
           [assemblyByName Scenarios.contosoName] Scenarios.failed eq_refl).
Defined.

(** X6. When no assembly bears the name, [getPluginAssemblyComplete]
    throws [Error("Plugin assembly '<name>' not found")] and has issued
    the assembly query only. *)
Theorem assembly_not_found (client : PowerPlatformClient)
    (assemblyName : jsstring) (includeDisabled : bool)
    (resp : ApiCollectionResponse Assembly.t) :
  client (assemblyByName assemblyName) = Normal resp ->
  value resp = [] ->
  run (getPluginAssemblyComplete client assemblyName includeDisabled)
  = ( [assemblyByName assemblyName],
      Throw (Error (js "Plugin assembly '" ++ assemblyName
                    ++ js "' not found")) ).
Proof.
  intros Hresp Hnil. unfold run, getPluginAssemblyComplete.
  rewrite bind_request, Hresp, Hnil. reflexivity.
Qed.

(** X7. The join of [getPluginAssemblyComplete]: with the first row of
    the assembly query, its plugin types, their steps and the images of
    these steps answered, the result holds that first row, the plugin
    types, and the fetched steps in fetch order, each with the fetched
    images whose step id is its id, in fetch order; four requests are
    issued. *)
Theorem assembly_complete_join (client : PowerPlatformClient)
    (assemblyName : jsstring) (includeDisabled : bool)
    (assemblies : ApiCollectionResponse Assembly.t)
    (assembly : Assembly.t) (rest : list Assembly.t)
    (pluginTypes : ApiCollectionResponse PluginType.t)
    (steps : ApiCollectionResponse Step.t)
    (images : ApiCollectionResponse Image.t) :
  client (assemblyByName assemblyName) = Normal assemblies ->
  value assemblies = assembly :: rest ->
  client (typesOfAssembly (Assembly.pluginassemblyid assembly))
    = Normal pluginTypes ->
  value pluginTypes <> [] ->
  client (stepsOfTypes (map PluginType.plugintypeid (value pluginTypes))
            includeDisabled) = Normal steps ->
  value steps <> [] ->
  client (imagesOfSteps (map Step.sdkmessageprocessingstepid (value steps)))
    = Normal images ->
  exists r,
    run (getPluginAssemblyComplete client assemblyName includeDisabled)
    = ( [assemblyByName assemblyName;
         typesOfAssembly (Assembly.pluginassemblyid assembly);
         stepsOfTypes (map PluginType.plugintypeid (value pluginTypes))
           includeDisabled;
         imagesOfSteps (map Step.sdkmessageprocessingstepid (value steps))],
        Normal r )
    /\ AssemblyComplete.assembly r = assembly
    /\ AssemblyComplete.pluginTypes r = value pluginTypes
    /\ map StepWithImages.step (AssemblyComplete.steps r) = value steps
    /\ (forall s, In s (AssemblyComplete.steps r) ->
          StepWithImages.images s
          = filter (fun img =>
                      eqb (Image._sdkmessageprocessingstepid_value img)
                          (Step.sdkmessageprocessingstepid
                             (StepWithImages.step s)))
                   (value images))
    /\ (forall s img, In s (AssemblyComplete.steps r) ->
          In img (StepWithImages.images s) ->
          In img (value images)
          /\ Image._sdkmessageprocessingstepid_value img
             = Step.sdkmessageprocessingstepid (StepWithImages.step s)).
Proof.
  intros Hasm Hvalue Htypes Hpts Hsteps Hne Himages.
  unfold run, getPluginAssemblyComplete.
  rewrite bind_request, Hasm, Hvalue. cbv iota beta zeta.
  rewrite bind_request, Htypes. unfold bind at 1.
  destruct (value pluginTypes) as [|pt pts] eqn:Hpv; [congruence|].
  change (0 <? length (map PluginType.plugintypeid (pt :: pts)))%nat
    with true.
  cbv iota. rewrite bind_request, Hsteps. unfold ret at 1.
  unfold bind at 1. rewrite fetchImages_run.
  destruct (value steps) as [|s0 ss] eqn:Hsv; [congruence|].
  cbn [map]. cbn [map] in Himages. rewrite Himages.
  eexists. split; [reflexivity|]. simpl.
  split; [reflexivity|]. split; [reflexivity|].
  assert (Hin : forall s,
             attachImages (value images) s0 = s
             \/ In s (map (attachImages (value images)) ss) ->
             StepWithImages.images s
             = filter (fun img =>
                         eqb (Image._sdkmessageprocessingstepid_value img)
                             (Step.sdkmessageprocessingstepid
                                (StepWithImages.step s)))
                      (value images)).
  { intros s [<-|Hs]; [reflexivity|].
    apply in_map_iff in Hs. destruct Hs as [raw [<- _]]. reflexivity. }
  split; [|split].
  - f_equal. rewrite map_map. simpl. apply map_id.
  - exact Hin.
  - intros s img Hs Himg. rewrite (Hin s Hs) in Himg.
    apply filter_In in Himg. destruct Himg as [Hi Heq]. split; [exact Hi|].
    destruct (JSFacts.eqb_spec
                (Image._sdkmessageprocessingstepid_value img)
                (Step.sdkmessageprocessingstepid (StepWithImages.step s)));
      congruence.
Qed.

Lemma assembly_not_found_witness :
  run (getPluginAssemblyComplete
         (Scenarios.mockClient MoreScenarios.noAssembly)
         Scenarios.contosoName false)
  = ( [assemblyByName Scenarios.contosoName],
      Throw (Error (js "Plugin assembly 'Contoso.Plugins' not found")) ).
Proof.
  exact (assembly_not_found
           (Scenarios.mockClient MoreScenarios.noAssembly)
           Scenarios.contosoName false {| value := [] |} eq_refl eq_refl).
Defined.

Lemma assembly_complete_join_witness :
  exists r,
    run (getPluginAssemblyComplete
           (Scenarios.mockClient
              (Scenarios.serving Scenarios.contosoSteps
                 MoreScenarios.contosoImages))
           Scenarios.contosoName false)
    = ( [assemblyByName Scenarios.contosoName;
         typesOfAssembly (js "asm-1");
         stepsOfTypes [js "pt-1"] false;
         imagesOfSteps [js "step-1"; js "step-2"]],
        Normal r )
    /\ map (fun s => length (StepWithImages.images s))
           (AssemblyComplete.steps r) = [0; 1].
Proof.
  destruct (assembly_complete_join
              (Scenarios.mockClient
                 (Scenarios.serving Scenarios.contosoSteps
                    MoreScenarios.contosoImages))
              Scenarios.contosoName false
              {| value := [Scenarios.contoso] |} Scenarios.contoso []
              {| value := [Scenarios.contosoType] |}
              {| value := Scenarios.contosoSteps |}
              {| value := MoreScenarios.contosoImages |}
              eq_refl eq_refl eq_refl ltac:(discriminate) eq_refl
              ltac:(discriminate) eq_refl)
    as [r [Hrun _]].
  exists r. split; [exact Hrun|].
  vm_compute in Hrun. injection Hrun as <-. reflexivity.
Defined.

Lemma join_split (sep : N) (s : jsstring) :
  join [sep] (split sep s) = s.
Proof.
  induction s as [|x s IH]; simpl; [reflexivity|].
  destruct (N.eqb_spec x sep) as [->|Hne].
  - pose proof (JSFacts.split_not_nil sep s) as Hnil.
    destruct (split sep s) as [|l ls]; [contradiction|].
    simpl in *. rewrite IH. reflexivity.
  - pose proof (JSFacts.split_not_nil sep s) as Hnil.
    destruct (split sep s) as [|l ls]; [contradiction|].
    destruct ls as [|l' ls]; simpl in *; rewrite <- IH; reflexivity.
Qed.

Lemma split_no_separator (sep : N) (s : jsstring) :
  Forall (fun part => ~ In sep part) (split sep s).
Proof.
  induction s as [|x s IH]; simpl.
  - constructor; [tauto|constructor].
  - destruct (N.eqb_spec x sep) as [->|Hne].
    + constructor; [simpl; tauto|exact IH].
    + destruct (split sep s) as [|l ls]; [repeat constructor; simpl; tauto|].
      inversion IH as [|? ? Hl Hls]; subst.
      constructor; [|exact Hls]. simpl. tauto.
Qed.

(** X8. The filtering attributes of a formatted step are the parts of
    the comma-joined text of the fetched step: no part holds a comma,
    the parts joined with commas give the text back, and there is at
    least one part; an absent or empty text gives the empty list. *)
Theorem filteringAttributes_round_trip (assemblyMap : AssemblyMap)
    (allImages : list Image.t) (raw : Step.t) :
  let parts :=
    FormattedStep.filteringAttributes
      (formatStep assemblyMap allImages raw) in
  match Step.filteringattributes raw with
  | Some (x :: text) =>
      join [comma] parts = x :: text
      /\ Forall (fun part => ~ In comma part) parts
      /\ parts <> []
  | _ => parts = []
  end.
Proof.
  simpl. destruct (Step.filteringattributes raw) as [[|x text]|];
    [reflexivity| |reflexivity].
  cbn [truthy]. split; [apply join_split|].
  split; [apply split_no_separator|apply JSFacts.split_not_nil].
Qed.

End PipelineRunFacts.

(* ===================================================================== *)
(** ** PluginService: what the trace-log parser returns *)
(* ===================================================================== *)

Module TraceLogShapeFacts.
Import PluginService ServiceFacts TraceLogFacts Shapes.

Lemma trimStart_head (s : jsstring) (c : N) (rest : jsstring) :
  trimStart s = c :: rest -> isWhiteSpace c = false.
Proof.
  induction s as [|x s IH]; simpl; [discriminate|].
  destruct (isWhiteSpace x) eqn:Hx; [exact IH|].
  intros [= <- _]. exact Hx.
Qed.

Lemma trimStart_suffix (s : jsstring) :
  exists dropped, s = dropped ++ trimStart s.
Proof.
  induction s as [|x s [dropped IH]]; simpl; [exists []; reflexivity|].
  destruct (isWhiteSpace x).
  - exists (x :: dropped). simpl. rewrite <- IH. reflexivity.
  - exists []. reflexivity.
Qed.

Lemma trimEnd_prefix (s : jsstring) :
  exists dropped, s = trimEnd s ++ dropped.
Proof.
  unfold trimEnd. destruct (trimStart_suffix (rev s)) as [dropped H].
  exists (rev dropped).
  rewrite <- rev_app_distr, <- H, rev_involutive. reflexivity.
Qed.

Lemma trimEnd_last (s init : jsstring) (c : N) :
  trimEnd s = init ++ [c] -> isWhiteSpace c = false.
Proof.
  unfold trimEnd. intros H.
  apply (f_equal (@rev N)) in H.
  rewrite rev_involutive, rev_app_distr in H. simpl in H.
  exact (trimStart_head _ _ _ H).
Qed.

(** Trimming the end of a text that opens with a unit other than white
    space keeps that unit. *)
Lemma trimEnd_head (s : jsstring) (c : N) (rest : jsstring) :
  (forall c' rest', s = c' :: rest' -> isWhiteSpace c' = false) ->
  trimEnd s = c :: rest -> isWhiteSpace c = false.
Proof.
  intros Hhead Htrim. destruct (trimEnd_prefix s) as [dropped Hs].
  rewrite Htrim in Hs. simpl in Hs. exact (Hhead _ _ Hs).
Qed.

Lemma trim_noOuterWhiteSpace (s : jsstring) : noOuterWhiteSpace (trim s).
Proof.
  unfold trim. split.
  - intros c rest H. apply (trimEnd_head (trimStart s) c rest); [|exact H].
    intros c' rest' H'. exact (trimStart_head _ _ _ H').
  - intros init c H. exact (trimEnd_last _ _ _ H).
Qed.

Lemma In_trim (c : N) (s : jsstring) : In c (trim s) -> In c s.
Proof.
  unfold trim. intros H.
  destruct (trimEnd_prefix (trimStart s)) as [d1 H1].
  destruct (trimStart_suffix s) as [d2 H2].
  rewrite H2, H1. apply in_or_app. right. apply in_or_app. left. exact H.
Qed.

Lemma In_firstn_firstColon (s : jsstring) (i : nat) :
  Spec.firstColon s = Some i -> ~ In colon (firstn i s).
Proof.
  revert i. induction s as [|x s IH]; intros i; simpl; [discriminate|].
  destruct (N.eqb_spec x colon) as [->|Hne].
  - intros [= <-]. simpl. tauto.
  - destruct (Spec.firstColon s) as [j|]; [|discriminate].
    intros [= <-]. simpl. intros [H|H]; [congruence|].
    exact (IH j eq_refl H).
Qed.

Lemma firstLine_no_newline (text : jsstring) :
  ~ In newline (Spec.firstLine text).
Proof.
  induction text as [|x text IH]; simpl; [tauto|].
  destruct (N.eqb_spec x newline) as [->|Hne]; simpl; [tauto|].
  intros [H|H]; [congruence|exact (IH H)].
Qed.

Lemma In_skipn (A : Type) (x : A) (n : nat) (l : list A) :
  In x (skipn n l) -> In x l.
Proof.
  intros H. rewrite <- (firstn_skipn n l). apply in_or_app. right. exact H.
Qed.

(** X9. A type extracted from an exception text holds no colon and
    neither opens nor ends with white space; a message extracted holds
    no line feed and neither opens nor ends with white space. Either
    may be the empty text. *)
Theorem extracted_texts_shape (text : jsstring) :
  (forall ty, extractExceptionType text = Some ty ->
     ~ In colon ty /\ noOuterWhiteSpace ty)
  /\ (forall msg, extractExceptionMessage text = Some msg ->
        ~ In newline msg /\ noOuterWhiteSpace msg).
Proof.
  split.
  - intros ty. rewrite extractExceptionType_firstColon.
    destruct (Spec.firstColon text) as [[|i]|] eqn:Hc; try discriminate.
    intros [= <-]. split; [|apply trim_noOuterWhiteSpace].
    intros H. apply In_trim in H.
    exact (In_firstn_firstColon _ _ Hc H).
  - intros msg. rewrite extractExceptionMessage_firstColon.
    destruct (Spec.firstColon (Spec.firstLine text)) as [[|i]|];
      try discriminate.
    intros [= <-]. split; [|apply trim_noOuterWhiteSpace].
    intros H.
    exact (firstLine_no_newline _
             (In_skipn _ _ (S (S i)) _ (In_trim _ _ H))).
Qed.

(** X10. Whenever a message is extracted from an exception text, a
    type is extracted too; the converse fails for a text whose first
    colon stands after the first line. *)
Theorem message_implies_type :
  (forall l : TraceLog.t,
     exceptionMessage (parsed (parseLog l)) <> None ->
     exceptionType (parsed (parseLog l)) <> None)
  /\ (exists l : TraceLog.t,
        exceptionType (parsed (parseLog l)) <> None
        /\ exceptionMessage (parsed (parseLog l)) = None).
Proof.
  split.
  - intros l. simpl.
    destruct (TraceLog.exceptiondetails l) as [d|]; [|tauto].
    destruct (truthy d); [|tauto].
    rewrite extractExceptionType_firstColon,
      extractExceptionMessage_firstColon.
    destruct (Spec.firstColon (Spec.firstLine d)) as [[|i]|] eqn:Hc;
      try tauto.
    destruct (firstColon_firstLine _ _ Hc) as [Hd _]. rewrite Hd.
    discriminate.
  - exists (Scenarios.mkLog (Some Scenarios.colonOnSecondLine)).
    split; [discriminate|reflexivity].
Qed.


End TraceLogShapeFacts.

(* ===================================================================== *)
(** ** PowerPlatformClient: token cache and request failures *)
(* ===================================================================== *)

Module ClientFacts.
Import Client.

Lemma acquire_state (msal : nat -> Outcome (option AuthenticationResult))
    (st st' : State) (o : Outcome jsstring) :
  acquire msal st = (st', o) ->
  acquisitions st' = S (acquisitions st) /\ sent st' = sent st
  /\ match o with
     | Raises _ =>
         accessToken st' = accessToken st
         /\ tokenExpirationTime st' = tokenExpirationTime st
     | Returns token => accessToken st' = Some token /\ token <> []
     end.
Proof.
  unfold acquire.
  destruct (msal (acquisitions st)) as [[result|]|e];
    try (intros [= <- <-]; simpl; auto).
  destruct (result_accessToken result) as [[|c token]|]; simpl;
    intros [= <- <-]; simpl; auto.
  repeat split. discriminate.
Qed.

(** X12. [getAccessToken] throws nothing but
    [Error("Authentication failed")], whatever went wrong (MSAL threw,
    resolved with [null], or with an empty token); the cached token
    and its expiry are then left as they were, and MSAL was asked
    once. *)
Theorem getAccessToken_failure
    (msal : nat -> Outcome (option AuthenticationResult))
    (currentTime : Z) (st st' : State) (e : JsError) :
  getAccessToken msal currentTime st = (st', Raises e) ->
  e = newError (js "Authentication failed")
  /\ accessToken st' = accessToken st
  /\ tokenExpirationTime st' = tokenExpirationTime st
  /\ acquisitions st' = S (acquisitions st)
  /\ sent st' = sent st.
Proof.
  unfold getAccessToken.
  destruct (match accessToken st with
            | Some token =>
                if truthy token && (currentTime <? tokenExpirationTime st)%Z
                then Some token else None
            | None => None
            end) as [token|]; [discriminate|].
  destruct (acquire msal st) as [st1 [token|e1]] eqn:Hacq; [discriminate|].
  intros [= <- <-].
  destruct (acquire_state msal st _ _ Hacq) as (Hn & Hs & Ht & Hx).
  auto.
Qed.

Lemma getAccessToken_failure_witness :
  exists st',
    getAccessToken (fun _ => Returns None) 1000 initial
    = (st', Raises (newError (js "Authentication failed")))
    /\ accessToken st' = None /\ acquisitions st' = 1.
Proof.
  eexists. split; [reflexivity|].
  destruct (getAccessToken_failure (fun _ => Returns None) 1000 initial
              _ _ eq_refl) as (_ & Ha & _ & Hn & _).
  split; [exact Ha|exact Hn].
Defined.

(** X13. A cached token that has not expired is returned as it is:
    MSAL is not asked and the state does not change. *)
Theorem getAccessToken_cached
    (msal : nat -> Outcome (option AuthenticationResult))
    (currentTime : Z) (st : State) (token : jsstring) :
  accessToken st = Some token -> token <> [] ->
  (currentTime < tokenExpirationTime st)%Z ->
  getAccessToken msal currentTime st = (st, Returns token).
Proof.
  intros Htoken Hne Hfresh. unfold getAccessToken. rewrite Htoken.
  destruct token as [|c token]; [congruence|]. cbn [truthy andb].
  destruct (Z.ltb_spec currentTime (tokenExpirationTime st)); [|lia].
  reflexivity.
Qed.

(** X14. A token acquired with an expiry is kept until five minutes
    before that expiry: the call that acquires it asks MSAL once and
    sets the expiry time to [expiresOn - 300000]; every call before
    that time returns the token without asking MSAL; every call from
    that time on asks MSAL again. *)
Theorem getAccessToken_refresh
    (msal : nat -> Outcome (option AuthenticationResult))
    (currentTime : Z) (st : State) (token : jsstring) (expiry : Z) :
  (tokenExpirationTime st <= currentTime)%Z ->
  msal (acquisitions st)
    = Returns (Some {| result_accessToken := Some token;
                       expiresOn := Some expiry |}) ->
  token <> [] ->
  exists st',
    getAccessToken msal currentTime st = (st', Returns token)
    /\ accessToken st' = Some token
    /\ tokenExpirationTime st' = (expiry - 300000)%Z
    /\ acquisitions st' = S (acquisitions st)
    /\ (forall later, (later < expiry - 300000)%Z ->
          getAccessToken msal later st' = (st', Returns token))
    /\ (forall later, (expiry - 300000 <= later)%Z ->
          acquisitions (fst (getAccessToken msal later st'))
          = S (acquisitions st')).
Proof.
  intros Hstale Hmsal Hne.
  assert (Hmiss : forall (s : State) (now : Z),
             (tokenExpirationTime s <= now)%Z ->
             match accessToken s with
             | Some t =>
                 if truthy t && (now <? tokenExpirationTime s)%Z
                 then Some t else None
             | None => None
             end = None).
  { intros s now Hs. destruct (accessToken s) as [t|]; [|reflexivity].
    destruct (Z.ltb_spec now (tokenExpirationTime s)); [lia|].
    rewrite andb_false_r. reflexivity. }
  destruct token as [|c token]; [congruence|].
  eexists. split.
  - unfold getAccessToken. rewrite (Hmiss st currentTime Hstale).
    unfold acquire. rewrite Hmsal. reflexivity.
  - simpl. repeat split.
    + intros later Hlater. apply getAccessToken_cached; simpl;
        [reflexivity|discriminate|lia].
    + intros later Hlater. unfold getAccessToken.
      rewrite Hmiss by (simpl; lia).
      destruct (acquire msal _) as [s1 [t1|e1]] eqn:Hacq;
        destruct (acquire_state msal _ _ _ Hacq) as [Hn _]; simpl in *;
        exact Hn.
Qed.

Lemma getAccessToken_refresh_witness :
  exists st',
    getAccessToken
      (fun _ => Returns (Some {| result_accessToken := Some (js "token-1");
                                 expiresOn := Some 3600000%Z |}))
      1000 initial = (st', Returns (js "token-1"))
    /\ tokenExpirationTime st' = 3300000%Z.
Proof.
  destruct (getAccessToken_refresh
              (fun _ => Returns (Some {| result_accessToken :=
                                           Some (js "token-1");
                                         expiresOn := Some 3600000%Z |}))
              1000 initial (js "token-1") 3600000)
    as [st' (Hrun & _ & Hexp & _)];
    [simpl; lia|reflexivity|discriminate|].
  exists st'. split; [exact Hrun|exact Hexp].
Defined.

Lemma getAccessToken_cached_witness :
  getAccessToken (fun _ => Returns None) 1000
    {| accessToken := Some (js "token-1"); tokenExpirationTime := 3300000;
       acquisitions := 1; sent := [] |}
  = ( {| accessToken := Some (js "token-1"); tokenExpirationTime := 3300000;
         acquisitions := 1; sent := [] |},
      Returns (js "token-1") ).
Proof.
  apply (getAccessToken_cached (fun _ => Returns None) 1000
           {| accessToken := Some (js "token-1");
              tokenExpirationTime := 3300000;
              acquisitions := 1; sent := [] |} (js "token-1"));
    [reflexivity|discriminate|simpl; lia].
Defined.

Lemma getAccessToken_returns
    (msal : nat -> Outcome (option AuthenticationResult))
    (currentTime : Z) (st st' : State) (token : jsstring) :
  getAccessToken msal currentTime st = (st', Returns token) ->
  accessToken st' = Some token /\ sent st' = sent st.
Proof.
  unfold getAccessToken.
  destruct (accessToken st) as [t|] eqn:Ht.
  - destruct (truthy t && (currentTime <? tokenExpirationTime st)%Z).
    + intros [= <- <-]. auto.
    + destruct (acquire msal st) as [s1 [t1|e1]] eqn:Hacq; [|discriminate].
      intros [= <- <-].
      destruct (acquire_state msal _ _ _ Hacq) as (_ & Hs & Ha & _). auto.
  - destruct (acquire msal st) as [s1 [t1|e1]] eqn:Hacq; [|discriminate].
    intros [= <- <-].
    destruct (acquire_state msal _ _ _ Hacq) as (_ & Hs & Ha & _). auto.
Qed.

(** X15. [get] sends at most one HTTP request, to
    [`${organizationUrl}/${endpoint}`] with the bearer token the client
    now holds, and returns the data of the response. It throws only
    [Error]s whose message opens with ["PowerPlatform API request
    failed: "]: followed by ["Error: Authentication failed"] when no
    token could be had, in which case nothing was sent, or followed by
    the text of what axios threw. *)
Theorem get_outcomes (config : PowerPlatformConfig)
    (msal : nat -> Outcome (option AuthenticationResult))
    (axios : HttpRequest -> Outcome unknown)
    (currentTime : Z) (endpoint : jsstring) (st : State) :
  match get config msal axios currentTime endpoint st with
  | (st', Returns data) =>
      exists token,
        accessToken st' = Some token
        /\ sent st' = sent st ++ [requestFor config endpoint token]
        /\ url (requestFor config endpoint token)
           = organizationUrl config ++ js "/" ++ endpoint
        /\ In (js "Authorization", js "Bearer " ++ token)
              (headers (requestFor config endpoint token))
        /\ axios (requestFor config endpoint token) = Returns data
  | (st', Raises e) =>
      error_name e = js "Error"
      /\ ((error_message e
           = js "PowerPlatform API request failed: Error: Authentication failed"
           /\ sent st' = sent st)
          \/ exists token cause,
               sent st' = sent st ++ [requestFor config endpoint token]
               /\ axios (requestFor config endpoint token) = Raises cause
               /\ error_message e
                  = js "PowerPlatform API request failed: "
                    ++ errorToString cause)
  end.
Proof.
  unfold get.
  destruct (getAccessToken msal currentTime st) as [st1 [token|e1]] eqn:Htok.
  - destruct (getAccessToken_returns msal _ _ _ _ Htok) as [Ha Hs].
    destruct (axios (requestFor config endpoint token)) as [data|cause]
      eqn:Hax; simpl.
    + exists token. rewrite Hs. repeat split; auto.
    + split; [reflexivity|]. right. exists token, cause. rewrite Hs. auto.
  - destruct (getAccessToken_failure msal _ _ _ _ Htok)
      as (-> & _ & _ & _ & Hs).
    simpl. split; [reflexivity|]. left. split; [reflexivity|exact Hs].
Qed.

End ClientFacts.

(* ===================================================================== *)
(** ** index.ts: the configuration check *)
(* ===================================================================== *)

Module IndexFacts.
Import Client Index.

Lemma orEmpty_empty (v : option jsstring) :
  orEmpty v = [] <-> v = None \/ v = Some [].
Proof.
  destruct v as [[|c s]|]; simpl; split; auto; try discriminate.
  intros [H|H]; discriminate H.
Qed.

(** X16. Before a client exists, [getClient] throws exactly when one of
    the four settings is unset or empty; the message lists the missing
    settings, each once, in the order organizationUrl, clientId,
    clientSecret, tenantId, and no client is created. With all four
    set, it creates a client with an empty token cache. Once a client
    exists it is returned as it is, whatever the settings. *)
Theorem getClient_configuration (env : Env) :
  let missing := missingConfigOf (POWERPLATFORM_CONFIG env) in
  missing
  = (if truthy (orEmpty (POWERPLATFORM_URL env)) then []
     else [js "organizationUrl"])
    ++ (if truthy (orEmpty (POWERPLATFORM_CLIENT_ID env)) then []
        else [js "clientId"])
    ++ (if truthy (orEmpty (POWERPLATFORM_CLIENT_SECRET env)) then []
        else [js "clientSecret"])
    ++ (if truthy (orEmpty (POWERPLATFORM_TENANT_ID env)) then []
        else [js "tenantId"])
  /\ (missing = []
      <-> (exists a b c d,
             POWERPLATFORM_URL env = Some a /\ a <> []
             /\ POWERPLATFORM_CLIENT_ID env = Some b /\ b <> []
             /\ POWERPLATFORM_CLIENT_SECRET env = Some c /\ c <> []
             /\ POWERPLATFORM_TENANT_ID env = Some d /\ d <> []))
  /\ getClient env None
     = match missing with
       | [] => (Some initial, Returns tt)
       | _ :: _ =>
           ( None,
             Raises (newError
                       (js "Missing PowerPlatform configuration: "
                        ++ join (js ", ") missing
                        ++ js ". Set these in environment variables.")) )
       end
  /\ (forall st, getClient env (Some st) = (Some st, Returns tt)).
Proof.
  destruct env as [[[|a0 a]|] [[|b0 b]|] [[|c0 c]|] [[|d0 d]|]];
    cbv zeta; (split; [reflexivity|]);
    (split;
     [ split;
       [ try discriminate; intros _;
         eexists _, _, _, _; repeat split; discriminate
       | intros (a' & b' & c' & d' & Ha & Hna & Hb & Hnb & Hc & Hnc
                 & Hd & Hnd);
         simpl in *; try discriminate; try congruence; try reflexivity ]
     | split; [reflexivity|reflexivity] ]).
Qed.

End IndexFacts.

(* ===================================================================== *)
(** ** Tool handlers: what they report *)
(* ===================================================================== *)

Module ToolFacts.
Import PluginService ServiceFacts Tools.

(** X17. The handler of [check-delete-eligibility] never throws. When
    the context yields no service it reports
    ["Failed to check delete eligibility: <message>"]. Otherwise it
    issues one request and reports the service's verdict: the cross
    mark line with the number of entities when the [EntityCollection]
    of the answer lists at least one entity, which are then the
    dependencies shown; the check mark line when it lists none or the
    answer has no such list; and the cross mark line with
    ["0 dependencies found"] when the remote call threw, which is thus
    not reported as a failure. *)
Theorem checkDeleteEligibilityTool_report
    (numberToString : Z -> jsstring)
    (stringify : list unknown -> jsstring)
    (getDependencyService : Completion PowerPlatformClient)
    (id : jsstring) (type : Z) :
  let text (status : jsstring) (deps : list unknown) :=
    js "Delete eligibility for component '" ++ id
    ++ js "' (type " ++ numberToString type ++ js "):"
    ++ [newline; newline] ++ status
    ++ [newline; newline] ++ js "Dependencies:" ++ [newline]
    ++ stringify deps in
  let none (can : bool) (deps : list unknown) (status : jsstring) :=
    can = true /\ deps = []
    /\ status = checkMark
                ++ js " Component can be safely deleted (no dependencies found)" in
  match getDependencyService with
  | Throw e =>
      run (checkDeleteEligibilityTool numberToString stringify
             getDependencyService id type)
      = ( [],
          Normal {| structuredContent := None;
                    content := [ js "Failed to check delete eligibility: "
                                 ++ messageOfError e ] |} )
  | Normal client =>
      exists can deps status,
        run (checkDeleteEligibilityTool numberToString stringify
               getDependencyService id type)
        = ( [RetrieveDependenciesForDelete id type],
            Normal {| structuredContent :=
                        Some {| componentId := id; componentType := type;
                                canDelete := can; dependencies := deps |};
                      content := [text status deps] |} )
        /\ match client (RetrieveDependenciesForDelete id type) with
           | Throw _ =>
               can = false /\ deps = []
               /\ status = crossMark
                           ++ js " Component cannot be deleted (0 dependencies found)"
           | Normal result =>
               match EntityCollection result with
               | None => none can deps status
               | Some ec =>
                   match Entities ec with
                   | None => none can deps status
                   | Some [] => none can deps status
                   | Some (entity :: entities) =>
                       can = false /\ deps = entity :: entities
                       /\ status = crossMark
                                   ++ js " Component cannot be deleted ("
                                   ++ ofLength (length (entity :: entities))
                                   ++ js " dependencies found)"
                   end
               end
           end
  end.
Proof.
  intros text none. destruct getDependencyService as [client|e];
    [|reflexivity].
  unfold run, checkDeleteEligibilityTool, try_catch_error.
  rewrite bind_lift.
  unfold bind at 1.
  pose proof (DependencyFacts.checkDeleteEligibility_run client id type)
    as Hrun.
  unfold run in Hrun. rewrite Hrun.
  destruct (client (RetrieveDependenciesForDelete id type)) as [result|e].
  - eexists _, _, _. split; [reflexivity|].
    unfold statusTextOf, DependencyService.dependenciesOf, none.
    cbn [DependencyService.canDelete DependencyService.dependencies].
    destruct (EntityCollection result) as [ec|]; [|repeat split].
    destruct (Entities ec) as [[|entity entities]|]; repeat split.
  - eexists _, _, _. split; [reflexivity|]. repeat split.
Qed.

Lemma getPluginTraceLogs_at (client : PowerPlatformClient)
    (dateThresholdISO : Z -> option jsstring) (options : TraceLogOptions)
    (log : list Request) :
  getPluginTraceLogs client dateThresholdISO options log
  = match dateThresholdISO (hoursBackOf options) with
    | None => (log, Throw (RangeError (js "Invalid time value")))
    | Some dateThreshold =>
        match client (traceLogQuery dateThreshold options) with
        | Normal resp =>
            ( log ++ [traceLogQuery dateThreshold options],
              Normal {| totalCount := length (map parseLog (value resp));
                        logs := map parseLog (value resp) |} )
        | Throw e => (log ++ [traceLogQuery dateThreshold options], Throw e)
        end
    end.
Proof.
  unfold getPluginTraceLogs.
  destruct (dateThresholdISO (hoursBackOf options)) as [dateThreshold|];
    [|reflexivity].
  rewrite bind_request.
  destruct (client (traceLogQuery dateThreshold options)); reflexivity.
Qed.

(** X18. The handler of [get-plugin-trace-logs] never throws. A
    failure of the context, of the printing of the date threshold
    ([hoursBack], 24 when not given, leading to no valid date) or of
    the remote call is reported as
    ["Failed to get plugin trace logs: <message>"] without structured
    content; the first two before any request. Otherwise the report
    counts as total the logs fetched and as exceptions those with a
    non-empty exception text, which are at most the total. *)
Theorem getPluginTraceLogsTool_report
    (stringify : list ParsedLog -> jsstring)
    (dateThresholdISO : Z -> option jsstring)
    (getPluginService : Completion PowerPlatformClient)
    (args : TraceLogArgs) :
  let failed (e : Exn) : ToolResult TraceLogs :=
    {| structuredContent := None;
       content := [ js "Failed to get plugin trace logs: "
                    ++ messageOfError e ] |} in
  let hoursBack :=
    match arg_hoursBack args with Some h => h | None => 24%Z end in
  match getPluginService with
  | Throw e =>
      run (getPluginTraceLogsTool stringify dateThresholdISO
             getPluginService args) = ([], Normal (failed e))
  | Normal client =>
      match dateThresholdISO hoursBack with
      | None =>
          run (getPluginTraceLogsTool stringify dateThresholdISO
                 getPluginService args)
          = ([], Normal (failed (RangeError (js "Invalid time value"))))
      | Some dateThreshold =>
          let query := traceLogQuery dateThreshold (traceLogOptionsOf args) in
          match client query with
          | Throw e =>
              run (getPluginTraceLogsTool stringify dateThresholdISO
                     getPluginService args) = ([query], Normal (failed e))
          | Normal resp =>
              exists r exceptionCount,
                run (getPluginTraceLogsTool stringify dateThresholdISO
                       getPluginService args)
                = ( [query],
                    Normal
                      {| structuredContent := Some r;
                         content :=
                           [ js "Plugin trace logs:" ++ [newline; newline]
                             ++ js "Total Logs: " ++ ofLength (totalCount r)
                             ++ [newline] ++ js "Exceptions: "
                             ++ ofLength exceptionCount
                             ++ [newline; newline] ++ stringify (logs r) ] |} )
                /\ totalCount r = length (value resp)
                /\ exceptionCount
                   = length (filter (fun l =>
                                       opt_truthy (TraceLog.exceptiondetails l))
                                    (value resp))
                /\ exceptionCount <= totalCount r
          end
      end
  end.
Proof.
  intros failed hoursBack. destruct getPluginService as [client|e];
    [|reflexivity].
  pose proof (getPluginTraceLogs_at client dateThresholdISO
                (traceLogOptionsOf args) []) as Hat.
  change (hoursBackOf (traceLogOptionsOf args)) with hoursBack in Hat.
  destruct (dateThresholdISO hoursBack) as [dateThreshold|].
  2: { unfold run, getPluginTraceLogsTool, try_catch_error.
       rewrite bind_lift. unfold bind at 1. rewrite Hat. reflexivity. }
  intros query. fold query in Hat.
  destruct (client query) as [resp|e];
    unfold run, getPluginTraceLogsTool, try_catch_error;
    rewrite bind_lift; unfold bind at 1; rewrite Hat; [|reflexivity].
  eexists _, _. split; [reflexivity|]. simpl.
  assert (Hcount :
            length (filter (fun l : ParsedLog => hasException (parsed l))
                      (map parseLog (value resp)))
            = length (filter (fun l =>
                                opt_truthy (TraceLog.exceptiondetails l))
                             (value resp))).
  { clear Hat. induction (value resp) as [|l ls IH]; simpl; [reflexivity|].
    destruct (opt_truthy (TraceLog.exceptiondetails l)); simpl;
      rewrite IH; reflexivity. }
  split; [apply length_map|]. split; [exact Hcount|].
  rewrite Hcount, length_map. apply filter_length_le.
Qed.

End ToolFacts.

(* ===================================================================== *)
(** ** Facts about the listing of assemblies *)
(* ===================================================================== *)

Module AssemblyCatalogFacts.
Import JS Json AssemblyCatalog.

Lemma isNumber_iff (n : Z) (x : option unknown) :
  isNumber n x = true <-> x = Some (JNumber n).
Proof.
  destruct x as [[| b | z | s | items | o]|]; simpl;
    try (split; [discriminate | congruence]).
  rewrite Z.eqb_eq. split; [intros ->; reflexivity | congruence].
Qed.

Lemma shown_iff (row : Obj) :
  shown row = true <->
  truthyValue (lookup (js "ishidden") row) = false
  \/ exists o v,
       lookup (js "ishidden") row = Some (JObject o)
       /\ lookup (js "Value") o = Some v
       /\ truthyValue (Some v) = false.
Proof.
  unfold shown, isHiddenOf, prop.
  destruct (lookup (js "ishidden") row) as [x|] eqn:Hh.
  - destruct x as [| b | z | s | items | o];
      try (rewrite Bool.negb_true_iff; split;
           [ intros H; left; exact H
           | intros [H | (o' & v' & Ho & _)]; [exact H | discriminate] ]).
    destruct (lookup (js "Value") o) as [v|] eqn:Hv.
    + rewrite Bool.negb_true_iff. split.
      * intros H. right. exists o, v. auto.
      * intros [H | (o' & v' & Ho & Hv' & Ht)]; [discriminate|].
        injection Ho as <-. congruence.
    + split; [discriminate|].
      intros [H | (o' & v' & Ho & Hv' & Ht)]; [discriminate|].
      injection Ho as <-. congruence.
  - split; [intros _; left; reflexivity | reflexivity].
Qed.

Lemma isolationMode_label (row : Obj) :
  (isolationMode (formatAssembly row) = js "None"
   <-> lookup (js "isolationmode") row = Some (JNumber 1))
  /\ (isolationMode (formatAssembly row) = js "Sandbox"
      <-> lookup (js "isolationmode") row = Some (JNumber 2))
  /\ (isolationMode (formatAssembly row) = js "External"
      <-> lookup (js "isolationmode") row <> Some (JNumber 1)
          /\ lookup (js "isolationmode") row <> Some (JNumber 2)).
Proof.
  unfold formatAssembly; cbn [isolationMode].
  destruct (isNumber 1 (lookup (js "isolationmode") row)) eqn:H1.
  - apply isNumber_iff in H1. rewrite H1.
    repeat split; try congruence; try discriminate;
      try (intros [H _]; congruence).
  - destruct (isNumber 2 (lookup (js "isolationmode") row)) eqn:H2.
    + apply isNumber_iff in H2. rewrite H2.
      repeat split; try congruence; try discriminate;
        try (intros [_ H]; congruence).
    + assert (N1 : lookup (js "isolationmode") row <> Some (JNumber 1)).
      { intros E. apply isNumber_iff in E. congruence. }
      assert (N2 : lookup (js "isolationmode") row <> Some (JNumber 2)).
      { intros E. apply isNumber_iff in E. congruence. }
      repeat split; try assumption; try discriminate;
        intros E; contradiction.
Qed.

(** X19. [getPluginAssemblies] asks for one page of assemblies and
    throws what that request threw. Of the rows fetched it returns, in
    the order fetched, those that are not hidden: a row is shown exactly
    when its [ishidden] is falsy (absent, [null], [false]) or is a
    managed property whose [Value] is falsy; an [ishidden] object
    without a [Value] hides the row. [totalCount] is the number of
    assemblies returned, at most the number fetched, and each one is
    labelled ["None"] for isolation mode 1, ["Sandbox"] for 2 and
    ["External"] for anything else. *)
Theorem getPluginAssemblies_listing
    (number : Type) (numberToString : number -> jsstring)
    (get : jsstring -> Completion (ApiCollectionResponse Obj))
    (includeManaged : bool) (maxRecords : number) :
  match get (assembliesEndpoint numberToString includeManaged maxRecords) with
  | Throw e =>
      getPluginAssemblies numberToString get includeManaged maxRecords
      = Throw e
  | Normal fetched =>
      exists r,
        getPluginAssemblies numberToString get includeManaged maxRecords
        = Normal r
        /\ totalCount r = length (assemblies r)
        /\ totalCount r <= length (value fetched)
        /\ Forall2
             (fun row a =>
                pluginassemblyid a = lookup (js "pluginassemblyid") row
                /\ name a = lookup (js "name") row
                /\ modifiedBy a
                   = prop "fullname" (lookup (js "modifiedby") row)
                /\ (isolationMode a = js "None"
                    <-> lookup (js "isolationmode") row = Some (JNumber 1))
                /\ (isolationMode a = js "Sandbox"
                    <-> lookup (js "isolationmode") row = Some (JNumber 2))
                /\ (isolationMode a = js "External"
                    <-> lookup (js "isolationmode") row <> Some (JNumber 1)
                        /\ lookup (js "isolationmode") row
                           <> Some (JNumber 2)))
             (filter shown (value fetched)) (assemblies r)
        /\ (forall row,
              In row (filter shown (value fetched))
              <-> In row (value fetched)
                  /\ (truthyValue (lookup (js "ishidden") row) = false
                      \/ exists o v,
                           lookup (js "ishidden") row = Some (JObject o)
                           /\ lookup (js "Value") o = Some v
                           /\ truthyValue (Some v) = false))
  end.
Proof.
  unfold getPluginAssemblies.
  destruct (get (assembliesEndpoint numberToString includeManaged maxRecords))
    as [fetched|e]; [|reflexivity].
  eexists; split; [reflexivity|]. cbn [totalCount assemblies].
  split; [reflexivity|]. split.
  { rewrite length_map. apply filter_length_le. }
  split.
  { induction (filter shown (value fetched)) as [|row rows IH];
      cbn [map]; constructor; [|exact IH].
    do 3 (split; [reflexivity|]). exact (isolationMode_label row). }
  intros row. rewrite filter_In, shown_iff. reflexivity.
Qed.

End AssemblyCatalogFacts.

(* ===================================================================== *)
(** ** Facts about the entity metadata service *)
(* ===================================================================== *)

Module EntityFacts.
Import JS Json EntityService.

Lemma endsWith_iff (s suffix : jsstring) :
  endsWith s suffix = true <-> exists p, s = p ++ suffix.
Proof.
  unfold endsWith. rewrite Bool.andb_true_iff, Nat.leb_le. split.
  - intros [_ He].
    destruct (JSFacts.eqb_spec (skipn (length s - length suffix) s) suffix)
      as [E|]; [|discriminate].
    exists (firstn (length s - length suffix) s).
    transitivity (firstn (length s - length suffix) s
                  ++ skipn (length s - length suffix) s).
    + symmetry. apply firstn_skipn.
    + f_equal. exact E.
  - intros [p ->]. rewrite length_app. split; [lia|].
    replace (length p + length suffix - length suffix) with (length p)
      by lia.
    rewrite skipn_app, skipn_all, Nat.sub_diag. simpl.
    apply JSFacts.eqb_refl.
Qed.

Lemma startsWith_iff (s prefix : jsstring) :
  startsWith s prefix = true <-> exists rest, s = prefix ++ rest.
Proof.
  unfold startsWith. split.
  - intros He.
    destruct (JSFacts.eqb_spec (firstn (length prefix) s) prefix)
      as [E|]; [|discriminate].
    exists (skipn (length prefix) s).
    transitivity (firstn (length prefix) s ++ skipn (length prefix) s).
    + symmetry. apply firstn_skipn.
    + f_equal. exact E.
  - intros [rest ->].
    rewrite firstn_app, firstn_all, Nat.sub_diag. simpl.
    rewrite app_nil_r. apply JSFacts.eqb_refl.
Qed.

Lemma hasNameSuffix_iff (n : jsstring) :
  hasNameSuffix n = true
  <-> exists base, base <> [] /\ n = base ++ js "name".
Proof.
  unfold hasNameSuffix.
  rewrite Bool.andb_true_iff, endsWith_iff, Nat.ltb_lt. split.
  - intros [[p ->] Hl]. exists p. split; [|reflexivity].
    intros ->. simpl in Hl. lia.
  - intros (base & Hb & ->). split; [exists base; reflexivity|].
    rewrite length_app. destruct base; [congruence|]. simpl. lia.
Qed.

Lemma slice_name (base : jsstring) :
  slice_0_minus4 (base ++ js "name") = base.
Proof.
  unfold slice_0_minus4. rewrite length_app.
  replace (length base + length (js "name") - 4) with (length base)
    by (simpl; lia).
  rewrite firstn_app, firstn_all, Nat.sub_diag. simpl. apply app_nil_r.
Qed.

Lemma hasNameSuffix_slice (n : jsstring) :
  hasNameSuffix n = true -> n = slice_0_minus4 n ++ js "name".
Proof.
  intros H. apply hasNameSuffix_iff in H. destruct H as (base & _ & ->).
  rewrite slice_name. reflexivity.
Qed.

Lemma yominame_hasNameSuffix (n : jsstring) :
  endsWith n (js "yominame") = true -> hasNameSuffix n = true.
Proof.
  intros H. apply endsWith_iff in H. destruct H as [p ->].
  apply hasNameSuffix_iff. exists (p ++ js "yomi"). split.
  - destruct p; discriminate.
  - rewrite <- app_assoc. reflexivity.
Qed.

Lemma set_has_iff (x : jsstring) (s : list jsstring) :
  set_has x s = true <-> In x s.
Proof.
  unfold set_has. rewrite existsb_exists. split.
  - intros (y & Hy & E). destruct (JSFacts.eqb_spec x y); congruence.
  - intros H. exists x. split; [exact H | apply JSFacts.eqb_refl].
Qed.

Lemma set_add_In (y x : jsstring) (s : list jsstring) :
  In y (set_add x s) <-> y = x \/ In y s.
Proof.
  unfold set_add. destruct (set_has x s) eqn:H.
  - apply set_has_iff in H. split; [auto|]. intros [->|]; assumption.
  - rewrite in_app_iff. simpl. intuition congruence.
Qed.

Lemma refs_has_iff (r : Ref) (s : list Ref) :
  refs_has r s = true <-> In r s.
Proof.
  unfold refs_has. rewrite existsb_exists. split.
  - intros (y & Hy & E). apply Nat.eqb_eq in E. rewrite E. exact Hy.
  - intros H. exists r. split; [exact H | apply Nat.eqb_refl].
Qed.

Lemma refs_add_In (y x : Ref) (s : list Ref) :
  In y (refs_add x s) <-> y = x \/ In y s.
Proof.
  unfold refs_add. destruct (refs_has x s) eqn:H.
  - apply refs_has_iff in H. split; [auto|]. intros [->|]; assumption.
  - rewrite in_app_iff. simpl. intuition congruence.
Qed.

Lemma attributesToRemove_In (baseNames : list jsstring)
    (entries : list (jsstring * Ref)) (removed : list Ref) (r : Ref) :
  In r (attributesToRemove baseNames entries removed)
  <-> In r removed
      \/ exists b, In (b, r) entries /\ In b baseNames.
Proof.
  revert removed; induction entries as [|[b j] entries IH];
    intros removed; simpl.
  - split; [auto|]. intros [H|(b & [] & _)]. exact H.
  - rewrite IH. destruct (set_has b baseNames) eqn:Hb.
    + apply set_has_iff in Hb. rewrite refs_add_In. split.
      * intros [[->|H]|(b' & H & H')]; eauto.
      * intros [H|(b' & [E|H] & H')]; eauto.
        injection E as <- <-. auto.
    + split.
      * intros [H|(b' & H & H')]; eauto.
      * intros [H|(b' & [E|H] & H')]; eauto.
        injection E as <- <-. apply set_has_iff in H'. congruence.
Qed.

Lemma names_set_In_inv (k : jsstring) (v : Ref)
    (m : list (jsstring * Ref)) (b : jsstring) (j : Ref) :
  In (b, j) (names_set k v m) -> (b = k /\ j = v) \/ In (b, j) m.
Proof.
  induction m as [|[k' v'] m IH]; simpl.
  - intros [E|[]]. injection E as <- <-. auto.
  - destruct (JSFacts.eqb_spec k' k) as [->|Hk]; simpl.
    + intros [E|H]; [injection E as <- <-|]; auto.
    + intros [E|H]; [auto|]. destruct (IH H); auto.
Qed.

Lemma names_set_In_same (k : jsstring) (v : Ref)
    (m : list (jsstring * Ref)) :
  In (k, v) (names_set k v m).
Proof.
  induction m as [|[k' v'] m IH]; simpl; [auto|].
  destruct (JSFacts.eqb_spec k' k) as [->|Hk]; simpl; auto.
Qed.

Lemma names_set_In_other (k : jsstring) (v : Ref)
    (m : list (jsstring * Ref)) (b : jsstring) (j : Ref) :
  In (b, j) m -> b <> k -> In (b, j) (names_set k v m).
Proof.
  intros H Hb. induction m as [|[k' v'] m IH]; simpl; [destruct H|].
  destruct (JSFacts.eqb_spec k' k) as [->|Hk]; simpl.
  - destruct H as [E|H]; [|auto]. injection E as <- <-. congruence.
  - destruct H as [E|H]; auto.
Qed.

Lemma scan_baseNames (i : Ref) (l : list Attribute.t)
    (B : list jsstring) (N : list (jsstring * Ref)) (x : jsstring) :
  In x (fst (scan i l B N))
  <-> In x B
      \/ exists a, In a l /\ hasNameSuffix (logicalNameOf a) = false
                   /\ logicalNameOf a = x.
Proof.
  revert i B N; induction l as [|a l IH]; intros i B N; simpl.
  - split; [auto|]. intros [H|(a & [] & _)]. exact H.
  - destruct (hasNameSuffix (logicalNameOf a)) eqn:Ha; rewrite IH.
    + split.
      * intros [H|(b & Hb & H1 & H2)];
          [left; exact H | right; exists b; auto].
      * intros [H|(b & [<-|Hb] & H1 & H2)];
          [left; exact H | congruence | right; exists b; auto].
    + rewrite set_add_In. split.
      * intros [[->|H]|(b & Hb & H1 & H2)];
          [right; exists a; auto | left; exact H | right; exists b; auto].
      * intros [H|(b & [<-|Hb] & H1 & H2)];
          [ left; right; exact H | left; left; symmetry; exact H2
          | right; exists b; auto ].
Qed.

Lemma scan_names_sound (i : Ref) (l : list Attribute.t)
    (B : list jsstring) (N : list (jsstring * Ref))
    (b : jsstring) (j : Ref) :
  In (b, j) (snd (scan i l B N)) ->
  In (b, j) N
  \/ exists k a, j = i + k /\ nth_error l k = Some a
                 /\ hasNameSuffix (logicalNameOf a) = true
                 /\ slice_0_minus4 (logicalNameOf a) = b.
Proof.
  revert i B N; induction l as [|a l IH]; intros i B N; simpl; [auto|].
  destruct (hasNameSuffix (logicalNameOf a)) eqn:Ha; intros H;
    apply IH in H.
  - destruct H as [H|(k & a' & -> & Hk & H1 & H2)].
    + apply names_set_In_inv in H. destruct H as [[-> ->]|H]; [|auto].
      right. exists 0, a. rewrite Nat.add_0_r. auto.
    + right. exists (S k), a'. split; [lia|]. auto.
  - destruct H as [H|(k & a' & -> & Hk & H1 & H2)]; [auto|].
    right. exists (S k), a'. split; [lia|]. auto.
Qed.

Lemma scan_names_keep (i : Ref) (l : list Attribute.t)
    (B : list jsstring) (N : list (jsstring * Ref))
    (b : jsstring) (j : Ref) :
  In (b, j) N ->
  (forall a, In a l -> hasNameSuffix (logicalNameOf a) = true ->
             slice_0_minus4 (logicalNameOf a) <> b) ->
  In (b, j) (snd (scan i l B N)).
Proof.
  revert i B N; induction l as [|a l IH]; intros i B N HN Hl; simpl;
    [exact HN|].
  destruct (hasNameSuffix (logicalNameOf a)) eqn:Ha.
  - apply IH; [|intros a' Ha'; apply Hl; right; exact Ha'].
    apply names_set_In_other; [exact HN|].
    intros E. apply (Hl a); [left; reflexivity | exact Ha | auto].
  - apply IH; [exact HN|]. intros a' Ha'; apply Hl; right; exact Ha'.
Qed.

Lemma scan_names_complete (i : Ref) (l : list Attribute.t)
    (B : list jsstring) (N : list (jsstring * Ref))
    (k : nat) (a : Attribute.t) :
  nth_error l k = Some a ->
  hasNameSuffix (logicalNameOf a) = true ->
  (forall k' a', k < k' -> nth_error l k' = Some a' ->
                 logicalNameOf a' <> logicalNameOf a) ->
  In (slice_0_minus4 (logicalNameOf a), i + k) (snd (scan i l B N)).
Proof.
  revert i B N k; induction l as [|h l IH]; intros i B N k Hk Ha Hlast.
  - destruct k; discriminate.
  - destruct k as [|k]; simpl in Hk.
    + injection Hk as ->. simpl. rewrite Ha, Nat.add_0_r.
      apply scan_names_keep; [apply names_set_In_same|].
      intros a' Hin Ha' E.
      destruct (In_nth_error _ _ Hin) as [k' Hk'].
      apply (Hlast (S k') a'); [lia | exact Hk' |].
      rewrite (hasNameSuffix_slice _ Ha), (hasNameSuffix_slice _ Ha').
      rewrite E. reflexivity.
    + cbn [scan]. replace (i + S k) with (S i + k) by lia.
      destruct (hasNameSuffix (logicalNameOf h)); apply IH; auto;
        intros k' a' Hlt Hk'; apply (Hlast (S k') a'); auto; lia.
Qed.

Lemma withoutRemoved_In (i : Ref) (R : list Ref) (l : list Attribute.t)
    (a : Attribute.t) :
  In a (withoutRemoved i R l)
  <-> exists k, nth_error l k = Some a /\ refs_has (i + k) R = false.
Proof.
  revert i; induction l as [|h l IH]; intros i; simpl.
  - split; [intros [] | intros ([|k] & Hk & _); discriminate].
  - destruct (refs_has i R) eqn:Hi.
    + rewrite IH. split.
      * intros (k & Hk & H). exists (S k). split; [exact Hk|].
        replace (i + S k) with (S i + k) by lia. exact H.
      * intros ([|k] & Hk & H).
        -- rewrite Nat.add_0_r in H. congruence.
        -- exists k. split; [exact Hk|].
           replace (S i + k) with (i + S k) by lia. exact H.
    + simpl. rewrite IH. split.
      * intros [->|(k & Hk & H)].
        -- exists 0. rewrite Nat.add_0_r. auto.
        -- exists (S k). split; [exact Hk|].
           replace (i + S k) with (S i + k) by lia. exact H.
      * intros ([|k] & Hk & H).
        -- left. simpl in Hk. congruence.
        -- right. exists k. split; [exact Hk|].
           replace (S i + k) with (i + S k) by lia. exact H.
Qed.

Lemma withoutRemoved_filter (p : Attribute.t -> bool) (i : Ref)
    (R : list Ref) (l : list Attribute.t) :
  (forall k a, nth_error l k = Some a -> refs_has (i + k) R = true ->
               p a = false) ->
  filter p (withoutRemoved i R l) = filter p l.
Proof.
  revert i; induction l as [|h l IH]; intros i H; simpl; [reflexivity|].
  assert (Hrest : filter p (withoutRemoved (S i) R l) = filter p l).
  { apply IH. intros k a Hk Hr. apply (H (S k) a Hk).
    replace (i + S k) with (S i + k) by lia. exact Hr. }
  destruct (refs_has i R) eqn:Hi.
  - rewrite (H 0 h eq_refl); [exact Hrest|].
    rewrite Nat.add_0_r. exact Hi.
  - simpl. rewrite Hrest. reflexivity.
Qed.

Lemma withoutRemoved_length (i : Ref) (R : list Ref)
    (l : list Attribute.t) :
  length (withoutRemoved i R l) <= length l.
Proof.
  revert i; induction l as [|h l IH]; intros i; simpl; [lia|].
  specialize (IH (S i)). destruct (refs_has i R); simpl; lia.
Qed.

Lemma attributesKept_eq (fetched : list Attribute.t) :
  attributesKept fetched
  = withoutRemoved 0
      (attributesToRemove
         (fst (scan 0 (filter notYomiName fetched) [] []))
         (snd (scan 0 (filter notYomiName fetched) [] [])) [])
      (filter notYomiName fetched).
Proof.
  unfold attributesKept.
  destruct (scan 0 (filter notYomiName fetched) [] []); reflexivity.
Qed.

(** What is removed: the last attribute named [<base>name] when an
    attribute named [<base>], itself no such name, was fetched. *)
Lemma removed_sound (l : list Attribute.t) (j : Ref) :
  In j (attributesToRemove (fst (scan 0 l [] [])) (snd (scan 0 l [] [])) [])
  -> exists a b,
       nth_error l j = Some a
       /\ hasNameSuffix (logicalNameOf a) = true
       /\ In b l
       /\ hasNameSuffix (logicalNameOf b) = false
       /\ logicalNameOf b = slice_0_minus4 (logicalNameOf a).
Proof.
  intros H. apply attributesToRemove_In in H.
  destruct H as [[]|(base & HN & HB)].
  apply scan_names_sound in HN.
  destruct HN as [[]|(k & a & -> & Hk & Ha & <-)].
  apply scan_baseNames in HB. destruct HB as [[]|(b & Hb & Hb1 & Hb2)].
  exists a, b. auto.
Qed.

Lemma removed_complete (l : list Attribute.t) (k : nat)
    (a b : Attribute.t) :
  nth_error l k = Some a ->
  hasNameSuffix (logicalNameOf a) = true ->
  (forall k' a', k < k' -> nth_error l k' = Some a' ->
                 logicalNameOf a' <> logicalNameOf a) ->
  In b l ->
  hasNameSuffix (logicalNameOf b) = false ->
  logicalNameOf b = slice_0_minus4 (logicalNameOf a) ->
  In k (attributesToRemove (fst (scan 0 l [] [])) (snd (scan 0 l [] [])) []).
Proof.
  intros Hk Ha Hlast Hb Hb1 Hb2. apply attributesToRemove_In. right.
  exists (slice_0_minus4 (logicalNameOf a)). split.
  - exact (scan_names_complete 0 l [] [] k a Hk Ha Hlast).
  - apply scan_baseNames. right. exists b. auto.
Qed.

Lemma filter_filter_implied {A : Type} (p q : A -> bool) (l : list A) :
  (forall a, p a = true -> q a = true) ->
  filter p (filter q l) = filter p l.
Proof.
  intros H. induction l as [|a l IH]; simpl; [reflexivity|].
  destruct (q a) eqn:Hq; simpl.
  - rewrite IH. reflexivity.
  - destruct (p a) eqn:Hp; [|exact IH]. apply H in Hp. congruence.
Qed.

Lemma notYomiName_iff (a : Attribute.t) :
  notYomiName a = true
  <-> ~ exists p, logicalNameOf a = p ++ js "yominame".
Proof.
  unfold notYomiName. rewrite Bool.negb_true_iff, <- endsWith_iff.
  destruct (endsWith (logicalNameOf a) (js "yominame")); split; congruence.
Qed.

(** X20. [getEntityAttributes] throws what its request threw and
    otherwise returns some of the attributes fetched, never one whose
    logical name ends with ["yominame"]. Every attribute whose logical
    name is not of the form [<base>name] with a non-empty base is
    returned, in the order fetched; an attribute named [<base>name] is
    returned as well when no fetched attribute is named [<base>], or
    only ones that are themselves names of the form [<x>name]. *)
Theorem getEntityAttributes_kept
    (getAttributes :
       jsstring -> Completion (ApiCollectionResponse Attribute.t))
    (entityName : jsstring) :
  let base (a : Attribute.t) := negb (hasNameSuffix (logicalNameOf a)) in
  match getAttributes (attributesEndpoint entityName) with
  | Throw e => getEntityAttributes getAttributes entityName = Throw e
  | Normal response =>
      exists r,
        getEntityAttributes getAttributes entityName = Normal r
        /\ length (value r) <= length (value response)
        /\ (forall a, In a (value r) ->
              In a (value response)
              /\ ~ exists p, logicalNameOf a = p ++ js "yominame")
        /\ filter base (value r) = filter base (value response)
        /\ (forall a,
              In a (value response) ->
              ~ (exists p, logicalNameOf a = p ++ js "yominame") ->
              (forall b, In b (value response) ->
                         logicalNameOf a = logicalNameOf b ++ js "name" ->
                         hasNameSuffix (logicalNameOf b) = true) ->
              In a (value r))
        /\ (forall n,
              hasNameSuffix n = true
              <-> exists b, b <> [] /\ n = b ++ js "name")
  end.
Proof.
  intros base. unfold getEntityAttributes.
  destruct (getAttributes (attributesEndpoint entityName))
    as [response|e]; [|reflexivity].
  eexists; split; [reflexivity|]. cbn [value].
  rewrite attributesKept_eq.
  set (l := filter notYomiName (value response)).
  set (R := attributesToRemove _ _ _).
  split.
  { etransitivity; [apply withoutRemoved_length|]. apply filter_length_le. }
  split.
  { intros a Ha. apply withoutRemoved_In in Ha.
    destruct Ha as (k & Hk & _). apply nth_error_In in Hk.
    apply filter_In in Hk. destruct Hk as [Hin Hy].
    split; [exact Hin | apply notYomiName_iff; exact Hy]. }
  split.
  { rewrite withoutRemoved_filter.
    - apply filter_filter_implied. intros a Ha. unfold notYomiName.
      destruct (endsWith (logicalNameOf a) (js "yominame")) eqn:Hy;
        [|reflexivity].
      apply yominame_hasNameSuffix in Hy. unfold base in Ha.
      rewrite Hy in Ha. discriminate.
    - intros k a Hk Hr. apply refs_has_iff in Hr.
      destruct (removed_sound l k Hr) as (a' & b & Hk' & Ha' & _).
      unfold base. rewrite Hk in Hk'. injection Hk' as <-.
      rewrite Ha'. reflexivity. }
  split.
  { intros a Hin Hy Hbase.
    assert (Hl : In a l).
    { apply filter_In. split; [exact Hin | apply notYomiName_iff; exact Hy]. }
    destruct (In_nth_error _ _ Hl) as [k Hk].
    apply withoutRemoved_In. exists k. split; [exact Hk|].
    destruct (refs_has (0 + k) R) eqn:Hr; [|reflexivity].
    apply refs_has_iff in Hr.
    destruct (removed_sound l k Hr) as (a' & b & Hk' & Ha' & Hb & Hb1 & Hb2).
    simpl in Hk'. rewrite Hk in Hk'. injection Hk' as <-.
    apply filter_In in Hb. destruct Hb as [Hb _].
    rewrite (Hbase b Hb) in Hb1; [discriminate|].
    rewrite Hb2. apply hasNameSuffix_slice. exact Ha'. }
  exact hasNameSuffix_iff.
Qed.

Lemma distinct_names_filter (keep : Attribute.t -> bool)
    (attributes : list Attribute.t) :
  NoDup (map logicalNameOf attributes) ->
  NoDup (map logicalNameOf (filter keep attributes)).
Proof.
  induction attributes as [|a l IH]; simpl; [auto|].
  intros H. inversion H as [|x xs Hx Hxs]; subst.
  destruct (keep a); simpl; [|auto].
  constructor; [|auto]. intros Hin. apply Hx.
  apply in_map_iff in Hin. destruct Hin as (b & E & Hb).
  apply filter_In in Hb. apply in_map_iff. exists b. tauto.
Qed.

Lemma distinct_names_position (attributes : list Attribute.t)
    (i j : nat) (a b : Attribute.t) :
  NoDup (map logicalNameOf attributes) ->
  nth_error attributes i = Some a -> nth_error attributes j = Some b ->
  logicalNameOf a = logicalNameOf b -> i = j.
Proof.
  intros Hnd Hi Hj E.
  apply (proj1 (NoDup_nth_error (map logicalNameOf attributes)) Hnd).
  - rewrite length_map. apply nth_error_Some. congruence.
  - rewrite !nth_error_map, Hi, Hj. simpl. congruence.
Qed.

(** X21. When the attributes fetched have pairwise distinct logical
    names, [getEntityAttributes] returns exactly the fetched
    attributes whose logical name does not end with ["yominame"] and is
    not [<base>name] for the non-empty logical name [<base>] of a
    fetched attribute that is itself no name of that form. *)
Theorem getEntityAttributes_distinct_names
    (getAttributes :
       jsstring -> Completion (ApiCollectionResponse Attribute.t))
    (entityName : jsstring) (response : ApiCollectionResponse Attribute.t) :
  getAttributes (attributesEndpoint entityName) = Normal response ->
  NoDup (map logicalNameOf (value response)) ->
  exists r,
    getEntityAttributes getAttributes entityName = Normal r
    /\ forall a,
         In a (value r)
         <-> In a (value response)
             /\ ~ (exists p, logicalNameOf a = p ++ js "yominame")
             /\ ~ (exists b,
                     In b (value response)
                     /\ logicalNameOf b <> []
                     /\ logicalNameOf a = logicalNameOf b ++ js "name"
                     /\ ~ (exists x, x <> []
                             /\ logicalNameOf b = x ++ js "name")).
Proof.
  intros Hget Hnd. unfold getEntityAttributes. rewrite Hget.
  eexists; split; [reflexivity|]. cbn [value].
  rewrite attributesKept_eq.
  assert (Hnd' : NoDup (map logicalNameOf
                          (filter notYomiName (value response))))
    by (apply distinct_names_filter; exact Hnd).
  set (l := filter notYomiName (value response)) in *.
  set (R := attributesToRemove _ _ _).
  intros a. rewrite withoutRemoved_In. split.
  - intros (k & Hk & Hr).
    assert (Hl : In a l) by (apply nth_error_In in Hk; exact Hk).
    apply filter_In in Hl. destruct Hl as [Hin Hy].
    split; [exact Hin|]. split; [apply notYomiName_iff; exact Hy|].
    intros (b & Hb & Hne & E & Hnot).
    assert (Hb1 : hasNameSuffix (logicalNameOf b) = false).
    { destruct (hasNameSuffix (logicalNameOf b)) eqn:H; [|reflexivity].
      apply hasNameSuffix_iff in H. contradiction. }
    assert (Ha : hasNameSuffix (logicalNameOf a) = true).
    { apply hasNameSuffix_iff. exists (logicalNameOf b). auto. }
    assert (Hbl : In b l).
    { apply filter_In. split; [exact Hb|]. unfold notYomiName.
      destruct (endsWith (logicalNameOf b) (js "yominame")) eqn:H;
        [|reflexivity].
      apply yominame_hasNameSuffix in H. congruence. }
    assert (HR : In k R).
    { apply (removed_complete l k a b Hk Ha); auto.
      - intros k' a' Hlt Hk' E'.
        assert (k' = k)
          by exact (distinct_names_position l k' k a' a Hnd' Hk' Hk E').
        lia.
      - rewrite E, slice_name. reflexivity. }
    apply refs_has_iff in HR. simpl in Hr. congruence.
  - intros (Hin & Hy & Hnone).
    assert (Hl : In a l).
    { apply filter_In. split; [exact Hin | apply notYomiName_iff; exact Hy]. }
    destruct (In_nth_error _ _ Hl) as [k Hk].
    exists k. split; [exact Hk|].
    destruct (refs_has (0 + k) R) eqn:Hr; [|reflexivity].
    apply refs_has_iff in Hr.
    destruct (removed_sound l k Hr) as (a' & b & Hk' & Ha' & Hb & Hb1 & Hb2).
    simpl in Hk'. rewrite Hk in Hk'. injection Hk' as <-.
    exfalso. apply Hnone. exists b.
    apply filter_In in Hb. destruct Hb as [Hb _].
    pose proof (hasNameSuffix_slice _ Ha') as E.
    rewrite <- Hb2 in E.
    split; [exact Hb|]. split.
    + apply hasNameSuffix_iff in Ha'. destruct Ha' as (x & Hx & Ex).
      rewrite Hb2, Ex, slice_name. exact Hx.
    + split; [exact E|]. intros H. apply hasNameSuffix_iff in H. congruence.
Qed.

Lemma getEntityAttributes_distinct_names_witness :
  exists r,
    getEntityAttributes (fun _ => Normal EntityScenarios.contactAttributes)
      (js "contact") = Normal r
    /\ forall a,
         In a (value r)
         <-> In a (value EntityScenarios.contactAttributes)
             /\ ~ (exists p, logicalNameOf a = p ++ js "yominame")
             /\ ~ (exists b,
                     In b (value EntityScenarios.contactAttributes)
                     /\ logicalNameOf b <> []
                     /\ logicalNameOf a = logicalNameOf b ++ js "name"
                     /\ ~ (exists x, x <> []
                             /\ logicalNameOf b = x ++ js "name")).
Proof.
  apply (getEntityAttributes_distinct_names
           (fun _ => Normal EntityScenarios.contactAttributes)
           (js "contact") EntityScenarios.contactAttributes eq_refl).
  vm_compute. repeat constructor; simpl; intuition discriminate.
Defined.

Lemma lookup_delete (k k' : jsstring) (o : Obj) :
  lookup k (delete k' o) = if eqb k k' then None else lookup k o.
Proof.
  induction o as [|[key v] o IH]; simpl.
  - destruct (eqb k k'); reflexivity.
  - destruct (JSFacts.eqb_spec key k') as [->|Hk']; simpl.
    + rewrite IH. destruct (JSFacts.eqb_spec k k') as [->|Hk].
      * reflexivity.
      * destruct (JSFacts.eqb_spec k' k); congruence.
    + rewrite IH. destruct (JSFacts.eqb_spec key k) as [->|Hk].
      * destruct (JSFacts.eqb_spec k k'); congruence.
      * reflexivity.
Qed.

Lemma delete_absent (k : jsstring) (o : Obj) :
  lookup k o = None -> delete k o = o.
Proof.
  induction o as [|[key v] o IH]; simpl; [reflexivity|].
  destruct (eqb key k); [discriminate|]. simpl.
  intros H. rewrite (IH H). reflexivity.
Qed.

(** X22. [getEntityMetadata] throws what its request threw and
    otherwise returns the definition fetched without its [Privileges]
    property: the result has no such property, every other property
    reads as it did, and a response that had none, or is no object, is
    returned as it is. *)
Theorem getEntityMetadata_privileges
    (getAny : jsstring -> Completion unknown) (entityName : jsstring) :
  match getAny (metadataEndpoint entityName) with
  | Throw e => getEntityMetadata getAny entityName = Throw e
  | Normal response =>
      exists r,
        getEntityMetadata getAny entityName = Normal r
        /\ prop "Privileges" (Some r) = None
        /\ (forall key : string,
              js key <> js "Privileges" ->
              prop key (Some r) = prop key (Some response))
        /\ (prop "Privileges" (Some response) = None -> r = response)
  end.
Proof.
  unfold getEntityMetadata.
  destruct (getAny (metadataEndpoint entityName)) as [response|e];
    [|reflexivity].
  eexists; split; [reflexivity|].
  destruct response as [| b | z | s | items | fields];
    try (repeat split; reflexivity).
  cbn [withoutPrivileges prop]. split; [|split].
  - rewrite lookup_delete, JSFacts.eqb_refl. reflexivity.
  - intros key Hkey. rewrite lookup_delete.
    destruct (JSFacts.eqb_spec (js key) (js "Privileges")); congruence.
  - intros H. rewrite (delete_absent _ _ H). reflexivity.
Qed.

Lemma startsWith_false_iff (s prefix : jsstring) :
  startsWith s prefix = false <-> ~ exists rest, s = prefix ++ rest.
Proof.
  rewrite <- startsWith_iff.
  destruct (startsWith s prefix); split; congruence.
Qed.

Lemma relationshipKept_iff (relationship : Relationship.t) :
  relationshipKept relationship = true
  <-> forall s,
        Relationship.ReferencingEntity relationship = Some s ->
        ~ (exists rest, s = js "msdyn_" ++ rest)
        /\ ~ (exists rest, s = js "adx_" ++ rest).
Proof.
  unfold relationshipKept.
  rewrite Bool.negb_true_iff, Bool.orb_false_iff, !startsWith_false_iff.
  destruct (Relationship.ReferencingEntity relationship) as [s|]; simpl.
  - destruct s as [|c s]; simpl.
    + split.
      * intros _ s [= <-]. split; intros [rest H]; discriminate.
      * intros _. split; intros [rest H]; discriminate.
    + split.
      * intros H s' [= <-]. exact H.
      * intros H. exact (H _ eq_refl).
  - split.
    + intros _ s H. discriminate.
    + intros _. split; intros [rest H]; discriminate.
Qed.

(** X23. [getEntityOneToManyRelationships] throws what its request
    threw and otherwise returns exactly the fetched relationships
    whose [ReferencingEntity] does not start with ["msdyn_"] or
    ["adx_"]; a relationship without a [ReferencingEntity] is
    returned. *)
Theorem getEntityOneToManyRelationships_kept
    (getRelationships :
       jsstring -> Completion (ApiCollectionResponse Relationship.t))
    (entityName : jsstring) :
  match getRelationships (oneToManyEndpoint entityName) with
  | Throw e =>
      getEntityOneToManyRelationships getRelationships entityName = Throw e
  | Normal response =>
      exists r,
        getEntityOneToManyRelationships getRelationships entityName
        = Normal r
        /\ length (value r) <= length (value response)
        /\ (forall relationship,
              In relationship (value r)
              <-> In relationship (value response)
                  /\ forall s,
                       Relationship.ReferencingEntity relationship = Some s ->
                       ~ (exists rest, s = js "msdyn_" ++ rest)
                       /\ ~ (exists rest, s = js "adx_" ++ rest))
        /\ ((forall relationship,
               In relationship (value response) ->
               Relationship.ReferencingEntity relationship = None) ->
            value r = value response)
  end.
Proof.
  unfold getEntityOneToManyRelationships.
  destruct (getRelationships (oneToManyEndpoint entityName))
    as [response|e]; [|reflexivity].
  eexists; split; [reflexivity|]. cbn [value].
  split; [apply filter_length_le|]. split.
  - intros relationship. rewrite filter_In, relationshipKept_iff.
    reflexivity.
  - intros H. induction (value response) as [|x l IH]; simpl;
      [reflexivity|].
    assert (Hx : relationshipKept x = true).
    { apply relationshipKept_iff. intros s Hs.
      rewrite (H x (or_introl eq_refl)) in Hs. discriminate. }
    rewrite Hx, IH; [reflexivity|].
    intros y Hy. apply H. right. exact Hy.
Qed.

End EntityFacts.

(* ===================================================================== *)
(** ** Facts about the record service *)
(* ===================================================================== *)

Module RecordFacts.
Import JS Client Tools RecordService.
Local Open Scope N_scope.

Lemma hexDigit_unreserved (n : N) : n < 16 -> unreserved (hexDigit n) = true.
Proof.
  intros H. unfold hexDigit, unreserved.
  destruct (N.ltb_spec n 10) as [Hn|Hn].
  - assert (E : (48 <=? 48 + n) && (48 + n <=? 57) = true)
      by (rewrite Bool.andb_true_iff, !N.leb_le; lia).
    rewrite E, Bool.orb_true_r. reflexivity.
  - assert (E : (65 <=? 55 + n) && (55 + n <=? 90) = true)
      by (rewrite Bool.andb_true_iff, !N.leb_le; lia).
    rewrite E. reflexivity.
Qed.

Lemma percent_escaped (octet : N) :
  octet < 256 ->
  Forall (fun c => unreserved c = true \/ c = 37) (percent octet).
Proof.
  intros H. unfold percent.
  constructor; [right; reflexivity|].
  constructor.
  { left. apply hexDigit_unreserved. apply N.Div0.div_lt_upper_bound. lia. }
  constructor; [|constructor].
  left. apply hexDigit_unreserved. apply N.mod_lt. lia.
Qed.

Lemma utf8_octets (cp : N) :
  cp < 1114112 -> Forall (fun o => o < 256) (utf8 cp).
Proof.
  intros H. unfold utf8.
  assert (cp mod 64 < 64) by (apply N.mod_lt; lia).
  assert ((cp / 64) mod 64 < 64) by (apply N.mod_lt; lia).
  assert ((cp / 4096) mod 64 < 64) by (apply N.mod_lt; lia).
  destruct (N.ltb_spec cp 128).
  { constructor; [lia | constructor]. }
  destruct (N.ltb_spec cp 2048).
  { assert (cp / 64 < 32) by (apply N.Div0.div_lt_upper_bound; lia).
    repeat (apply Forall_cons; [lia|]). constructor. }
  destruct (N.ltb_spec cp 65536).
  { assert (cp / 4096 < 16) by (apply N.Div0.div_lt_upper_bound; lia).
    repeat (apply Forall_cons; [lia|]). constructor. }
  assert (cp / 262144 < 16) by (apply N.Div0.div_lt_upper_bound; lia).
  repeat (apply Forall_cons; [lia|]). constructor.
Qed.

Lemma escapes (cp : N) :
  cp < 1114112 ->
  Forall (fun c => unreserved c = true \/ c = 37)
         (flat_map percent (utf8 cp)).
Proof.
  intros H. pose proof (utf8_octets cp H) as Ho.
  induction Ho as [|o os Ho Hos IH]; cbn [flat_map]; [constructor|].
  apply Forall_app. split; [apply percent_escaped; exact Ho | exact IH].
Qed.

Lemma encodeURIComponent_escaped (n : nat) (s out : jsstring) :
  (length s <= n)%nat ->
  Forall (fun c => c < 65536) s ->
  encodeURIComponent s = Some out ->
  Forall (fun c => unreserved c = true \/ c = 37) out.
Proof.
  revert s out; induction n as [|n IH]; intros s out Hlen Hs.
  - destruct s; [|simpl in Hlen; lia]. intros [= <-]. constructor.
  - destruct s as [|c rest]; [intros [= <-]; constructor|].
    inversion Hs as [|x xs Hc Hrest]; subst.
    simpl in Hlen. cbn [encodeURIComponent].
    destruct (unreserved c) eqn:Hu.
    { destruct (encodeURIComponent rest) as [o|] eqn:Ho; [|discriminate].
      intros [= <-]. constructor; [left; exact Hu|].
      apply (IH rest o); [lia | exact Hrest | exact Ho]. }
    destruct (isTrailSurrogate c); [discriminate|].
    destruct (isLeadSurrogate c) eqn:Hlead.
    { destruct rest as [|k rest']; [discriminate|].
      destruct (isTrailSurrogate k) eqn:Htrail; [|discriminate].
      destruct (encodeURIComponent rest') as [o|] eqn:Ho; [|discriminate].
      intros [= <-]. apply Forall_app. split.
      - apply escapes. unfold isLeadSurrogate, isTrailSurrogate in *.
        apply Bool.andb_true_iff in Hlead, Htrail.
        rewrite !N.leb_le in Hlead, Htrail. lia.
      - inversion Hrest; subst.
        apply (IH rest' o); [simpl in Hlen; lia | assumption | exact Ho]. }
    destruct (encodeURIComponent rest) as [o|] eqn:Ho; [|discriminate].
    intros [= <-]. apply Forall_app. split.
    + apply escapes. lia.
    + apply (IH rest o); [lia | exact Hrest | exact Ho].
Qed.

Lemma escaped_not_reserved (c : N) :
  unreserved c = true \/ c = 37 -> ~ In c (js " #$&+,/:;<=>?@").
Proof.
  intros H Hin. simpl in Hin.
  repeat (destruct Hin as [<-|Hin];
          [destruct H as [H|H]; [vm_compute in H|]; discriminate|]).
  exact Hin.
Qed.

(** X24. [queryRecords] percent-encodes the filter and the order: it
    does what [get] does for the endpoint
    [api/data/v9.2/<plural>?$filter=<F>&$top=<n>], followed by
    [&$orderby=<G>] when an order is given and not empty, where the
    encoded texts [F] and [G] hold nothing but unreserved characters
    and ["%"], hence no separator of a query string. When the filter,
    or the order given, holds a surrogate that is not half of a pair,
    it throws a [URIError] and asks nothing of the client. *)
Theorem queryRecords_request (config : PowerPlatformConfig)
    (msal : nat -> Outcome (option AuthenticationResult))
    (axios : HttpRequest -> Outcome unknown)
    (number : Type) (numberToString : number -> jsstring)
    (currentTime : Z) (entityNamePlural filter : jsstring)
    (maxRecords : number) (orderby : option jsstring) (st : State) :
  let order := match orderby with Some text => text | None => [] end in
  Forall (fun c => c < 65536) filter ->
  Forall (fun c => c < 65536) order ->
  match encodeURIComponent filter, encodeURIComponent order with
  | Some F, Some G =>
      queryRecords config msal axios numberToString currentTime
        entityNamePlural filter maxRecords orderby st
      = get config msal axios currentTime
          (js "api/data/v9.2/" ++ entityNamePlural ++ js "?$filter=" ++ F
           ++ js "&$top=" ++ numberToString maxRecords
           ++ (if truthy order then js "&$orderby=" ++ G else []))
          st
      /\ (forall c, In c (F ++ G) ->
            (unreserved c = true \/ c = 37)
            /\ ~ In c (js " #$&+,/:;<=>?@"))
  | _, _ =>
      queryRecords config msal axios numberToString currentTime
        entityNamePlural filter maxRecords orderby st
      = (st, Raises uriError)
  end.
Proof.
  intros order Hf Ho. unfold queryRecords.
  destruct (encodeURIComponent filter) as [F|] eqn:HF.
  2: { destruct (encodeURIComponent order); reflexivity. }
  destruct (encodeURIComponent order) as [G|] eqn:HO.
  - split.
    + destruct orderby as [text|]; cbn [order truthy] in *.
      * subst order. destruct text as [|c text]; cbn [truthy].
        -- rewrite !app_nil_r. reflexivity.
        -- rewrite HO. rewrite <- !app_assoc. reflexivity.
      * rewrite !app_nil_r. reflexivity.
    + intros c Hc.
      assert (H : unreserved c = true \/ c = 37).
      { apply in_app_iff in Hc. destruct Hc as [Hc|Hc].
        - pose proof (encodeURIComponent_escaped _ filter F (le_n _) Hf HF)
            as HA.
          rewrite Forall_forall in HA. exact (HA c Hc).
        - pose proof (encodeURIComponent_escaped _ order G (le_n _) Ho HO)
            as HA.
          rewrite Forall_forall in HA. exact (HA c Hc). }
      split; [exact H | exact (escaped_not_reserved c H)].
  - destruct orderby as [text|]; subst order; cbn in HO.
    + destruct text as [|c text]; [discriminate|]. cbn [truthy].
      rewrite HO. reflexivity.
    + discriminate.
Qed.

Lemma queryRecords_request_witness :
  queryRecords
    {| organizationUrl := js "https://org.crm.dynamics.com";
       clientId := js "id"; clientSecret := js "secret";
       tenantId := js "tenant" |}
    (fun _ => Returns None) (fun _ => Returns JNull) ofLength 0
    (js "accounts") (js "name eq 'A&B'") 5%nat (Some [55357]) initial
  = (initial, Raises uriError).
Proof.
  exact (queryRecords_request
           {| organizationUrl := js "https://org.crm.dynamics.com";
              clientId := js "id"; clientSecret := js "secret";
              tenantId := js "tenant" |}
           (fun _ => Returns None) (fun _ => Returns JNull) nat ofLength 0
           (js "accounts") (js "name eq 'A&B'") 5%nat (Some [55357]) initial
           ltac:(vm_compute; repeat constructor)
           ltac:(vm_compute; repeat constructor)).
Defined.

End RecordFacts.

(* ===================================================================== *)
(** ** Facts about the handler of get-plugin-assembly-complete *)
(* ===================================================================== *)

Module AssemblyToolFacts.
Import PluginService ServiceFacts Report Tools AssemblyTool.

Lemma filter_none {A : Type} (p : A -> bool) (l : list A) :
  (forall a, In a l -> p a = false) -> filter p l = [].
Proof.
  intros H. induction l as [|a l IH]; simpl; [reflexivity|].
  rewrite (H a (or_introl eq_refl)). apply IH.
  intros b Hb. apply H. right. exact Hb.
Qed.

Lemma filter_some {A : Type} (p : A -> bool) (l : list A) (a : A) :
  In a l -> p a = true -> filter p l <> [].
Proof.
  intros Hin Hp E.
  assert (H : In a (filter p l)) by (apply filter_In; auto).
  rewrite E in H. destruct H.
Qed.

(** X25. The handler of [get-plugin-assembly-complete] never throws. A
    failure of the context or of the service, such as an assembly that
    is not found, is reported as
    ["Failed to get plugin assembly: <message>"] without structured
    content. Otherwise the report gives the numbers of plugin types and
    of steps, and as potential issues ["None"] when every Update or
    Delete step returned has filtering attributes and images, and the
    issues of the validation joined by [", "], at least one, when some
    Update or Delete step lacks either. *)
Theorem getPluginAssemblyCompleteTool_report
    (stringify : AssemblyComplete.t -> jsstring)
    (getPluginService : Completion PowerPlatformClient)
    (assemblyName : jsstring) (includeDisabled : option bool) :
  let flag := match includeDisabled with Some b => b | None => false end in
  let failed (e : Exn) : ToolResult AssemblyComplete.t :=
    {| structuredContent := None;
       content := [ js "Failed to get plugin assembly: "
                    ++ messageOfError e ] |} in
  match getPluginService with
  | Throw e =>
      run (getPluginAssemblyCompleteTool stringify getPluginService
             assemblyName includeDisabled) = ([], Normal (failed e))
  | Normal client =>
      (forall resp,
         client (assemblyByName assemblyName) = Normal resp ->
         value resp = [] ->
         run (getPluginAssemblyCompleteTool stringify getPluginService
                assemblyName includeDisabled)
         = ( [assemblyByName assemblyName],
             Normal (failed (Error (js "Plugin assembly '" ++ assemblyName
                                    ++ js "' not found"))) ))
      /\ match run (getPluginAssemblyComplete client assemblyName flag) with
         | (log, Throw e) =>
             run (getPluginAssemblyCompleteTool stringify getPluginService
                    assemblyName includeDisabled) = (log, Normal (failed e))
         | (log, Normal r) =>
             exists issues,
               run (getPluginAssemblyCompleteTool stringify getPluginService
                      assemblyName includeDisabled)
               = ( log,
                   Normal
                     {| structuredContent := Some r;
                        content :=
                          [ js "Plugin assembly '" ++ assemblyName
                            ++ js "':" ++ [newline; newline]
                            ++ js "Plugin Types: "
                            ++ ofLength
                                 (length (AssemblyComplete.pluginTypes r))
                            ++ [newline] ++ js "Steps: "
                            ++ ofLength (length (AssemblyComplete.steps r))
                            ++ [newline] ++ js "Potential Issues: "
                            ++ issues ++ [newline; newline]
                            ++ stringify r ] |} )
               /\ ((forall s,
                      In s (AssemblyComplete.steps r) ->
                      onUpdateOrDelete s ->
                      filteringAttributesOf s <> []
                      /\ StepWithImages.images s <> []) ->
                   issues = js "None")
               /\ ((exists s,
                      In s (AssemblyComplete.steps r)
                      /\ onUpdateOrDelete s
                      /\ (filteringAttributesOf s = []
                          \/ StepWithImages.images s = [])) ->
                   Validation.potentialIssues (AssemblyComplete.validation r)
                   <> []
                   /\ issues
                      = join (js ", ")
                          (Validation.potentialIssues
                             (AssemblyComplete.validation r)))
         end
  end.
Proof.
  intros flag failed. destruct getPluginService as [client|e];
    [|reflexivity].
  split.
  { intros resp Hresp Hnil.
    unfold run, getPluginAssemblyCompleteTool, try_catch_error.
    rewrite bind_lift. unfold bind at 1.
    unfold getPluginAssemblyComplete at 1.
    rewrite bind_request, Hresp, Hnil. reflexivity. }
  unfold run.
  destruct (getPluginAssemblyComplete client assemblyName flag [])
    as [log [r|e]] eqn:Hrun;
    unfold getPluginAssemblyCompleteTool, try_catch_error;
    rewrite bind_lift; unfold bind at 1; fold flag; rewrite Hrun;
    [|reflexivity].
  eexists. split; [reflexivity|].
  destruct (ValidationFacts.reported_lists client assemblyName flag log r
              Hrun) as (HFA & HIM & HPI).
  cbv zeta in HFA, HIM, HPI. rewrite HPI, HFA, HIM. clear HPI HFA HIM.
  rewrite !length_map. unfold issuesTextOf. split.
  - intros Hall.
    rewrite (filter_none lacksFilteringAttributes), (filter_none lacksImages).
    + reflexivity.
    + intros s Hs. destruct (lacksImages s) eqn:H; [|reflexivity].
      apply ValidationFacts.lacksImages_iff in H. destruct H as [Hu Hl].
      destruct (Hall s Hs Hu) as [_ Hi].
      destruct (StepWithImages.images s); [congruence|discriminate].
    + intros s Hs. destruct (lacksFilteringAttributes s) eqn:H;
        [|reflexivity].
      apply ValidationFacts.lacksFilteringAttributes_iff in H.
      destruct H as [Hu Hl]. destruct (Hall s Hs Hu) as [Hf _].
      congruence.
  - intros (s & Hs & Hu & Hlack).
    assert (Hne :
              (if (0 <? length (filter lacksFilteringAttributes
                                  (AssemblyComplete.steps r)))%nat
               then [filteringIssue
                       (length (filter lacksFilteringAttributes
                                  (AssemblyComplete.steps r)))]
               else [])
              ++ (if (0 <? length (filter lacksImages
                                     (AssemblyComplete.steps r)))%nat
                  then [imagesIssue
                          (length (filter lacksImages
                                     (AssemblyComplete.steps r)))]
                  else [])
              <> []).
    { destruct Hlack as [Hf|Hi].
      - assert (H : filter lacksFilteringAttributes
                      (AssemblyComplete.steps r) <> []).
        { apply (filter_some _ _ s Hs).
          apply ValidationFacts.lacksFilteringAttributes_iff. auto. }
        destruct (filter lacksFilteringAttributes
                    (AssemblyComplete.steps r)); [congruence|].
        discriminate.
      - assert (H : filter lacksImages (AssemblyComplete.steps r) <> []).
        { apply (filter_some _ _ s Hs).
          apply ValidationFacts.lacksImages_iff. rewrite Hi. auto. }
        destruct (filter lacksImages (AssemblyComplete.steps r));
          [congruence|].
        intros E. apply app_eq_nil in E. destruct E as [_ E].
        discriminate. }
    split; [exact Hne|].
    destruct (_ ++ _) as [|x xs]; [congruence|reflexivity].
Qed.

End AssemblyToolFacts.
